(** * The ReAct agent engine of claude-model-benchmark (src/agent.ts)

    A shallow embedding of [parseAgentResponse] and [runAgent], with the part
    of src/providers.ts they read (the provider catalog and the credential
    lookup), and the properties of the response parser and of the step loop.

    JavaScript strings are sequences of UTF-16 code units; they are modelled
    as lists of code units so that [trim], [split], [indexOf] and [slice]
    act on the same positions as in the source. *)

From Stdlib Require Import List ZArith NArith Bool Ascii String DecimalString Lia.
Import ListNotations.

Local Open Scope list_scope.

(* ------------------------------------------------------------------------- *)
(** ** JavaScript string primitives *)

Module Js.

Definition jsstring := list N.

(** A source literal, written as a Rocq string of ASCII characters. *)
Definition lit (s : string) : jsstring :=
  List.map N_of_ascii (list_ascii_of_string s).
Arguments lit s%_string.

Definition NL : N := 10%N.

(** [s === t] on strings. *)
Fixpoint eqb (s t : jsstring) : bool :=
  match s, t with
  | [], [] => true
  | c :: s', d :: t' => N.eqb c d && eqb s' t'
  | _, _ => false
  end.

(** The code units removed by [String.prototype.trim]: WhiteSpace and
    LineTerminator of ECMA-262. *)
Definition isWhiteSpace (c : N) : bool :=
  ((9 <=? c) && (c <=? 13) || (c =? 32) || (c =? 160) || (c =? 5760)
   || (8192 <=? c) && (c <=? 8202) || (c =? 8232) || (c =? 8233)
   || (c =? 8239) || (c =? 8287) || (c =? 12288) || (c =? 65279))%N.

Fixpoint trimStart (s : jsstring) : jsstring :=
  match s with
  | [] => []
  | c :: r => if isWhiteSpace c then trimStart r else s
  end.

Definition trimEnd (s : jsstring) : jsstring := rev (trimStart (rev s)).

Definition trim (s : jsstring) : jsstring := trimEnd (trimStart s).

(** [s.startsWith(p)]. *)
Fixpoint startsWith (p s : jsstring) : bool :=
  match p, s with
  | [], _ => true
  | c :: p', d :: s' => N.eqb c d && startsWith p' s'
  | _ :: _, [] => false
  end.

(** [s.slice(start)]: a negative start counts from the end, and the start is
    clamped to the string. *)
Definition slice (start : Z) (s : jsstring) : jsstring :=
  let len := Z.of_nat (List.length s) in
  let from := if (start <? 0)%Z then Z.max (len + start) 0 else Z.min start len in
  skipn (Z.to_nat from) s.

(** [s.indexOf(needle)], searching from position [pos] of the original
    string; -1 when the needle does not occur. *)
Fixpoint indexOfFrom (needle s : jsstring) (pos : Z) : Z :=
  if startsWith needle s then pos
  else match s with
       | [] => (-1)%Z
       | _ :: r => indexOfFrom needle r (pos + 1)%Z
       end.

Definition indexOf (needle s : jsstring) : Z := indexOfFrom needle s 0%Z.

(** [s.split("\n")]: the empty string splits into one empty line. *)
Fixpoint splitLines (s : jsstring) : list jsstring :=
  match s with
  | [] => [[]]
  | c :: r =>
      if N.eqb c NL then [] :: splitLines r
      else match splitLines r with
           | l :: ls => (c :: l) :: ls
           | [] => [[c]]
           end
  end.

(** [xs.join(sep)]. *)
Fixpoint join (sep : jsstring) (xs : list jsstring) : jsstring :=
  match xs with
  | [] => []
  | [x] => x
  | x :: rest => x ++ sep ++ join sep rest
  end.

(** [x || undefined] and [x || ""] on strings: the empty string is falsy. *)
Definition orUndefined (s : jsstring) : option jsstring :=
  match s with [] => None | _ => Some s end.

Definition orEmpty (o : option jsstring) : jsstring :=
  match o with Some (c :: r) => c :: r | _ => [] end.

(** [`${n}`] for a non-negative integer such as an array length. *)
Definition ofNat (n : nat) : jsstring :=
  lit (NilZero.string_of_uint (Nat.to_uint n)).

(** [[...new Set(xs)]]: the distinct elements in order of first occurrence. *)
Fixpoint distinctFrom (seen xs : list jsstring) : list jsstring :=
  match xs with
  | [] => []
  | x :: r =>
      if existsb (eqb x) seen then distinctFrom seen r
      else x :: distinctFrom (x :: seen) r
  end.

Definition distinct (xs : list jsstring) : list jsstring := distinctFrom [] xs.

(** [s.includes(sub)]. *)
Definition includes (sub s : jsstring) : bool := (0 <=? indexOf sub s)%Z.

End Js.

Import Js.

(* ------------------------------------------------------------------------- *)
(** ** The response parser: [parseAgentResponse] *)

Definition THOUGHT := lit "Thought:".
Definition ACTION := lit "Action:".
Definition ACTION_INPUT := lit "Action Input:".
Definition FINAL_ANSWER := lit "Final Answer:".
Definition OBSERVATION := lit "Observation:".

(** The four local variables of the parser. *)
Record ParseVars := mkVars {
  v_thought : jsstring;
  v_action : jsstring;
  v_actionInput : jsstring;
  v_finalAnswer : jsstring
}.

(** The object the parser returns. *)
Record Parsed := mkParsed {
  thought : jsstring;
  action : option jsstring;
  actionInput : option jsstring;
  finalAnswer : option jsstring
}.

(** The test that ends the inner loop of an "Action Input:" capture. *)
Definition stopsCapture (nt : jsstring) : bool :=
  startsWith THOUGHT nt || startsWith ACTION nt
  || startsWith FINAL_ANSWER nt || startsWith OBSERVATION nt.

(** The inner loop over [j = i + 1 ..]: the lines pushed on [inputLines]. *)
Fixpoint captureLines (following : list jsstring) : list jsstring :=
  match following with
  | [] => []
  | l :: rest => if stopsCapture (trim l) then [] else l :: captureLines rest
  end.

(** The outer loop from line [i] on; [ls] is [lines[i..]]. *)
Fixpoint scanLines (text : jsstring) (ls : list jsstring) (st : ParseVars)
  : ParseVars :=
  match ls with
  | [] => st
  | l :: rest =>
      let trimmed := trim l in
      if startsWith THOUGHT trimmed then
        scanLines text rest
          (mkVars (trim (slice 8 trimmed)) (v_action st) (v_actionInput st)
                  (v_finalAnswer st))
      else if startsWith ACTION trimmed && negb (startsWith ACTION_INPUT trimmed) then
        scanLines text rest
          (mkVars (v_thought st) (trim (slice 7 trimmed)) (v_actionInput st)
                  (v_finalAnswer st))
      else if startsWith ACTION_INPUT trimmed then
        let rest0 := trim (slice 13 trimmed) in
        let inputLines := rest0 :: captureLines rest in
        scanLines text rest
          (mkVars (v_thought st) (v_action st) (trim (join [NL] inputLines))
                  (v_finalAnswer st))
      else if startsWith FINAL_ANSWER trimmed then
        let idx := indexOf FINAL_ANSWER text in
        mkVars (v_thought st) (v_action st) (v_actionInput st)
               (trim (slice (idx + 13) text))
      else scanLines text rest st
  end.

Definition initialVars : ParseVars := mkVars [] [] [] [].

Definition parseAgentResponse (text : jsstring) : Parsed :=
  let st := scanLines text (splitLines text) initialVars in
  mkParsed (v_thought st) (orUndefined (v_action st))
           (orUndefined (v_actionInput st)) (orUndefined (v_finalAnswer st)).

(* ------------------------------------------------------------------------- *)
(** ** The provider catalog and credential lookup (src/providers.ts) *)

(** [ModelDef] without its two price fields, which the agent never reads. *)
Record ModelDef := mkModel { model_id : jsstring; model_label : jsstring }.

Record ProviderConfig := mkProvider {
  cfg_name : jsstring;
  models : list ModelDef;
  envKey : jsstring
}.

(** [Object.entries(PROVIDERS)], in insertion order. *)
Definition PROVIDERS : list (jsstring * ProviderConfig) :=
  [ (lit "anthropic",
     mkProvider (lit "Anthropic")
       [ mkModel (lit "claude-haiku-4-5-20251001") (lit "Haiku 4.5");
         mkModel (lit "claude-sonnet-4-5-20250929") (lit "Sonnet 4.5") ]
       (lit "ANTHROPIC_API_KEY"));
    (lit "openai",
     mkProvider (lit "OpenAI")
       [ mkModel (lit "gpt-4o-mini") (lit "GPT-4o Mini");
         mkModel (lit "gpt-4o") (lit "GPT-4o") ]
       (lit "OPENAI_API_KEY"));
    (lit "gemini",
     mkProvider (lit "Google")
       [ mkModel (lit "gemini-2.0-flash") (lit "Gemini 2.0 Flash") ]
       (lit "GEMINI_API_KEY")) ].

(** [PROVIDERS[key]]. *)
Definition lookupProvider (key : jsstring) : option ProviderConfig :=
  option_map snd (find (fun e => Js.eqb (fst e) key) PROVIDERS).

(** [process.env], and an explicit [apiKeys] record: a variable is absent
    or holds a string. *)
Definition Env := jsstring -> option jsstring.

Definition truthy (o : option jsstring) : bool :=
  match o with Some (_ :: _) => true | _ => false end.

Definition explicitKey (apiKeys : option Env) (key : jsstring) : option jsstring :=
  match apiKeys with Some m => m key | None => None end.

Definition getAvailableProviders (apiKeys : option Env) (env : Env) : list jsstring :=
  List.map fst
    (filter (fun e =>
               if truthy (explicitKey apiKeys (fst e)) then true
               else truthy (env (envKey (snd e))))
            PROVIDERS).

Definition getApiKey (providerKey : jsstring) (apiKeys : option Env) (env : Env)
  : option jsstring :=
  if truthy (explicitKey apiKeys providerKey) then explicitKey apiKeys providerKey
  else match lookupProvider providerKey with
       | None => None
       | Some cfg => env (envKey cfg)
       end.

(* ------------------------------------------------------------------------- *)
(** ** Agent types *)

(** What a [throw] carries, as far as [catch] in [runAgent] looks at it:
    an [Error] with its [message], or another value with its [String(e)]. *)
Inductive JsThrown :=
| ThrownError (message : jsstring)
| ThrownValue (shown : jsstring).

Definition thrownText (e : JsThrown) : jsstring :=
  match e with ThrownError m => m | ThrownValue s => s end.

Inductive Role := user | assistant.

Record MultiTurnMessage := mkMsg { role : Role; content : jsstring }.

Record ApiCallResult := mkApiResult {
  text : jsstring;
  inputTokens : Z;
  outputTokens : Z;
  latencyMs : Z
}.

Record AgentStep := mkStep {
  step_thought : jsstring;
  step_action : jsstring;
  step_actionInput : jsstring;
  step_observation : jsstring
}.

Record AgentResult := mkResult {
  steps : list AgentStep;
  res_finalAnswer : jsstring;
  totalSteps : Z;
  provider : jsstring
}.

(** The calls a run makes to its collaborators, in order (a ghost record:
    the source keeps no such log). *)
Inductive Event :=
| CompletionCall (messages : list MultiTurnMessage)
| ToolExecute (tool : jsstring) (input : jsstring).

(** How the loop body leaves: by [return] with the result, or on to the
    next iteration; both carry the transcript [messages] as it then is. *)
Inductive Flow :=
| Return (r : AgentResult) (messages : list MultiTurnMessage)
| Continue (messages : list MultiTurnMessage) (steps : list AgentStep).

Definition flowMessages (f : Flow) : list MultiTurnMessage :=
  match f with Return _ msgs => msgs | Continue msgs _ => msgs end.

Definition isAssistant (m : MultiTurnMessage) : bool :=
  match role m with assistant => true | user => false end.

(** A reply that the loop does not take as a final answer. *)
Definition notFinal (m : MultiTurnMessage) : Prop :=
  role m = assistant -> truthy (finalAnswer (parseAgentResponse (content m))) = false.

Inductive ExitKind := Success | BudgetExhausted.

Record RunReport := mkReport {
  result : AgentResult;
  transcript : list MultiTurnMessage;
  exit : ExitKind
}.

Definition NO_PROVIDER_MESSAGE : jsstring :=
  lit "No LLM provider configured. Set ANTHROPIC_API_KEY, OPENAI_API_KEY, or GEMINI_API_KEY.".

Definition NO_TOOLS_MESSAGE : jsstring :=
  lit "Agent reached maximum steps without executing tools.".

Definition NUDGE : jsstring := lit "Use a tool or provide Final Answer.".

(** The fallback answer built after the loop. *)
Definition budgetAnswer (steps : list AgentStep) : jsstring :=
  match steps with
  | [] => NO_TOOLS_MESSAGE
  | _ :: _ =>
      lit "Agent completed " ++ ofNat (List.length steps) ++ lit " steps. Tools used: "
      ++ join (lit ", ") (distinct (List.map step_action steps)) ++ lit "."
  end.

(** The [return] in the loop, and the one after it. *)
Definition reportOf (maxSteps : Z) (label : jsstring) (flow : Flow) : RunReport :=
  match flow with
  | Return r msgs => mkReport r msgs Success
  | Continue msgs steps =>
      mkReport (mkResult steps (budgetAnswer steps) maxSteps label) msgs BudgetExhausted
  end.

Definition providerLabel (agentModel : ModelDef) (providerCfg : ProviderConfig)
  : jsstring :=
  model_label agentModel ++ lit " (" ++ cfg_name providerCfg ++ lit ")".

Definition observationMessage (observation : jsstring) : MultiTurnMessage :=
  mkMsg user (lit "Observation: " ++ observation ++ [NL; NL] ++ lit "Continue.").

(* ------------------------------------------------------------------------- *)
(** ** The engine: [runAgent]

    The completion provider and the tools act on the outside world; [World]
    is its state, threaded through every call, so that a provider or a tool
    may answer differently each time.  A call that never settles is not
    modelled. *)

(** How a computation completes: normally with a value, or by a [throw]. *)
Inductive Outcome (A : Type) :=
| Normal (a : A)
| Abrupt (e : JsThrown).
Arguments Normal {A} a.
Arguments Abrupt {A} e.

Section Engine.

Variable World : Type.

Record AgentTool := mkTool {
  name : jsstring;
  description : jsstring;
  execute : jsstring -> World -> (JsThrown + jsstring) * World
}.

(** Modelled from the spec: [callProviderMultiTurn] is imported from
    ./providers, whose text as given stops before its definition.  By the
    completion provider contract it takes the provider key, the model id,
    the system prompt, the transcript, the credential and the token limit,
    and gives one reply or fails; like [callProvider] next to it, it fails
    by throwing.  It is kept as a parameter. *)
Variable completionOracle :
  jsstring -> jsstring -> jsstring -> list MultiTurnMessage -> option jsstring -> Z ->
  World -> (JsThrown + ApiCallResult) * World.

(** *** A state and exception monad over the world and the call log *)

Record Sys := mkSys { world : World; events : list Event }.

Definition M (A : Type) := Sys -> Outcome A * Sys.

Definition ret {A} (a : A) : M A := fun s => (Normal a, s).

Definition throw {A} (e : JsThrown) : M A := fun s => (Abrupt e, s).

Definition bind {A B} (m : M A) (k : A -> M B) : M B :=
  fun s => match m s with
           | (Normal a, s') => k a s'
           | (Abrupt e, s') => (Abrupt e, s')
           end.

Definition tryCatch {A} (m : M A) (handler : JsThrown -> M A) : M A :=
  fun s => match m s with
           | (Normal a, s') => (Normal a, s')
           | (Abrupt e, s') => handler e s'
           end.

Notation "x <- m ;; k" := (bind m (fun x => k))
  (at level 100, m at next level, right associativity).

Definition callProviderMultiTurn (providerKey modelId systemPrompt : jsstring)
  (messages : list MultiTurnMessage) (apiKey : option jsstring) (maxTokens : Z)
  : M ApiCallResult :=
  fun s =>
    let '(r, w) := completionOracle providerKey modelId systemPrompt messages
                     apiKey maxTokens (world s) in
    (match r with inl e => Abrupt e | inr v => Normal v end,
     mkSys w (events s ++ [CompletionCall messages])).

(** [await tool.execute(input)]. *)
Definition executeTool (tool : AgentTool) (input : jsstring) : M jsstring :=
  fun s =>
    let '(r, w) := execute tool input (world s) in
    (match r with inl e => Abrupt e | inr v => Normal v end,
     mkSys w (events s ++ [ToolExecute (name tool) input])).

Definition buildAgentSystemPrompt (tools : list AgentTool) : jsstring :=
  let toolDescriptions :=
    join [NL] (List.map (fun t => lit "  " ++ name t ++ lit ": " ++ description t) tools) in
  join [NL]
    [ lit "You are a benchmark analysis agent. You investigate, test, and analyze AI models.";
      [];
      lit "Available tools:";
      toolDescriptions;
      [];
      lit "Format (exactly):";
      [];
      lit "Thought: <your reasoning>";
      lit "Action: <tool_name>";
      lit "Action Input: <input for the tool>";
      [];
      lit "When done:";
      [];
      lit "Thought: <final reasoning>";
      lit "Final Answer: <your comprehensive answer>";
      [];
      lit "Rules:";
      lit "- One tool per response";
      lit "- Be thorough: test multiple models, compare, compute statistics";
      lit "- Final Answer should have clear recommendations";
      lit "- Do NOT combine Action and Final Answer" ].

(** The observation for an action that names no tool. *)
Definition unknownTool (tools : list AgentTool) (act : jsstring) : jsstring :=
  lit "Unknown tool: " ++ act ++ lit ". Available: "
  ++ join (lit ", ") (List.map name tools).

(** The [try]/[catch] around the tool dispatch. *)
Definition dispatch (tools : list AgentTool) (act : jsstring)
  (input : option jsstring) : M jsstring :=
  let tool := find (fun t => Js.eqb (name t) act) tools in
  tryCatch
    (match tool with
     | Some t => executeTool t (orEmpty input)
     | None => ret (unknownTool tools act)
     end)
    (fun e => ret (lit "Tool error: " ++ thrownText e)).

(** The state right after a completion call on [messages] that left the
    world as [w]. *)
Definition afterCall (s : Sys) (messages : list MultiTurnMessage) (w : World) : Sys :=
  mkSys w (events s ++ [CompletionCall messages]).

Section Loop.

Variable tools : list AgentTool.
Variable agentProviderKey : jsstring.
Variable agentApiKey : option jsstring.
Variable providerCfg : ProviderConfig.
Variable agentModel : ModelDef.
Variable systemPrompt : jsstring.

(** The body of the [for] loop at index [i]. *)
Definition runAgent_iteration (i : Z) (messages : list MultiTurnMessage)
  (steps : list AgentStep) : M Flow :=
  response <- callProviderMultiTurn agentProviderKey (model_id agentModel)
                systemPrompt messages agentApiKey 2048 ;;
  let messages := messages ++ [mkMsg assistant (text response)] in
  let parsed := parseAgentResponse (text response) in
  if truthy (finalAnswer parsed) then
    ret (Return (mkResult steps (orEmpty (finalAnswer parsed)) (i + 1)
                   (providerLabel agentModel providerCfg))
                messages)
  else if truthy (action parsed) then
    observation <- dispatch tools (orEmpty (action parsed)) (actionInput parsed) ;;
    let steps := steps ++ [mkStep (thought parsed) (orEmpty (action parsed))
                             (orEmpty (actionInput parsed)) observation] in
    ret (Continue (messages ++ [observationMessage observation]) steps)
  else
    ret (Continue (messages ++ [mkMsg user NUDGE]) steps).

(** [for (let i = ...; i < maxSteps; i++)] with [n] iterations left. *)
Fixpoint runAgent_loop (n : nat) (i : Z) (messages : list MultiTurnMessage)
  (steps : list AgentStep) : M Flow :=
  match n with
  | O => ret (Continue messages steps)
  | S n' =>
      flow <- runAgent_iteration i messages steps ;;
      match flow with
      | Return r msgs => ret (Return r msgs)
      | Continue msgs steps' => runAgent_loop n' (i + 1) msgs steps'
      end
  end.

End Loop.

(** [maxSteps] is an integer, as the command line ([parseInt]) and the
    interface of the engine give it; absent, it is 8.  The loop
    [for (i = 0; i < maxSteps; i++)] then has [Z.to_nat maxSteps]
    iterations. *)
Record AgentOptions := mkOptions {
  goal : jsstring;
  tools : list AgentTool;
  context : option jsstring;
  maxSteps : option Z
}.

Definition budgetOf (options : AgentOptions) : Z :=
  match maxSteps options with Some n => n | None => 8 end.

Definition firstMessage (options : AgentOptions) : MultiTurnMessage :=
  let contextBlock :=
    if truthy (context options)
    then [NL; NL] ++ lit "Context:" ++ [NL] ++ orEmpty (context options)
    else [] in
  mkMsg user (lit "Goal: " ++ goal options ++ contextBlock ++ [NL; NL] ++ lit "Begin.").

(** The [TypeError] of reading a property of [undefined]: of
    [PROVIDERS[key]] for a key without entry, or of [models[0]] for an
    entry without model (thrown at the first use of [agentModel], before
    any call).  Neither happens with the catalog above (see
    [runAgent_catalog_total]). *)
Definition TYPE_ERROR : JsThrown :=
  ThrownError (lit "Cannot read properties of undefined").

(** [runAgent], also reporting the final transcript and which of the two
    [return]s was taken. *)
Definition runAgent_traced (env : Env) (options : AgentOptions) : M RunReport :=
  let maxSteps := budgetOf options in
  match getAvailableProviders None env with
  | [] => throw (ThrownError NO_PROVIDER_MESSAGE)
  | agentProviderKey :: _ =>
      let agentApiKey := getApiKey agentProviderKey None env in
      match lookupProvider agentProviderKey with
      | None => throw TYPE_ERROR
      | Some providerCfg =>
          match models providerCfg with
          | [] => throw TYPE_ERROR
          | agentModel :: _ =>
              let systemPrompt := buildAgentSystemPrompt (tools options) in
              flow <- runAgent_loop (tools options) agentProviderKey agentApiKey
                        providerCfg agentModel systemPrompt
                        (Z.to_nat maxSteps) 0 [firstMessage options] [] ;;
              ret (reportOf maxSteps (providerLabel agentModel providerCfg) flow)
          end
      end
  end.

Definition runAgent (env : Env) (options : AgentOptions) : M AgentResult :=
  report <- runAgent_traced env options ;;
  ret (result report).

End Engine.

Arguments mkSys {World} world events.
Arguments mkTool {World} name description execute.
Arguments mkOptions {World} goal tools context maxSteps.
Arguments name {World} a.
Arguments description {World} a.
Arguments execute {World} a.
Arguments world {World} s.
Arguments events {World} s.
Arguments tools {World} a.
Arguments goal {World} a.
Arguments context {World} a.
Arguments maxSteps {World} a.
Arguments budgetOf {World} options.
Arguments ret {World A} a.
Arguments throw {World A} e.
Arguments bind {World A B} m k.
Arguments tryCatch {World A} m handler.
Arguments executeTool {World} tool input.
Arguments dispatch {World} tools act input.
Arguments unknownTool {World} tools act.
Arguments afterCall {World} s messages w.
Arguments callProviderMultiTurn {World} completionOracle.
Arguments runAgent_iteration {World} completionOracle.
Arguments runAgent_loop {World} completionOracle.
Arguments runAgent_traced {World} completionOracle.
Arguments runAgent {World} completionOracle.
Arguments buildAgentSystemPrompt {World} tools.
Arguments firstMessage {World} options.

(* ------------------------------------------------------------------------- *)
(** ** Line classification used in the statements *)

Definition isThoughtLine (l : jsstring) : bool := startsWith THOUGHT (trim l).

Definition isActionLine (l : jsstring) : bool :=
  startsWith ACTION (trim l) && negb (startsWith ACTION_INPUT (trim l)).

Definition isActionInputLine (l : jsstring) : bool :=
  startsWith ACTION_INPUT (trim l).

Definition isFinalLine (l : jsstring) : bool := startsWith FINAL_ANSWER (trim l).

(** The lines the outer loop looks at: those before the first line that
    begins, trimmed, with "Final Answer:". *)
Fixpoint beforeFinal (ls : list jsstring) : list jsstring :=
  match ls with
  | [] => []
  | l :: rest => if isFinalLine l then [] else l :: beforeFinal rest
  end.

(** Everything after the first occurrence of [needle] in [s], if it occurs. *)
Fixpoint afterFirst (needle s : jsstring) : option jsstring :=
  if startsWith needle s then Some (skipn (List.length needle) s)
  else match s with
       | [] => None
       | _ :: r => afterFirst needle r
       end.

(** The locals when the outer loop is left. *)
Definition parseVars (text : jsstring) : ParseVars :=
  scanLines text (splitLines text) initialVars.

(** What one line that is not a "Final Answer:" line does to the locals;
    [rest] are the lines after it. *)
Definition updateVars (l : jsstring) (rest : list jsstring) (st : ParseVars)
  : ParseVars :=
  if isThoughtLine l then
    mkVars (trim (slice 8 (trim l))) (v_action st) (v_actionInput st) (v_finalAnswer st)
  else if isActionLine l then
    mkVars (v_thought st) (trim (slice 7 (trim l))) (v_actionInput st) (v_finalAnswer st)
  else if isActionInputLine l then
    mkVars (v_thought st) (v_action st)
           (trim (join [NL] (trim (slice 13 (trim l)) :: captureLines rest)))
           (v_finalAnswer st)
  else st.

Definition withFinal (st : ParseVars) (answer : jsstring) : ParseVars :=
  mkVars (v_thought st) (v_action st) (v_actionInput st) answer.

(** The value assigned to [finalAnswer] when a "Final Answer:" line is met. *)
Definition finalText (text : jsstring) : jsstring :=
  trim (slice (indexOf FINAL_ANSWER text + 13) text).

(* ------------------------------------------------------------------------- *)
(** ** Scenarios: a scripted provider and two tools *)

Module Scenario.

(** The world is the list of replies the provider has yet to give. *)
Definition World := list jsstring.

Definition reply (t : jsstring) : ApiCallResult := mkApiResult t 0 0 0.

(** Replies in order; once the script is used up, a reply without markers. *)
Definition scripted (providerKey modelId systemPrompt : jsstring)
  (messages : list MultiTurnMessage) (apiKey : option jsstring) (maxTokens : Z)
  (w : World) : (JsThrown + ApiCallResult) * World :=
  match w with
  | [] => (inr (reply (lit "no markers here")), [])
  | r :: rest => (inr (reply r), rest)
  end.

(** A provider whose every call fails, by throwing an [Error] as the
    callers in src/providers.ts do on a response that is not ok. *)
Definition failing (providerKey modelId systemPrompt : jsstring)
  (messages : list MultiTurnMessage) (apiKey : option jsstring) (maxTokens : Z)
  (w : World) : (JsThrown + ApiCallResult) * World :=
  (inl (ThrownError (lit "Anthropic API 500: overloaded")), w).

Definition list_available_models : AgentTool World :=
  mkTool (lit "list_available_models") (lit "List all models.")
         (fun _ w => (inr (lit "{}"), w)).

Definition broken : AgentTool World :=
  mkTool (lit "broken") (lit "Always fails.")
         (fun _ w => (inl (ThrownError (lit "boom")), w)).

Definition env1 : Env :=
  fun k => if Js.eqb k (lit "ANTHROPIC_API_KEY") then Some (lit "sk-test") else None.

Definition noEnv : Env := fun _ => None.

Definition lines (ls : list jsstring) : jsstring := join [NL] ls.

Definition start (script : list jsstring) : Sys World := mkSys script [].

Definition HAIKU : jsstring := lit "Haiku 4.5 (Anthropic)".

(** Replies used in the checks below. *)
Definition both_markers : jsstring :=
  lines [lit "Thought: t"; lit "Action: list_available_models";
         lit "Action Input: x"; lit "Final Answer: done"].

Definition empty_answer : jsstring :=
  lines [lit "Action: list_available_models"; lit "Final Answer:"].

Definition inline_answer : jsstring :=
  lines [lit "Action: list_available_models"; lit "So the Final Answer: 42"].

Definition blank_answer_no_action : jsstring :=
  lines [lit "Thought: hm"; lit "Final Answer:   "].

Definition two_actions : jsstring :=
  lines [lit "Action: broken"; lit "Action: list_available_models";
         lit "Action Input: now"].

Definition frobnicate : jsstring :=
  lines [lit "Thought: try"; lit "Action: frobnicate"; lit "Action Input: 1"].

Definition call_broken : jsstring :=
  lines [lit "Thought: go"; lit "Action: broken"; lit "Action Input: 1"].

Definition late_answer : jsstring :=
  lines [lit "Thought: the Final Answer: is near"; lit "Action: run";
         lit "  Final Answer: 42 "; lit "Action: no"].

Definition multiline_input : jsstring :=
  lines [lit "Thought: t"; lit "Action: run"; lit "Action Input:  {";
         lit "  x: 1"; lit "}"; lit "Observation: y"; lit "more"].

Definition toolset : list (AgentTool World) := [list_available_models; broken].

Definition opts (budget : Z) : AgentOptions World :=
  mkOptions (lit "g") toolset None (Some budget).

Definition cfg : ProviderConfig :=
  mkProvider (lit "Anthropic")
    [mkModel (lit "claude-haiku-4-5-20251001") (lit "Haiku 4.5")]
    (lit "ANTHROPIC_API_KEY").

Definition model : ModelDef := mkModel (lit "claude-haiku-4-5-20251001") (lit "Haiku 4.5").

(** One pass of the loop body in the scripted world. *)
Definition iteration :=
  runAgent_iteration scripted toolset (lit "anthropic") (Some (lit "sk-test")) cfg model
    (buildAgentSystemPrompt toolset).

Definition loop :=
  runAgent_loop scripted toolset (lit "anthropic") (Some (lit "sk-test")) cfg model
    (buildAgentSystemPrompt toolset).

Definition seed : list MultiTurnMessage := [firstMessage (opts 8)].

End Scenario.

(* ------------------------------------------------------------------------- *)
(** ** The rest of src/providers.ts that does no input or output *)

(** An entry of [getAllModels]: a [ModelDef] (its two price fields left out
    as above; they are copied along unchanged) with its provider's key and
    name. *)
Record ListedModel := mkListed {
  lm_id : jsstring;
  lm_label : jsstring;
  lm_provider : jsstring;
  lm_providerName : jsstring
}.

(** [getAllModels(providerFilter?)]; an array, even an empty one, is truthy. *)
Definition getAllModels (providerFilter : option (list jsstring)) : list ListedModel :=
  flat_map
    (fun e =>
       let skipped :=
         match providerFilter with
         | Some f => negb (existsb (Js.eqb (fst e)) f)
         | None => false
         end in
       if skipped then []
       else List.map (fun m => mkListed (model_id m) (model_label m) (fst e)
                                 (cfg_name (snd e)))
                     (models (snd e)))
    PROVIDERS.

Section CallProvider.

Variable World : Type.

(** The three vendor callers do the network request; each is a parameter
    taking the model id, the prompt, the key and the token limit. *)
Variable callAnthropic callOpenAI callGemini :
  jsstring -> jsstring -> jsstring -> Z -> World -> (JsThrown + ApiCallResult) * World.

(** The [switch] of [callProvider]. *)
Definition callProvider (providerKey modelId prompt apiKey : jsstring) (maxTokens : Z)
  : World -> (JsThrown + ApiCallResult) * World :=
  if Js.eqb providerKey (lit "anthropic") then callAnthropic modelId prompt apiKey maxTokens
  else if Js.eqb providerKey (lit "openai") then callOpenAI modelId prompt apiKey maxTokens
  else if Js.eqb providerKey (lit "gemini") then callGemini modelId prompt apiKey maxTokens
  else fun w => (inl (ThrownError (lit "Unknown provider: " ++ providerKey)), w).

End CallProvider.

Arguments callProvider {World} callAnthropic callOpenAI callGemini.

(* ------------------------------------------------------------------------- *)
(** ** The tool factories of src/agent.ts *)

(** The code unit of the double quote. *)
Definition QUOTE : N := 34%N.

Section ToolFactories.

Variable World : Type.

(** The six [execute] closures call the network, [JSON] and floating-point
    arithmetic; they are parameters here. *)
Record ToolBodies := mkBodies {
  body_list_available_models : jsstring -> World -> (JsThrown + jsstring) * World;
  body_design_test_suite : jsstring -> World -> (JsThrown + jsstring) * World;
  body_run_single_test : jsstring -> World -> (JsThrown + jsstring) * World;
  body_compare_responses : jsstring -> World -> (JsThrown + jsstring) * World;
  body_compute_statistics : jsstring -> World -> (JsThrown + jsstring) * World;
  body_analyze_results : jsstring -> World -> (JsThrown + jsstring) * World
}.

Variable bodies : ToolBodies.

Definition createBenchmarkTools : list (AgentTool World) :=
  [ mkTool (lit "list_available_models")
      (lit "List all models and provider status with pricing. No input required.")
      (body_list_available_models bodies);
    mkTool (lit "design_test_suite")
      (lit "Design targeted benchmark prompts. Input: JSON {" ++ [QUOTE] ++ lit "focus"
       ++ [QUOTE] ++ lit ": " ++ [QUOTE] ++ lit "string" ++ [QUOTE] ++ lit ", "
       ++ [QUOTE] ++ lit "count" ++ [QUOTE] ++ lit ": number}.")
      (body_design_test_suite bodies);
    mkTool (lit "run_single_test")
      (lit "Run a prompt against a model. Input: JSON {" ++ [QUOTE] ++ lit "model"
       ++ [QUOTE] ++ lit ": " ++ [QUOTE] ++ lit "name" ++ [QUOTE] ++ lit ", "
       ++ [QUOTE] ++ lit "prompt" ++ [QUOTE] ++ lit ": " ++ [QUOTE] ++ lit "text"
       ++ [QUOTE] ++ lit "}.")
      (body_run_single_test bodies);
    mkTool (lit "compare_responses")
      (lit "Compare model responses for quality. Input: JSON with responses array.")
      (body_compare_responses bodies);
    mkTool (lit "compute_statistics")
      (lit "Compute stats (mean, p50, p95, min, max) on numeric data. Input: JSON array of numbers.")
      (body_compute_statistics bodies);
    mkTool (lit "analyze_results")
      (lit "Analyze benchmark results with LLM. Input: JSON benchmark data.")
      (body_analyze_results bodies) ].

Definition COMPARE_NAMES : list jsstring :=
  [ lit "list_available_models"; lit "run_single_test"; lit "compare_responses";
    lit "compute_statistics"; lit "analyze_results" ].

(** [names.map((n) => all.find((t) => t.name === n)!)]: the [!] does
    nothing when the program runs, so an entry is a tool or [undefined]. *)
Definition createCompareTools : list (option (AgentTool World)) :=
  let all := createBenchmarkTools in
  List.map (fun n => find (fun t => Js.eqb (name t) n) all) COMPARE_NAMES.

(** The array when none of its entries is [undefined]. *)
Fixpoint allDefined {A} (xs : list (option A)) : option (list A) :=
  match xs with
  | [] => Some []
  | None :: _ => None
  | Some x :: rest => option_map (cons x) (allDefined rest)
  end.

End ToolFactories.

Arguments mkBodies {World}.
Arguments createBenchmarkTools {World} bodies.
Arguments createCompareTools {World} bodies.

(* ------------------------------------------------------------------------- *)
(** ** The command line around the agent (the index file of the agent CLI) *)

(** [s.slice(start, end)]. *)
Definition sliceRange (start stop : Z) (s : jsstring) : jsstring :=
  let len := Z.of_nat (List.length s) in
  let clamp := fun k => if (k <? 0)%Z then Z.max (len + k) 0 else Z.min k len in
  firstn (Z.to_nat (clamp stop - clamp start)) (skipn (Z.to_nat (clamp start)) s).

(** *** [`${n}`] for a number that holds an integer

    A JavaScript number is a binary64 float.  Number::toString (ECMA-262,
    6.1.6.1.20) prints the decimal numeral with the fewest significant
    digits that reads back as the same float, the closest to it when there
    are several: as plain digits when it has at most 21 of them, in
    exponent notation from 1e21 on. *)

(** The decimal digits of a non-negative integer. *)
Definition digitsOf (n : Z) : jsstring :=
  lit (NilZero.string_of_uint (N.to_uint (Z.to_N n))).

(** The float nearest to the integer [a >= 0], a tie going to the even
    significand; [None] is [Infinity].  Every integer below 2^53 is a float:
    from there on a float is a 53-bit significand times a power of two. *)
Definition toNumber (a : Z) : option Z :=
  if (a <? 2 ^ 53)%Z then Some a
  else
    let shift := (Z.log2 a - 52)%Z in
    let q := Z.shiftr a shift in
    let r := (a - Z.shiftl q shift)%Z in
    let half := Z.shiftl 1 (shift - 1) in
    let q' := if (half <? r)%Z || ((half =? r)%Z && Z.odd q) then (q + 1)%Z else q in
    let v := Z.shiftl q' shift in
    if (v <? 2 ^ 1024)%Z then Some v else None.

(** Whether the integer [c] reads back as the float whose rounding interval
    is from [lo4 / 4] to [hi4 / 4]; the ends belong to it when the
    significand of the float is even. *)
Definition readsBack (lo4 hi4 : Z) (even : bool) (c : Z) : bool :=
  ((lo4 <? 4 * c) && (4 * c <? hi4) || even && ((4 * c =? lo4) || (4 * c =? hi4)))%Z.

(** The search for [k] significant digits, [k = 1, 2, ...]: the two
    numerals of [k] digits (followed by zeros) around [v], of which one
    that reads back as [v] is taken, the closer one if both do, the one with
    the even last digit if they are as close. *)
Fixpoint shortestFrom (fuel : nat) (k : Z) (v lo4 hi4 : Z) (even : bool) (len : Z) : Z :=
  match fuel with
  | O => v
  | S fuel' =>
      let p := (len - k)%Z in
      if (p <=? 0)%Z then v
      else
        let scale := (10 ^ p)%Z in
        let s := (v / scale)%Z in
        let below := (s * scale)%Z in
        let above := (below + scale)%Z in
        match readsBack lo4 hi4 even below, readsBack lo4 hi4 even above with
        | true, true =>
            if (v - below <? above - v)%Z then below
            else if (above - v <? v - below)%Z then above
            else if Z.even s then below else above
        | true, false => below
        | false, true => above
        | false, false => shortestFrom fuel' (k + 1)%Z v lo4 hi4 even len
        end
  end.

(** The integer that is printed for the float [v >= 0]: [v] itself below
    2^53; above, with [v = m * 2^e] and [2^52 <= m < 2^53], the floats next
    to [v] are [2^e] away ([2^(e-1)] below a power of two) and every
    integer less than half of that from [v] reads back as [v]; 17 digits
    always suffice. *)
Definition shortestDecimal (v : Z) : Z :=
  if (v <? 2 ^ 53)%Z then v
  else
    let e := (Z.log2 v - 52)%Z in
    let m := Z.shiftr v e in
    let lo4 := (4 * v - (if (m =? 2 ^ 52)%Z then 2 ^ e else 2 ^ (e + 1)))%Z in
    let hi4 := (4 * v + 2 ^ (e + 1))%Z in
    shortestFrom 17 1 v lo4 hi4 (Z.even m) (Z.of_nat (List.length (digitsOf v))).

Fixpoint dropZeros (s : jsstring) : jsstring :=
  match s with
  | [] => []
  | c :: r => if (c =? 48)%N then dropZeros r else s
  end.

(** The numeral of the integer [c >= 0]: its digits below 10^21, else
    [d.ddde+x] (or [de+x]) with the zeros at the end of the digits left
    out. *)
Definition showDecimal (c : Z) : jsstring :=
  if (c <? 10 ^ 21)%Z then digitsOf c
  else
    let ds := digitsOf c in
    let e := (Z.of_nat (List.length ds) - 1)%Z in
    match rev (dropZeros (rev ds)) with
    | [] => ds
    | [d] => [d] ++ lit "e+" ++ digitsOf e
    | d :: more => [d] ++ lit "." ++ more ++ lit "e+" ++ digitsOf e
    end.

(** [`${n}`] for the number that holds the integer [n]: the float nearest
    to [n], which is [n] itself whenever [|n| <= 2^53]. *)
Definition ofZ (n : Z) : jsstring :=
  if (n =? 0)%Z then lit "0"
  else (if (n <? 0)%Z then lit "-" else [])
       ++ match toNumber (Z.abs n) with
          | Some v => showDecimal (shortestDecimal v)
          | None => lit "Infinity"
          end.

(** [xs.indexOf(x)] on an array of strings. *)
Fixpoint arrayIndexOfFrom (x : jsstring) (xs : list jsstring) (pos : Z) : Z :=
  match xs with
  | [] => (-1)%Z
  | y :: rest => if Js.eqb y x then pos else arrayIndexOfFrom x rest (pos + 1)%Z
  end.

Definition arrayIndexOf (xs : list jsstring) (x : jsstring) : Z :=
  arrayIndexOfFrom x xs 0%Z.

(** [xs[k]]: [undefined] outside the array. *)
Definition arrayAt (xs : list jsstring) (k : Z) : option jsstring :=
  if (k <? 0)%Z then None else nth_error xs (Z.to_nat k).

Definition getArg (args : list jsstring) (flag : jsstring) : option jsstring :=
  let idx := arrayIndexOf args flag in
  if negb (idx =? -1)%Z && truthy (arrayAt args (idx + 1)) then arrayAt args (idx + 1)
  else None.

Definition RULE : jsstring := lit "  " ++ repeat 61%N 50.

(** The text shown for an observation in the trace. *)
Definition preview (observation : jsstring) : jsstring :=
  if (300 <? Z.of_nat (List.length observation))%Z
  then sliceRange 0 300 observation ++ lit "..."
  else observation.

(** The four lines pushed for the step at index [i]. *)
Definition stepLines (i : nat) (step : AgentStep) : list jsstring :=
  [ lit "  Step " ++ ofNat (i + 1) ++ lit ": [" ++ step_action step ++ lit "]";
    lit "    Thought: " ++ step_thought step;
    lit "    Result: " ++ preview (step_observation step);
    [] ].

(** The loop [for (let i = 0; i < result.steps.length; i++)], from [i] on. *)
Fixpoint traceLines (i : nat) (steps : list AgentStep) : list jsstring :=
  match steps with
  | [] => []
  | step :: rest => stepLines i step ++ traceLines (S i) rest
  end.

Definition formatLines (result : AgentResult) : list jsstring :=
  (match steps result with
   | [] => []
   | _ :: _ =>
       [ [NL] ++ lit "  Agent Trace (" ++ ofZ (totalSteps result) ++ lit " steps):"; RULE ]
       ++ traceLines 0 (steps result)
   end)
  ++ [ lit "  Final Answer:"; RULE; res_finalAnswer result; [NL] ++ lit "  ---";
       lit "  Agent: " ++ ofZ (totalSteps result) ++ lit " steps | Provider: "
       ++ provider result ].

Definition formatAgentResult (result : AgentResult) : jsstring :=
  join [NL] (formatLines result).

(** The positional arguments of [compare]: the loop from [i = 1], given
    [args[1..]]; a flag takes the argument after it along. *)
Fixpoint collectModelArgs (rest : list jsstring) : list jsstring :=
  match rest with
  | [] => []
  | a :: more =>
      if startsWith (lit "--") a then
        match more with
        | [] => []
        | _ :: more' => collectModelArgs more'
        end
      else a :: collectModelArgs more
  end.

Definition VERSION : jsstring := lit "3.0.0".

Definition COMPARE_BANNER : jsstring :=
  lit "claude-model-benchmark v" ++ VERSION ++ lit " -- Agent Comparison" ++ [NL].

Definition COMPARE_USAGE : jsstring :=
  lit "Need at least 2 models to compare." ++ [NL]
  ++ lit "Usage: claude-model-benchmark compare <model1> <model2>".

Definition compareGoal (modelArgs : list jsstring) (customPrompt : option jsstring)
  : jsstring :=
  let promptCtx :=
    if truthy customPrompt
    then lit " Use this test prompt: " ++ [QUOTE] ++ orEmpty customPrompt ++ [QUOTE]
    else [] in
  lit "Compare these models side by side: " ++ join (lit ", ") modelArgs
  ++ lit ". Run tests on each, compute statistics, compare response quality, and recommend a winner."
  ++ promptCtx.

(** What the console was given, call by call. *)
Inductive ConsoleCall :=
| ConsoleLog (line : jsstring)
| ConsoleError (line : jsstring).

(** How a command ends: it returns, the process exits with a code, or its
    promise is rejected. *)
Inductive CommandEnd :=
| Returned
| Exited (code : Z)
| Rejected (e : JsThrown).

Section Commands.

Variable World : Type.
Variable completionOracle :
  jsstring -> jsstring -> jsstring -> list MultiTurnMessage -> option jsstring -> Z ->
  World -> (JsThrown + ApiCallResult) * World.
Variable bodies : ToolBodies World.

(** [cmdCompare(args)]: the end of the command, the world and the call log
    after it, and what it wrote to the console. *)
Definition cmdCompare (env : Env) (args : list jsstring) (s : Sys World)
  : CommandEnd * Sys World * list ConsoleCall :=
  let console := [ConsoleLog COMPARE_BANNER] in
  let modelArgs := collectModelArgs (tl args) in
  if (Z.of_nat (List.length modelArgs) <? 2)%Z then
    (Exited 1, s, console ++ [ConsoleError COMPARE_USAGE])
  else
    let customPrompt := getArg args (lit "--prompt") in
    match allDefined (createCompareTools bodies) with
    | None =>
        (* an [undefined] tool: [runAgent] reads its [name] right after the
           provider check; does not happen, see [createCompareTools_defined] *)
        (Rejected (match getAvailableProviders None env with
                   | [] => ThrownError NO_PROVIDER_MESSAGE
                   | _ :: _ => TYPE_ERROR
                   end), s, console)
    | Some tools =>
        match runAgent completionOracle env
                (mkOptions (compareGoal modelArgs customPrompt) tools None None) s with
        | (Normal result, s') =>
            (Returned, s', console ++ [ConsoleLog (formatAgentResult result)])
        | (Abrupt e, s') => (Rejected e, s', console)
        end
    end.

End Commands.

Arguments cmdCompare {World} completionOracle bodies env args s.

(* ------------------------------------------------------------------------- *)
(** ** Notions used in the statements about runs and replies *)

(** The transcripts handed to the provider, in the order of the calls. *)
Fixpoint callsOf (evs : list Event) : list (list MultiTurnMessage) :=
  match evs with
  | [] => []
  | CompletionCall msgs :: rest => msgs :: callsOf rest
  | ToolExecute _ _ :: rest => callsOf rest
  end.

(** The tool runs, in order. *)
Fixpoint toolRunsOf (evs : list Event) : list (jsstring * jsstring) :=
  match evs with
  | [] => []
  | CompletionCall _ :: rest => toolRunsOf rest
  | ToolExecute t input :: rest => (t, input) :: toolRunsOf rest
  end.

Definition isRegistered {World} (tools : list (AgentTool World)) (act : jsstring) : bool :=
  existsb (fun t => Js.eqb (name t) act) tools.

(** The action and input of the steps whose action names a tool. *)
Definition registeredSteps {World} (tools : list (AgentTool World))
  (steps : list AgentStep) : list (jsstring * jsstring) :=
  List.map (fun st => (step_action st, step_actionInput st))
           (filter (fun st => isRegistered tools (step_action st)) steps).

(** Each transcript is the one before it followed by one assistant reply
    and one user message. *)
Fixpoint callsGrow (prev : list MultiTurnMessage) (calls : list (list MultiTurnMessage))
  : Prop :=
  match calls with
  | [] => True
  | c :: rest =>
      (exists reply feedback,
          c = prev ++ [mkMsg assistant reply; mkMsg user feedback])
      /\ callsGrow c rest
  end.

Definition callsFrom (first : list MultiTurnMessage)
  (calls : list (list MultiTurnMessage)) : Prop :=
  match calls with
  | [] => True
  | c :: rest => c = first /\ callsGrow first rest
  end.

Definition noNewline (s : jsstring) : bool := forallb (fun c => negb (N.eqb c NL)) s.

Definition isBlank (s : jsstring) : bool := forallb isWhiteSpace s.

(** The locals of the parser hold trimmed strings. *)
Definition trimmedVars (st : ParseVars) : Prop :=
  trim (v_thought st) = v_thought st /\ trim (v_action st) = v_action st
  /\ trim (v_actionInput st) = v_actionInput st
  /\ trim (v_finalAnswer st) = v_finalAnswer st.

(** A line that the outer loop of the parser acts on. *)
Definition isMarkerLine (l : jsstring) : bool :=
  isThoughtLine l || isActionLine l || isActionInputLine l || isFinalLine l.

(** Replies in the two formats that the system prompt asks for, with the
    input given line by line. *)
Definition toolCallReply (t a i0 : jsstring) (more : list jsstring) : jsstring :=
  join [NL] ((lit "Thought: " ++ t) :: (lit "Action: " ++ a)
             :: (lit "Action Input: " ++ i0) :: more).

Definition finalReply (t f : jsstring) : jsstring :=
  lit "Thought: " ++ t ++ [NL] ++ lit "Final Answer: " ++ f.

(* ------------------------------------------------------------------------- *)
(** ** Further cases: a run of three replies, a vendor, tool bodies *)

Module Cases.

(** A tool that throws, an unknown tool, then the answer. *)
Definition script : list jsstring :=
  [Scenario.call_broken; Scenario.frobnicate; Scenario.both_markers].

Definition outcome : Outcome RunReport * Sys Scenario.World :=
  runAgent_traced Scenario.scripted Scenario.env1 (Scenario.opts 5)
    (Scenario.start script).

Definition report : RunReport :=
  match fst outcome with
  | Normal r => r
  | Abrupt _ => mkReport (mkResult [] [] 0 []) [] BudgetExhausted
  end.

Definition final : Sys Scenario.World := snd outcome.

(** A vendor caller that echoes the prompt. *)
Definition vendor (modelId prompt apiKey : jsstring) (maxTokens : Z) (w : unit)
  : (JsThrown + ApiCallResult) * unit :=
  (inr (Scenario.reply prompt), w).

Definition haiku : ListedModel :=
  mkListed (lit "claude-haiku-4-5-20251001") (lit "Haiku 4.5") (lit "anthropic")
    (lit "Anthropic").

(** Tool bodies that all answer "{}". *)
Definition bodies : ToolBodies Scenario.World :=
  mkBodies (fun _ w => (inr (lit "{}"), w)) (fun _ w => (inr (lit "{}"), w))
           (fun _ w => (inr (lit "{}"), w)) (fun _ w => (inr (lit "{}"), w))
           (fun _ w => (inr (lit "{}"), w)) (fun _ w => (inr (lit "{}"), w)).

Definition two_thoughts : jsstring :=
  Scenario.lines [lit "Thought: a"; lit "  Thought: b "; lit "Action: x"].

Definition compare_args : list jsstring :=
  [lit "compare"; lit "haiku"; lit "--prompt"; lit "hi"; lit "gpt-4o"].

Definition compare_reply : jsstring :=
  Scenario.lines [lit "Thought: ok"; lit "Action: design_test_suite";
                  lit "Action Input: {}"].

(** An input of three lines, with blanks at the end of its first line. *)
Definition block_reply : jsstring :=
  Scenario.lines [lit "Thought: t"; lit "Action: run"; lit "Action Input:  {  ";
                  lit "  x: 1"; lit "}"; lit "Observation: y"; lit "more"].

End Cases.

(* ------------------------------------------------------------------------- *)
(** ** Checks on concrete replies and runs *)

Example parse_tool_call :
  parseAgentResponse
    (Scenario.lines [lit "Thought: ok"; lit "Action: list_available_models";
                     lit "Action Input:"])
  = mkParsed (lit "ok") (Some (lit "list_available_models")) None None.
Proof. reflexivity. Qed.

Example parse_final :
  parseAgentResponse (Scenario.lines [lit "Thought: done"; lit "Final Answer: done"])
  = mkParsed (lit "done") None None (Some (lit "done")).
Proof. reflexivity. Qed.

Example parse_multiline_input :
  parseAgentResponse
    (Scenario.lines [lit "Action: run"; lit "Action Input: {"; lit "  x"; lit "}";
                     lit "Observation: no"])
  = mkParsed [] (Some (lit "run"))
      (Some (Scenario.lines [lit "{"; lit "  x"; lit "}"])) None.
Proof. reflexivity. Qed.

(** The first scenario of the specification: one tool call, then the answer. *)
Example run_list_models :
  runAgent Scenario.scripted Scenario.env1
    (mkOptions (lit "List models") [Scenario.list_available_models] None None)
    (Scenario.start
       [Scenario.lines [lit "Thought: ok"; lit "Action: list_available_models";
                        lit "Action Input:"];
        Scenario.lines [lit "Thought: done"; lit "Final Answer: done"]])
  = (Normal (mkResult
               [mkStep (lit "ok") (lit "list_available_models") [] (lit "{}")]
               (lit "done") 2 Scenario.HAIKU),
     mkSys []
       [CompletionCall
          [mkMsg user (lit "Goal: List models" ++ [NL; NL] ++ lit "Begin.")];
        ToolExecute (lit "list_available_models") [];
        CompletionCall
          [mkMsg user (lit "Goal: List models" ++ [NL; NL] ++ lit "Begin.");
           mkMsg assistant
             (Scenario.lines [lit "Thought: ok"; lit "Action: list_available_models";
                              lit "Action Input:"]);
           mkMsg user (lit "Observation: {}" ++ [NL; NL] ++ lit "Continue.")]]).
Proof. vm_compute. reflexivity. Qed.

(** The second scenario: no markers for three turns. *)
Example run_no_markers :
  fst (runAgent Scenario.scripted Scenario.env1
         (mkOptions (lit "g") [Scenario.list_available_models] None (Some 3%Z))
         (Scenario.start []))
  = Normal (mkResult [] NO_TOOLS_MESSAGE 3 Scenario.HAIKU)
  /\ includes (lit "maximum steps") NO_TOOLS_MESSAGE = true.
Proof. split; vm_compute; reflexivity. Qed.

(* ------------------------------------------------------------------------- *)
(** ** Facts about the string primitives *)

Lemma startsWith_split p : forall s,
  startsWith p s = true -> s = p ++ skipn (List.length p) s.
Proof.
  induction p as [|c p IH]; intros s H; [reflexivity|].
  destruct s as [|d s]; [discriminate|].
  cbn in H. apply andb_true_iff in H as [Hc Hp].
  apply N.eqb_eq in Hc. subst d. cbn. f_equal. now apply IH.
Qed.

Lemma startsWith_app p : forall r, startsWith p (p ++ r) = true.
Proof.
  induction p as [|c p IH]; intros r; [reflexivity|].
  cbn. now rewrite N.eqb_refl, IH.
Qed.

Lemma trimStart_suffix s : exists ws, s = ws ++ trimStart s.
Proof.
  induction s as [|c s [ws IH]]; [now exists []|].
  cbn. destruct (isWhiteSpace c).
  - exists (c :: ws). cbn. now f_equal.
  - now exists [].
Qed.

Lemma trimEnd_prefix s : exists ws, s = trimEnd s ++ ws.
Proof.
  unfold trimEnd. destruct (trimStart_suffix (rev s)) as [ws H].
  exists (rev ws). rewrite <- rev_app_distr, <- H. now rewrite rev_involutive.
Qed.

Lemma trim_inside s : exists a b, s = a ++ trim s ++ b.
Proof.
  destruct (trimStart_suffix s) as [a Ha].
  destruct (trimEnd_prefix (trimStart s)) as [b Hb].
  exists a, b. unfold trim. now rewrite <- Hb.
Qed.

Lemma splitLines_cons s : exists l ls, splitLines s = l :: ls.
Proof.
  destruct s as [|c s]; cbn; [now eexists _, _|].
  destruct (N.eqb c NL); [now eexists _, _|].
  destruct (splitLines s); now eexists _, _.
Qed.

Lemma join_cons sep x y ys : join sep (x :: y :: ys) = x ++ sep ++ join sep (y :: ys).
Proof. reflexivity. Qed.

Lemma join_splitLines s : join [NL] (splitLines s) = s.
Proof.
  induction s as [|c s IH]; [reflexivity|].
  cbn [splitLines]. destruct (N.eqb c NL) eqn:E.
  - apply N.eqb_eq in E. subst c.
    destruct (splitLines_cons s) as (l & ls & Hs). rewrite Hs in *.
    rewrite join_cons, IH. reflexivity.
  - destruct (splitLines_cons s) as (l & ls & Hs). rewrite Hs in *.
    destruct ls as [|y ys].
    + cbn in *. now rewrite IH.
    + rewrite join_cons. rewrite join_cons in IH. now rewrite <- IH.
Qed.

Lemma join_inside sep l : forall ls,
  In l ls -> exists a b, join sep ls = a ++ l ++ b.
Proof.
  induction ls as [|x ls IH]; intros H; [contradiction|].
  destruct ls as [|y ys].
  - destruct H as [->|[]]. exists [], []. cbn. now rewrite app_nil_r.
  - rewrite join_cons. destruct H as [->|H].
    + exists [], (sep ++ join sep (y :: ys)). reflexivity.
    + destruct (IH H) as (a & b & E). rewrite E.
      exists (x ++ sep ++ a), b. now rewrite <- !app_assoc.
Qed.

(** A line of [text] that begins, trimmed, with [p] makes [p] occur in
    [text]. *)
Lemma marker_line_occurs p text l :
  In l (splitLines text) -> startsWith p (trim l) = true ->
  exists a b, text = a ++ p ++ b.
Proof.
  intros Hin Hp.
  destruct (join_inside [NL] l _ Hin) as (a & b & E).
  rewrite join_splitLines in E.
  destruct (trim_inside l) as (a' & b' & El).
  apply startsWith_split in Hp.
  exists (a ++ a'), (skipn (List.length p) (trim l) ++ b' ++ b).
  rewrite E, El at 1. rewrite Hp at 1. now rewrite <- !app_assoc.
Qed.

Lemma afterFirst_occurs needle : forall a b,
  exists rest, afterFirst needle (a ++ needle ++ b) = Some rest.
Proof.
  induction a as [|c a IH]; intros b.
  - cbn [app]. destruct (needle ++ b) eqn:E; cbn [afterFirst];
      rewrite <- ?E, startsWith_app; eauto.
  - cbn [app afterFirst]. destruct (startsWith needle (c :: a ++ needle ++ b)); eauto.
Qed.

Lemma indexOfFrom_afterFirst needle : forall s pos rest,
  afterFirst needle s = Some rest ->
  exists k, indexOfFrom needle s pos = (pos + Z.of_nat k)%Z
            /\ k + List.length needle <= List.length s
            /\ skipn (k + List.length needle) s = rest.
Proof.
  induction s as [|c s IH]; intros pos rest H.
  - cbn in *. destruct (startsWith needle []) eqn:E; [|discriminate].
    injection H as <-. exists 0. rewrite Z.add_0_r. repeat split; auto.
    apply startsWith_split in E. apply (f_equal (@List.length N)) in E.
    rewrite length_app in E. cbn in *. lia.
  - cbn [afterFirst indexOfFrom] in *.
    destruct (startsWith needle (c :: s)) eqn:E.
    + injection H as <-. exists 0. rewrite Z.add_0_r. repeat split; auto.
      apply startsWith_split in E. apply (f_equal (@List.length N)) in E.
      rewrite length_app in E. lia.
    + destruct (IH (pos + 1)%Z rest H) as (k & Hk & Hlen & Hrest).
      exists (S k). rewrite Hk. repeat split; cbn; auto; lia.
Qed.

(** [text.slice(text.indexOf(needle) + needle.length)] is what follows the
    first occurrence of the needle. *)
Lemma slice_indexOf_afterFirst needle text rest :
  afterFirst needle text = Some rest ->
  slice (indexOf needle text + Z.of_nat (List.length needle)) text = rest.
Proof.
  intros H. unfold indexOf.
  destruct (indexOfFrom_afterFirst needle text 0%Z rest H) as (k & -> & Hlen & <-).
  unfold slice.
  replace (0 + Z.of_nat k + Z.of_nat (List.length needle) <? 0)%Z with false
    by (symmetry; apply Z.ltb_ge; lia).
  f_equal. lia.
Qed.

Lemma afterFirst_None_indexOf needle : forall s pos,
  afterFirst needle s = None -> indexOfFrom needle s pos = (-1)%Z.
Proof.
  induction s as [|c s IH]; intros pos H; cbn in *;
    destruct (startsWith needle _); try discriminate; auto.
Qed.

(* ------------------------------------------------------------------------- *)
(** ** The structure of the parser's outer loop *)

Ltac marker_split H :=
  apply startsWith_split in H;
  match type of H with
  | ?t = _ ++ ?r => set (tail := r) in H; clearbody tail; subst t
  end.

Lemma final_excludes t :
  startsWith FINAL_ANSWER t = true ->
  startsWith THOUGHT t = false /\ startsWith ACTION t = false
  /\ startsWith ACTION_INPUT t = false.
Proof. intros H. marker_split H. repeat split; reflexivity. Qed.

Lemma action_input_excludes t :
  startsWith ACTION_INPUT t = true ->
  startsWith THOUGHT t = false /\ startsWith ACTION t = false
  /\ startsWith FINAL_ANSWER t = false.
Proof. intros H. marker_split H. repeat split; reflexivity. Qed.

Lemma action_excludes t :
  startsWith ACTION t = true ->
  startsWith THOUGHT t = false /\ startsWith ACTION_INPUT t = false
  /\ startsWith FINAL_ANSWER t = false.
Proof. intros H. marker_split H. repeat split; reflexivity. Qed.

Lemma scan_final_line text l rest st :
  isFinalLine l = true ->
  scanLines text (l :: rest) st = withFinal st (finalText text).
Proof.
  unfold isFinalLine. intros H. cbn [scanLines].
  destruct (final_excludes _ H) as (-> & -> & ->). cbn [andb]. now rewrite H.
Qed.

Lemma scan_other_line text l rest st :
  isFinalLine l = false ->
  scanLines text (l :: rest) st = scanLines text rest (updateVars l rest st).
Proof.
  unfold isFinalLine, updateVars, isThoughtLine, isActionLine, isActionInputLine.
  intros H. cbn [scanLines].
  destruct (startsWith THOUGHT (trim l)); [reflexivity|].
  destruct (startsWith ACTION (trim l) && negb (startsWith ACTION_INPUT (trim l)));
    [reflexivity|].
  destruct (startsWith ACTION_INPUT (trim l)); [reflexivity|].
  now rewrite H.
Qed.

Lemma final_line_stops l : isFinalLine l = true -> stopsCapture (trim l) = true.
Proof.
  unfold isFinalLine, stopsCapture. intros ->. now rewrite !orb_true_r.
Qed.

(** The capture never runs past a "Final Answer:" line. *)
Lemma capture_beforeFinal ls : captureLines (beforeFinal ls) = captureLines ls.
Proof.
  induction ls as [|l ls IH]; [reflexivity|]. cbn [beforeFinal captureLines].
  destruct (isFinalLine l) eqn:E.
  - now rewrite (final_line_stops _ E).
  - cbn [captureLines]. now rewrite IH.
Qed.

Lemma updateVars_beforeFinal l rest st :
  updateVars l (beforeFinal rest) st = updateVars l rest st.
Proof. unfold updateVars. now rewrite capture_beforeFinal. Qed.

Lemma beforeFinal_no_final ls : existsb isFinalLine (beforeFinal ls) = false.
Proof.
  induction ls as [|l ls IH]; [reflexivity|]. cbn [beforeFinal].
  destruct (isFinalLine l) eqn:E; [reflexivity|]. cbn [existsb]. now rewrite E.
Qed.

Lemma beforeFinal_id ls : existsb isFinalLine ls = false -> beforeFinal ls = ls.
Proof.
  induction ls as [|l ls IH]; [reflexivity|]. cbn [existsb beforeFinal].
  destruct (isFinalLine l); [discriminate|]. cbn [orb]. intros H. now rewrite IH.
Qed.

(** The outer loop is the fold of [updateVars] over the lines before the
    first "Final Answer:" line, followed by the assignment of the answer
    when there is such a line: nothing after that line is looked at. *)
Lemma scan_stops_at_final text : forall ls st,
  scanLines text ls st =
  let st' := scanLines [] (beforeFinal ls) st in
  if existsb isFinalLine ls then withFinal st' (finalText text) else st'.
Proof.
  induction ls as [|l ls IH]; intros st; [reflexivity|].
  cbn [beforeFinal existsb]. destruct (isFinalLine l) eqn:E.
  - now rewrite scan_final_line.
  - rewrite !scan_other_line by assumption.
    rewrite IH, updateVars_beforeFinal. reflexivity.
Qed.

Lemma scan_keeps_final text : forall ls st,
  existsb isFinalLine ls = false ->
  v_finalAnswer (scanLines text ls st) = v_finalAnswer st.
Proof.
  induction ls as [|l ls IH]; intros st H; [reflexivity|].
  cbn [existsb] in H. apply orb_false_iff in H as [E H].
  rewrite scan_other_line, IH by assumption.
  unfold updateVars.
  destruct (isThoughtLine l), (isActionLine l), (isActionInputLine l); reflexivity.
Qed.

(** The parser's [finalAnswer] local: set exactly when some line begins,
    trimmed, with the marker. *)
Lemma parseVars_finalAnswer text :
  v_finalAnswer (parseVars text) =
  if existsb isFinalLine (splitLines text) then finalText text else [].
Proof.
  unfold parseVars. rewrite scan_stops_at_final. cbn zeta.
  destruct (existsb isFinalLine (splitLines text)); cbn.
  - reflexivity.
  - now rewrite scan_keeps_final by apply beforeFinal_no_final.
Qed.

Lemma final_line_afterFirst text :
  existsb isFinalLine (splitLines text) = true ->
  exists rest, afterFirst FINAL_ANSWER text = Some rest.
Proof.
  intros H. apply existsb_exists in H as (l & Hin & Hl).
  destruct (marker_line_occurs _ _ _ Hin Hl) as (a & b & ->).
  apply afterFirst_occurs.
Qed.

Lemma finalText_afterFirst text rest :
  afterFirst FINAL_ANSWER text = Some rest -> finalText text = trim rest.
Proof.
  intros H. unfold finalText.
  now rewrite <- (slice_indexOf_afterFirst _ _ _ H).
Qed.

Lemma truthy_orUndefined s : truthy (orUndefined s) = negb (Js.eqb s []).
Proof. now destruct s. Qed.

Lemma orEmpty_orUndefined s : orEmpty (orUndefined s) = s.
Proof. now destruct s. Qed.

Lemma orUndefined_None s : orUndefined s = None <-> s = [].
Proof. destruct s; cbn; split; congruence. Qed.

Lemma jseqb_eq s : forall t, Js.eqb s t = true <-> s = t.
Proof.
  induction s as [|c s IH]; intros [|d t]; cbn; split; try congruence; try discriminate.
  - intros H. apply andb_true_iff in H as [Hc Hs].
    apply N.eqb_eq in Hc. apply IH in Hs. congruence.
  - intros [= -> ->]. rewrite N.eqb_refl. now apply IH.
Qed.

Lemma startsWith_includes p s : startsWith p s = true -> includes p s = true.
Proof.
  intros H. unfold includes, indexOf.
  destruct s; cbn [indexOfFrom]; now rewrite H.
Qed.

(** Every provider that can be selected has a catalog entry with a first
    model: the two reads of [undefined] in [runAgent] cannot happen. *)
Lemma runAgent_catalog_total env key others :
  getAvailableProviders None env = key :: others ->
  exists cfg model ms, lookupProvider key = Some cfg /\ models cfg = model :: ms.
Proof.
  unfold getAvailableProviders, PROVIDERS.
  cbn [filter List.map fst snd envKey explicitKey truthy].
  destruct (truthy (env (lit "ANTHROPIC_API_KEY")));
    destruct (truthy (env (lit "OPENAI_API_KEY")));
    destruct (truthy (env (lit "GEMINI_API_KEY")));
    cbn [List.map fst]; intros [= <- <-]; vm_compute; eauto.
Qed.

(* ------------------------------------------------------------------------- *)
(** ** The loop body, case by case *)

Section EngineFacts.

Variable World : Type.
Variable oracle :
  jsstring -> jsstring -> jsstring -> list MultiTurnMessage -> option jsstring -> Z ->
  World -> (JsThrown + ApiCallResult) * World.

Variable tools : list (AgentTool World).
Variable agentProviderKey : jsstring.
Variable agentApiKey : option jsstring.
Variable providerCfg : ProviderConfig.
Variable agentModel : ModelDef.
Variable systemPrompt : jsstring.

Local Abbreviation iteration :=
  (runAgent_iteration oracle tools agentProviderKey agentApiKey providerCfg
     agentModel systemPrompt).
Local Abbreviation loop :=
  (runAgent_loop oracle tools agentProviderKey agentApiKey providerCfg
     agentModel systemPrompt).
Local Abbreviation ask messages w :=
  (oracle agentProviderKey (model_id agentModel) systemPrompt messages agentApiKey
     2048%Z w).

Lemma dispatch_unknown act input s :
  find (fun t => Js.eqb (name t) act) tools = None ->
  dispatch tools act input s = (Normal (unknownTool tools act), s).
Proof. unfold dispatch, tryCatch. now intros ->. Qed.

Lemma dispatch_found act input s t :
  find (fun t => Js.eqb (name t) act) tools = Some t ->
  dispatch tools act input s =
  let '(r, w) := execute t (orEmpty input) (world s) in
  (Normal (match r with
           | inr v => v
           | inl e => lit "Tool error: " ++ thrownText e
           end),
   mkSys w (events s ++ [ToolExecute (name t) (orEmpty input)])).
Proof.
  unfold dispatch, tryCatch, executeTool. intros ->.
  destruct (execute t (orEmpty input) (world s)) as [[e|v] w]; reflexivity.
Qed.

(** Dispatch never throws, and runs at most one tool. *)
Lemma dispatch_normal act input s :
  exists obs s',
    dispatch tools act input s = (Normal obs, s')
    /\ (events s' = events s
        \/ exists t, find (fun t => Js.eqb (name t) act) tools = Some t
                     /\ events s' = events s ++ [ToolExecute (name t) (orEmpty input)]).
Proof.
  destruct (find (fun t => Js.eqb (name t) act) tools) as [t|] eqn:F.
  - rewrite (dispatch_found _ _ _ _ F).
    destruct (execute t (orEmpty input) (world s)) as [r w].
    eexists _, _. split; [reflexivity|]. right. now exists t.
  - rewrite (dispatch_unknown _ _ _ F). eexists _, _. split; [reflexivity|]. now left.
Qed.

Lemma iteration_provider_throws i messages steps s e w :
  ask messages (world s) = (inl e, w) ->
  iteration i messages steps s = (Abrupt e, afterCall s messages w).
Proof.
  intros H. unfold runAgent_iteration, bind, callProviderMultiTurn. now rewrite H.
Qed.

Lemma iteration_final i messages steps s resp w :
  ask messages (world s) = (inr resp, w) ->
  truthy (finalAnswer (parseAgentResponse (text resp))) = true ->
  iteration i messages steps s =
  (Normal (Return (mkResult steps
                     (orEmpty (finalAnswer (parseAgentResponse (text resp))))
                     (i + 1) (providerLabel agentModel providerCfg))
                  (messages ++ [mkMsg assistant (text resp)])),
   afterCall s messages w).
Proof.
  intros H F. unfold runAgent_iteration, bind, callProviderMultiTurn.
  rewrite H. cbn beta iota zeta. now rewrite F.
Qed.

Lemma iteration_action i messages steps s resp w :
  ask messages (world s) = (inr resp, w) ->
  let parsed := parseAgentResponse (text resp) in
  truthy (finalAnswer parsed) = false ->
  truthy (action parsed) = true ->
  iteration i messages steps s =
  match dispatch tools (orEmpty (action parsed)) (actionInput parsed)
          (afterCall s messages w) with
  | (Normal observation, s') =>
      (Normal (Continue
                 (messages ++ [mkMsg assistant (text resp)]
                  ++ [observationMessage observation])
                 (steps ++ [mkStep (thought parsed) (orEmpty (action parsed))
                              (orEmpty (actionInput parsed)) observation])),
       s')
  | (Abrupt e, s') => (Abrupt e, s')
  end.
Proof.
  intros H parsed F A. unfold runAgent_iteration, bind, callProviderMultiTurn.
  rewrite H. cbn beta iota zeta. fold parsed. rewrite F, A.
  unfold afterCall.
  destruct (dispatch tools _ _ _) as [[obs|e] s']; [|reflexivity].
  unfold ret. now rewrite <- app_assoc.
Qed.

Lemma iteration_nudge i messages steps s resp w :
  ask messages (world s) = (inr resp, w) ->
  let parsed := parseAgentResponse (text resp) in
  truthy (finalAnswer parsed) = false ->
  truthy (action parsed) = false ->
  iteration i messages steps s =
  (Normal (Continue (messages ++ [mkMsg assistant (text resp)] ++ [mkMsg user NUDGE])
                    steps),
   afterCall s messages w).
Proof.
  intros H parsed F A. unfold runAgent_iteration, bind, callProviderMultiTurn.
  rewrite H. cbn beta iota zeta. fold parsed. rewrite F, A.
  unfold ret. now rewrite <- app_assoc.
Qed.

(** Every way the loop body can end. *)
Lemma iteration_cases i messages steps s :
  (exists e w,
      ask messages (world s) = (inl e, w)
      /\ iteration i messages steps s = (Abrupt e, afterCall s messages w))
  \/ (exists resp w,
      ask messages (world s) = (inr resp, w)
      /\ truthy (finalAnswer (parseAgentResponse (text resp))) = true
      /\ iteration i messages steps s =
         (Normal (Return (mkResult steps
                            (orEmpty (finalAnswer (parseAgentResponse (text resp))))
                            (i + 1) (providerLabel agentModel providerCfg))
                         (messages ++ [mkMsg assistant (text resp)])),
          afterCall s messages w))
  \/ (exists resp w u newSteps s',
      ask messages (world s) = (inr resp, w)
      /\ truthy (finalAnswer (parseAgentResponse (text resp))) = false
      /\ iteration i messages steps s =
         (Normal (Continue (messages ++ [mkMsg assistant (text resp); mkMsg user u])
                           (steps ++ newSteps)),
          s')
      /\ List.length newSteps <= 1
      /\ ((u = NUDGE /\ newSteps = [])
          \/ exists st, newSteps = [st]
                        /\ mkMsg user u = observationMessage (step_observation st))
      /\ exists toolEvents,
           events s' = events (afterCall s messages w) ++ toolEvents
           /\ List.length toolEvents <= 1).
Proof.
  destruct (ask messages (world s)) as [[e|resp] w] eqn:H.
  - left. exists e, w. split; [reflexivity|]. now apply iteration_provider_throws.
  - right.
    destruct (truthy (finalAnswer (parseAgentResponse (text resp)))) eqn:F.
    + left. exists resp, w.
      split; [reflexivity|]. split; [exact F|]. now apply iteration_final.
    + right.
      destruct (truthy (action (parseAgentResponse (text resp)))) eqn:A.
      * rewrite (iteration_action _ _ _ _ _ _ H F A).
        destruct (dispatch_normal
                    (orEmpty (action (parseAgentResponse (text resp))))
                    (actionInput (parseAgentResponse (text resp)))
                    (afterCall s messages w)) as (obs & s' & -> & Hev).
        eexists resp, w, _, [_], s'.
        split; [reflexivity|]. split; [exact F|]. split; [reflexivity|].
        split; [cbn; lia|]. split; [right; eexists; split; reflexivity|].
        destruct Hev as [Hev|(t & _ & Hev)]; rewrite Hev.
        -- exists []. split; [now rewrite app_nil_r|cbn; lia].
        -- eexists [_]. split; [reflexivity|cbn; lia].
      * rewrite (iteration_nudge _ _ _ _ _ _ H F A).
        exists resp, w, NUDGE, [], (afterCall s messages w).
        rewrite app_nil_r.
        split; [reflexivity|]. split; [exact F|]. split; [reflexivity|].
        split; [cbn; lia|]. split; [now left|].
        exists []. split; [now rewrite app_nil_r|cbn; lia].
Qed.

Lemma loop_step n i messages steps s :
  loop (S n) i messages steps s =
  match iteration i messages steps s with
  | (Normal (Return r msgs), s') => (Normal (Return r msgs), s')
  | (Normal (Continue msgs steps'), s') => loop n (i + 1)%Z msgs steps' s'
  | (Abrupt e, s') => (Abrupt e, s')
  end.
Proof.
  cbn [runAgent_loop]. unfold bind.
  destruct (iteration i messages steps s) as [[[r msgs|msgs steps']|e] s']; reflexivity.
Qed.

(** A [return] from inside the loop reports an iteration count within the
    iterations the loop was given. *)
Lemma loop_return_bound : forall n i messages steps s r msgs s',
  loop n i messages steps s = (Normal (Return r msgs), s') ->
  (i < totalSteps r <= i + Z.of_nat n)%Z.
Proof.
  induction n as [|n IH]; intros i messages steps s r msgs s' H.
  - discriminate.
  - rewrite loop_step in H.
    destruct (iteration_cases i messages steps s)
      as [(e & w & _ & E)|[(resp & w & _ & _ & E)|(resp & w & u & ns & s1 & _ & _ & E & _)]];
      rewrite E in H.
    + discriminate.
    + injection H as <- _ _. cbn. lia.
    + apply IH in H. lia.
Qed.

(** The loop runs to an outcome whenever every completion call replies. *)
Lemma loop_total :
  (forall messages w, exists resp w', ask messages w = (inr resp, w')) ->
  forall n i messages steps s,
  exists flow s', loop n i messages steps s = (Normal flow, s').
Proof.
  intros Hreply. induction n as [|n IH]; intros i messages steps s.
  - now eexists _, _.
  - rewrite loop_step.
    destruct (iteration_cases i messages steps s)
      as [(e & w & A & E)|[(resp & w & _ & _ & E)|(resp & w & u & ns & s1 & _ & _ & E & _)]];
      rewrite E.
    + destruct (Hreply messages (world s)) as (resp & w' & A'). congruence.
    + now eexists _, _.
    + apply IH.
Qed.

(** Falling out of the loop: [n] replies were received, none of them with a
    final answer, and the transcript and the trace only grew. *)
Lemma loop_fall_through : forall n i messages steps s msgs steps' s',
  loop n i messages steps s = (Normal (Continue msgs steps'), s') ->
  exists added newSteps,
    msgs = messages ++ added /\ List.length added = 2 * n
    /\ Forall notFinal added
    /\ List.length (filter isAssistant added) = n
    /\ steps' = steps ++ newSteps /\ List.length newSteps <= n.
Proof.
  induction n as [|n IH]; intros i messages steps s msgs steps' s' H.
  - injection H as <- <- _. exists [], []. rewrite !app_nil_r. repeat split; auto.
  - rewrite loop_step in H.
    destruct (iteration_cases i messages steps s)
      as [(e & w & _ & E)|[(resp & w & _ & _ & E)|(resp & w & u & ns & s1 & _ & F & E & L & _)]];
      rewrite E in H; try discriminate.
    destruct (IH _ _ _ _ _ _ _ H) as (added & ns' & -> & La & Fa & Ca & -> & Ln).
    exists ([mkMsg assistant (text resp); mkMsg user u] ++ added), (ns ++ ns').
    rewrite !app_assoc. repeat split.
    + rewrite length_app, La. cbn. lia.
    + cbn [app]. constructor; [intros _; exact F|].
      constructor; [discriminate|]. exact Fa.
    + cbn. now rewrite Ca.
    + rewrite length_app. lia.
Qed.

(** The loop is left by a [throw] only when a completion call throws. *)
Lemma loop_abrupt : forall n i messages steps s e s',
  loop n i messages steps s = (Abrupt e, s') ->
  exists msgs w evs,
    ask msgs w = (inl e, world s')
    /\ events s' = events s ++ evs ++ [CompletionCall msgs].
Proof.
  induction n as [|n IH]; intros i messages steps s e s' H.
  - discriminate.
  - rewrite loop_step in H.
    destruct (iteration_cases i messages steps s)
      as [(e0 & w & A & E)|[(resp & w & _ & _ & E)|(resp & w & u & ns & s1 & _ & _ & E & _ & _ & tev & Ev & _)]];
      rewrite E in H; try discriminate.
    + injection H as <- <-. exists messages, (world s), []. now split.
    + destruct (IH _ _ _ _ _ _ H) as (msgs & w0 & evs & A & Ev').
      exists msgs, w0, ([CompletionCall messages] ++ tev ++ evs). split; [exact A|].
      rewrite Ev', Ev. cbn [afterCall events]. now rewrite <- !app_assoc.
Qed.

End EngineFacts.

(* ------------------------------------------------------------------------- *)
(** ** Trimming and the first line of a captured block *)

Lemma trimStart_blank_prefix s :
  exists ws, s = ws ++ trimStart s /\ forallb isWhiteSpace ws = true.
Proof.
  induction s as [|c s (ws & IH & B)]; [now exists []|].
  cbn [trimStart]. destruct (isWhiteSpace c) eqn:E.
  - exists (c :: ws). cbn. rewrite E, B. split; [now f_equal|reflexivity].
  - now exists [].
Qed.

Lemma trimStart_skips_blank ws : forall s,
  forallb isWhiteSpace ws = true -> trimStart (ws ++ s) = trimStart s.
Proof.
  induction ws as [|c ws IH]; intros s H; [reflexivity|].
  cbn in H. apply andb_true_iff in H as [E H]. cbn. rewrite E. now apply IH.
Qed.

Lemma trimStart_ends s c :
  isWhiteSpace c = false -> exists s', trimStart (s ++ [c]) = s' ++ [c].
Proof.
  intros E. induction s as [|d s (s' & IH)].
  - cbn. rewrite E. now exists [].
  - cbn [app trimStart]. destruct (isWhiteSpace d).
    + now exists s'.
    + now exists (d :: s).
Qed.

(** A trimmed string is empty or ends with a code unit that is not blank. *)
Lemma trimEnd_last s :
  trimEnd s = [] \/ exists s' c, trimEnd s = s' ++ [c] /\ isWhiteSpace c = false.
Proof.
  unfold trimEnd. destruct (trimStart (rev s)) as [|c r] eqn:E; [now left|].
  right. exists (rev r), c. split; [reflexivity|].
  destruct (rev s) as [|d t]; [discriminate|].
  revert E. generalize (d :: t). intros u. induction u as [|x u IH]; [discriminate|].
  cbn. destruct (isWhiteSpace x) eqn:X; [exact IH|]. now intros [= -> _].
Qed.

Lemma trimEnd_fixed s c : isWhiteSpace c = false -> trimEnd (s ++ [c]) = s ++ [c].
Proof.
  intros E. unfold trimEnd. rewrite rev_app_distr. cbn. rewrite E.
  cbn. now rewrite rev_involutive.
Qed.

Lemma skipn_last {A} n (t s' : list A) c x y :
  skipn n t = s' ++ [c] -> t = x ++ [y] -> c = y.
Proof.
  intros H T. rewrite <- (firstn_skipn n t), H, app_assoc in T.
  now apply app_inj_tail in T as [_ ->].
Qed.

Lemma slice_suffix n s : exists k, slice n s = skipn k s.
Proof. unfold slice. eauto. Qed.

Lemma join_head sep xs : exists tail, forall y, join sep (y :: xs) = y ++ tail.
Proof.
  destruct xs as [|z zs].
  - exists []. intros y. cbn. now rewrite app_nil_r.
  - exists (sep ++ join sep (z :: zs)). reflexivity.
Qed.

(** Trimming the remainder of the "Action Input:" line before joining it
    with the captured lines does not change the trimmed block. *)
Lemma trim_block_remainder n l xs :
  trim (join [NL] (trim (slice n (trim l)) :: xs))
  = trim (join [NL] (slice n (trim l) :: xs)).
Proof.
  destruct (join_head [NL] xs) as (tail & J). rewrite !J.
  destruct (slice_suffix n (trim l)) as (k & ->).
  set (r := skipn k (trim l)).
  destruct (trimStart_blank_prefix r) as (ws & Hr & B).
  assert (T : trim r = trimStart r).
  { unfold trim at 1. destruct r as [|c0 r0] eqn:R; [reflexivity|].
    destruct (@exists_last _ (c0 :: r0)) as (r1 & c & Hl); [discriminate|].
    assert (C : isWhiteSpace c = false).
    { destruct (trimEnd_last (trimStart l)) as [Z|(t' & y & Z & Y)];
        fold (trim l) in Z.
      - subst r. rewrite Z in R. now destruct k.
      - rewrite Hl in R. now rewrite (skipn_last _ _ _ _ _ _ R Z). }
    rewrite Hl. destruct (trimStart_ends r1 c C) as (s' & ->).
    now apply trimEnd_fixed. }
  rewrite T. rewrite Hr at 2. unfold trim.
  rewrite <- app_assoc. now rewrite (trimStart_skips_blank ws _ B).
Qed.

Lemma capture_spec post :
  exists tail,
    post = captureLines post ++ tail
    /\ Forall (fun x => stopsCapture (trim x) = false) (captureLines post)
    /\ (tail = [] \/ exists y tail', tail = y :: tail' /\ stopsCapture (trim y) = true).
Proof.
  induction post as [|x post (tail & E & F & T)].
  - exists []. repeat split; auto.
  - cbn [captureLines]. destruct (stopsCapture (trim x)) eqn:S.
    + exists (x :: post). repeat split; auto. right. now exists x, post.
    + exists tail. repeat split; auto. cbn. now f_equal.
Qed.

(* ------------------------------------------------------------------------- *)
(** ** Which line sets a local of the parser *)

Lemma scan_skip_prefix text post : forall pre st,
  existsb isFinalLine pre = false ->
  exists st', scanLines text (pre ++ post) st = scanLines text post st'.
Proof.
  induction pre as [|x pre IH]; intros st H; [now exists st|].
  cbn [existsb] in H. apply orb_false_iff in H as [E H].
  cbn [app]. rewrite scan_other_line by assumption. now apply IH.
Qed.

Lemma scan_keeps_actionInput text : forall ls st,
  existsb isFinalLine ls = false -> existsb isActionInputLine ls = false ->
  v_actionInput (scanLines text ls st) = v_actionInput st.
Proof.
  induction ls as [|x ls IH]; intros st F A; [reflexivity|].
  cbn [existsb] in F, A.
  apply orb_false_iff in F as [Fx F]. apply orb_false_iff in A as [Ax A].
  rewrite scan_other_line, IH by assumption.
  unfold updateVars. rewrite Ax.
  destruct (isThoughtLine x), (isActionLine x); reflexivity.
Qed.

Lemma scan_keeps_action text : forall ls st,
  existsb isFinalLine ls = false -> existsb isActionLine ls = false ->
  v_action (scanLines text ls st) = v_action st.
Proof.
  induction ls as [|x ls IH]; intros st F A; [reflexivity|].
  cbn [existsb] in F, A.
  apply orb_false_iff in F as [Fx F]. apply orb_false_iff in A as [Ax A].
  rewrite scan_other_line, IH by assumption.
  unfold updateVars. rewrite Ax.
  destruct (isThoughtLine x), (isActionInputLine x); reflexivity.
Qed.

Lemma scan_tail_actionInput text post st :
  existsb isActionInputLine (beforeFinal post) = false ->
  v_actionInput (scanLines text post st) = v_actionInput st.
Proof.
  intros A. rewrite scan_stops_at_final. cbn zeta.
  destruct (existsb isFinalLine post); cbn [withFinal v_actionInput];
    apply scan_keeps_actionInput; auto using beforeFinal_no_final.
Qed.

Lemma scan_tail_action text post st :
  existsb isActionLine (beforeFinal post) = false ->
  v_action (scanLines text post st) = v_action st.
Proof.
  intros A. rewrite scan_stops_at_final. cbn zeta.
  destruct (existsb isFinalLine post); cbn [withFinal v_action];
    apply scan_keeps_action; auto using beforeFinal_no_final.
Qed.

Lemma update_actionInput l rest st :
  isActionInputLine l = true ->
  isFinalLine l = false
  /\ v_actionInput (updateVars l rest st)
     = trim (join [NL] (trim (slice 13 (trim l)) :: captureLines rest)).
Proof.
  unfold isActionInputLine, updateVars, isThoughtLine, isActionLine,
    isActionInputLine, isFinalLine.
  intros H. destruct (action_input_excludes _ H) as (-> & -> & ->).
  now rewrite H.
Qed.

Lemma update_action l rest st :
  isActionLine l = true ->
  isFinalLine l = false
  /\ v_action (updateVars l rest st) = trim (slice 7 (trim l)).
Proof.
  unfold updateVars. intros H. rewrite H.
  unfold isActionLine in H. apply andb_true_iff in H as [H _].
  unfold isThoughtLine, isFinalLine.
  now destruct (action_excludes _ H) as (-> & _ & ->).
Qed.

(* ------------------------------------------------------------------------- *)
(** ** The parser's claims *)

(** C4, as amended.  When some line of the reply begins, after trimming,
    with "Final Answer:", the parser stops at the first such line: its other
    locals are those obtained from the lines before it, and its final answer
    is everything after the first occurrence of the marker in the raw text,
    trimmed (returned as absent when that is empty). *)
Theorem final_answer_after_first_occurrence raw :
  existsb isFinalLine (splitLines raw) = true ->
  exists rest,
    afterFirst FINAL_ANSWER raw = Some rest
    /\ parseVars raw
       = withFinal (scanLines [] (beforeFinal (splitLines raw)) initialVars) (trim rest)
    /\ finalAnswer (parseAgentResponse raw) = orUndefined (trim rest).
Proof.
  intros H. destruct (final_line_afterFirst raw H) as (rest & A).
  exists rest. split; [exact A|].
  assert (P : parseVars raw
              = withFinal (scanLines [] (beforeFinal (splitLines raw)) initialVars)
                  (trim rest)).
  { unfold parseVars. rewrite scan_stops_at_final. cbn zeta.
    now rewrite H, (finalText_afterFirst _ _ A). }
  split; [exact P|].
  change (finalAnswer (parseAgentResponse raw))
    with (orUndefined (v_finalAnswer (parseVars raw))).
  now rewrite P.
Qed.

Lemma final_answer_after_first_occurrence_witness :
  existsb isFinalLine (splitLines Scenario.late_answer) = true
  /\ exists rest,
       afterFirst FINAL_ANSWER Scenario.late_answer = Some rest
       /\ parseVars Scenario.late_answer
          = withFinal
              (scanLines [] (beforeFinal (splitLines Scenario.late_answer)) initialVars)
              (trim rest)
       /\ finalAnswer (parseAgentResponse Scenario.late_answer) = orUndefined (trim rest).
Proof.
  split; [reflexivity|].
  apply final_answer_after_first_occurrence. reflexivity.
Defined.

(** C4, as stated, fails: a marker inside a line is not recognised, and a
    marker followed by nothing gives no final answer. *)
Lemma final_answer_marker_anywhere_fails :
  includes FINAL_ANSWER (lit "The Final Answer: 42") = true
  /\ afterFirst FINAL_ANSWER (lit "The Final Answer: 42") = Some (lit " 42")
  /\ parseAgentResponse (lit "The Final Answer: 42") = mkParsed [] None None None
  /\ afterFirst FINAL_ANSWER (lit "Final Answer:  ") = Some (lit "  ")
  /\ parseAgentResponse (lit "Final Answer:  ") = mkParsed [] None None None.
Proof. repeat split; reflexivity. Qed.

Lemma slice_past_prefix (p r : jsstring) :
  slice (Z.of_nat (List.length p)) (p ++ r) = r.
Proof.
  unfold slice.
  replace (Z.of_nat (List.length p) <? 0)%Z with false by (symmetry; apply Z.ltb_ge; lia).
  rewrite length_app, Z.min_l by lia. rewrite Nat2Z.id.
  rewrite skipn_app, skipn_all, Nat.sub_diag. reflexivity.
Qed.

Lemma no_such_line {A} (f : A -> bool) ls :
  forallb (fun x => negb (f x)) ls = true -> existsb f ls = false.
Proof.
  induction ls as [|x ls IH]; [reflexivity|].
  cbn. intros H. apply andb_true_iff in H as [X H].
  apply negb_true_iff in X. now rewrite X, IH.
Qed.

(** The lines taken into the block, and the line at which the inner loop
    breaks, by the four prefixes tested there. *)
Lemma capture_markers post :
  exists tail,
    post = captureLines post ++ tail
    /\ Forall (fun x => startsWith (lit "Thought:") (trim x) = false
                       /\ startsWith (lit "Action:") (trim x) = false
                       /\ startsWith (lit "Final Answer:") (trim x) = false
                       /\ startsWith (lit "Observation:") (trim x) = false)
              (captureLines post)
    /\ (tail = []
        \/ exists y tail',
             tail = y :: tail'
             /\ (startsWith (lit "Thought:") (trim y) = true
                 \/ startsWith (lit "Action:") (trim y) = true
                 \/ startsWith (lit "Final Answer:") (trim y) = true
                 \/ startsWith (lit "Observation:") (trim y) = true)).
Proof.
  destruct (capture_spec post) as (tail & E & F & T).
  exists tail. split; [exact E|]. split.
  - eapply Forall_impl; [|exact F]. cbn beta. intros x S.
    unfold stopsCapture in S.
    apply orb_false_iff in S as [S O]. apply orb_false_iff in S as [S Fi].
    apply orb_false_iff in S as [Th Ac]. now repeat split.
  - destruct T as [->|(y & tail' & -> & S)]; [now left|].
    right. exists y, tail'. split; [reflexivity|].
    unfold stopsCapture in S.
    apply orb_true_iff in S as [S|O]; [|now right; right; right].
    apply orb_true_iff in S as [S|Fi]; [|now right; right; left].
    apply orb_true_iff in S as [Th|Ac]; [now left|now right; left].
Qed.

(** C5, as amended.  Take the last line of the reply that begins, after
    trimming, with "Action Input:" among the lines the parser reads (those
    before the first line that begins with "Final Answer:").  The block is
    the remainder of that line, trimmed (so without the blanks that end the
    line), followed by the lines after it, as they are, up to the first
    line that begins, after trimming, with "Thought:", "Action:",
    "Final Answer:" or "Observation:", or to the end of the reply.  The
    block joined by newlines and trimmed is the action input; with an empty
    remainder and no line taken it is the empty string, which the parser
    returns as absent and the loop reads as the empty string. *)
Theorem action_input_block raw pre l post :
  splitLines raw = pre ++ l :: post ->
  forallb (fun x => negb (startsWith (lit "Final Answer:") (trim x))) pre = true ->
  startsWith (lit "Action Input:") (trim l) = true ->
  forallb (fun x => negb (startsWith (lit "Action Input:") (trim x))) (beforeFinal post)
  = true ->
  exists remainder captured tail,
    trim l = lit "Action Input:" ++ remainder
    /\ post = captured ++ tail
    /\ Forall (fun x => startsWith (lit "Thought:") (trim x) = false
                       /\ startsWith (lit "Action:") (trim x) = false
                       /\ startsWith (lit "Final Answer:") (trim x) = false
                       /\ startsWith (lit "Observation:") (trim x) = false) captured
    /\ (tail = []
        \/ exists y tail',
             tail = y :: tail'
             /\ (startsWith (lit "Thought:") (trim y) = true
                 \/ startsWith (lit "Action:") (trim y) = true
                 \/ startsWith (lit "Final Answer:") (trim y) = true
                 \/ startsWith (lit "Observation:") (trim y) = true))
    /\ v_actionInput (parseVars raw) = trim (join [NL] (trim remainder :: captured))
    /\ actionInput (parseAgentResponse raw)
       = orUndefined (trim (join [NL] (trim remainder :: captured)))
    /\ (captured = [] -> trim remainder = [] ->
        v_actionInput (parseVars raw) = []
        /\ actionInput (parseAgentResponse raw) = None
        /\ orEmpty (actionInput (parseAgentResponse raw)) = []).
Proof.
  intros Hlines Hpre Hl Hpost.
  apply no_such_line in Hpre. apply no_such_line in Hpost.
  change (existsb isFinalLine pre = false) in Hpre.
  change (existsb isActionInputLine (beforeFinal post) = false) in Hpost.
  change (isActionInputLine l = true) in Hl.
  destruct (capture_markers post) as (tail & E & F & T).
  assert (R : trim l = lit "Action Input:" ++ slice 13 (trim l)).
  { pose proof (startsWith_split _ _ Hl) as S. fold ACTION_INPUT. rewrite S at 2.
    now rewrite (slice_past_prefix ACTION_INPUT). }
  exists (slice 13 (trim l)), (captureLines post), tail.
  assert (V : v_actionInput (parseVars raw)
              = trim (join [NL] (trim (slice 13 (trim l)) :: captureLines post))).
  { unfold parseVars. rewrite Hlines.
    destruct (scan_skip_prefix raw (l :: post) pre initialVars Hpre) as (st & ->).
    destruct (update_actionInput l post st Hl) as (NF & U).
    rewrite scan_other_line by exact NF.
    rewrite scan_tail_actionInput by exact Hpost.
    exact U. }
  assert (P : actionInput (parseAgentResponse raw)
              = orUndefined (v_actionInput (parseVars raw))) by reflexivity.
  split; [exact R|]. split; [exact E|]. split; [exact F|]. split; [exact T|].
  split; [exact V|]. split; [now rewrite P, V|].
  intros C B. rewrite P, V, C, B. now repeat split.
Qed.

Lemma action_input_block_witness :
  exists remainder captured tail,
    trim (lit "Action Input:  {  ") = lit "Action Input:" ++ remainder
    /\ [lit "  x: 1"; lit "}"; lit "Observation: y"; lit "more"] = captured ++ tail
    /\ Forall (fun x => startsWith (lit "Thought:") (trim x) = false
                       /\ startsWith (lit "Action:") (trim x) = false
                       /\ startsWith (lit "Final Answer:") (trim x) = false
                       /\ startsWith (lit "Observation:") (trim x) = false) captured
    /\ (tail = []
        \/ exists y tail',
             tail = y :: tail'
             /\ (startsWith (lit "Thought:") (trim y) = true
                 \/ startsWith (lit "Action:") (trim y) = true
                 \/ startsWith (lit "Final Answer:") (trim y) = true
                 \/ startsWith (lit "Observation:") (trim y) = true))
    /\ v_actionInput (parseVars Cases.block_reply)
       = trim (join [NL] (trim remainder :: captured))
    /\ actionInput (parseAgentResponse Cases.block_reply)
       = orUndefined (trim (join [NL] (trim remainder :: captured)))
    /\ (captured = [] -> trim remainder = [] ->
        v_actionInput (parseVars Cases.block_reply) = []
        /\ actionInput (parseAgentResponse Cases.block_reply) = None
        /\ orEmpty (actionInput (parseAgentResponse Cases.block_reply)) = []).
Proof.
  apply (action_input_block Cases.block_reply
           [lit "Thought: t"; lit "Action: run"] (lit "Action Input:  {  ")
           [lit "  x: 1"; lit "}"; lit "Observation: y"; lit "more"]);
    reflexivity.
Defined.

(** C5, as stated, fails.  The blanks that end the "Action Input:" line are
    not part of the block: the line is trimmed before its remainder is
    taken.  A second "Action Input:" line does not end the block of the
    first, and the action input is then the block of the second.  An
    "Action Input:" line after a "Final Answer:" line is not read.  An
    empty block is returned as an absent field, not as the empty string. *)
Lemma action_input_remainder_is_trimmed :
  splitLines (lit "Action Input: a   " ++ [NL] ++ lit "b")
  = [lit "Action Input: a   "; lit "b"]
  /\ actionInput (parseAgentResponse (lit "Action Input: a   " ++ [NL] ++ lit "b"))
     = Some (lit "a" ++ [NL] ++ lit "b")
  /\ trim (join [NL] [lit " a   "; lit "b"]) = lit "a   " ++ [NL] ++ lit "b"
  /\ captureLines [lit "Action Input: b"; lit "c"] = [lit "Action Input: b"; lit "c"]
  /\ actionInput
       (parseAgentResponse
          (lit "Action Input: a" ++ [NL] ++ lit "Action Input: b" ++ [NL] ++ lit "c"))
     = Some (lit "b" ++ [NL] ++ lit "c")
  /\ parseAgentResponse (lit "Final Answer: x" ++ [NL] ++ lit "Action Input: y")
     = mkParsed [] None None (Some (lit "x" ++ [NL] ++ lit "Action Input: y"))
  /\ parseAgentResponse (lit "Action: run" ++ [NL] ++ lit "Action Input:")
     = mkParsed [] (Some (lit "run")) None None.
Proof. repeat split; vm_compute; reflexivity. Qed.

(** The block of [Cases.block_reply] and of a reply without any text after
    the marker. *)
Example action_input_block_value :
  actionInput (parseAgentResponse Scenario.multiline_input)
  = Some (Scenario.lines [lit "{"; lit "  x: 1"; lit "}"])
  /\ actionInput (parseAgentResponse Cases.block_reply)
     = Some (Scenario.lines [lit "{"; lit "  x: 1"; lit "}"])
  /\ parseAgentResponse (Scenario.lines [lit "Action: run"; lit "Action Input:"])
     = mkParsed [] (Some (lit "run")) None None.
Proof. repeat split; reflexivity. Qed.

(* ------------------------------------------------------------------------- *)
(** ** More on the loop: tool events, transcript, the answer returned *)

Section LoopFacts.

Variable World : Type.
Variable oracle :
  jsstring -> jsstring -> jsstring -> list MultiTurnMessage -> option jsstring -> Z ->
  World -> (JsThrown + ApiCallResult) * World.

Variable tools : list (AgentTool World).
Variable agentProviderKey : jsstring.
Variable agentApiKey : option jsstring.
Variable providerCfg : ProviderConfig.
Variable agentModel : ModelDef.
Variable systemPrompt : jsstring.

Local Abbreviation iteration :=
  (runAgent_iteration oracle tools agentProviderKey agentApiKey providerCfg
     agentModel systemPrompt).
Local Abbreviation loop :=
  (runAgent_loop oracle tools agentProviderKey agentApiKey providerCfg
     agentModel systemPrompt).
Local Abbreviation ask messages w :=
  (oracle agentProviderKey (model_id agentModel) systemPrompt messages agentApiKey
     2048%Z w).

(** After a reply, the body ends normally, having run no tool or exactly the
    one tool named by the parsed action. *)
Lemma iteration_tool_events i messages steps s resp w :
  ask messages (world s) = (inr resp, w) ->
  exists flow s',
    iteration i messages steps s = (Normal flow, s')
    /\ (events s' = events s ++ [CompletionCall messages]
        \/ (truthy (finalAnswer (parseAgentResponse (text resp))) = false
            /\ exists t,
                 find (fun t => Js.eqb (name t)
                                  (orEmpty (action (parseAgentResponse (text resp)))))
                      tools = Some t
                 /\ name t = orEmpty (action (parseAgentResponse (text resp)))
                 /\ events s'
                    = events s
                      ++ [CompletionCall messages;
                          ToolExecute (name t)
                            (orEmpty (actionInput (parseAgentResponse (text resp))))])).
Proof.
  intros H.
  destruct (truthy (finalAnswer (parseAgentResponse (text resp)))) eqn:F.
  - rewrite (iteration_final _ _ _ _ _ _ _ _ _ _ _ _ _ _ H F).
    eexists _, _. split; [reflexivity|]. now left.
  - destruct (truthy (action (parseAgentResponse (text resp)))) eqn:A.
    + rewrite (iteration_action _ _ _ _ _ _ _ _ _ _ _ _ _ _ H F A).
      destruct (dispatch_normal _ tools
                  (orEmpty (action (parseAgentResponse (text resp))))
                  (actionInput (parseAgentResponse (text resp)))
                  (afterCall s messages w)) as (obs & s' & -> & Hev).
      eexists _, _. split; [reflexivity|].
      destruct Hev as [Hev|(t & Ft & Hev)]; rewrite Hev; cbn [afterCall events].
      * now left.
      * right. split; [reflexivity|]. exists t. split; [exact Ft|].
        apply find_some in Ft as [_ Ft]. apply jseqb_eq in Ft.
        split; [exact Ft|]. now rewrite <- app_assoc.
    + rewrite (iteration_nudge _ _ _ _ _ _ _ _ _ _ _ _ _ _ H F A).
      eexists _, _. split; [reflexivity|]. now left.
Qed.

(** The transcript only grows: by at most two messages per iteration. *)
Lemma loop_transcript : forall n i messages steps s flow s',
  loop n i messages steps s = (Normal flow, s') ->
  exists added,
    flowMessages flow = messages ++ added /\ List.length added <= 2 * n.
Proof.
  induction n as [|n IH]; intros i messages steps s flow s' H.
  - injection H as <- _. exists []. cbn. now rewrite app_nil_r.
  - rewrite loop_step in H.
    destruct (iteration_cases _ oracle tools agentProviderKey agentApiKey providerCfg
                agentModel systemPrompt i messages steps s)
      as [(e & w & _ & E)|[(resp & w & _ & _ & E)|(resp & w & u & ns & s1 & _ & _ & E & _)]];
      rewrite E in H.
    + discriminate.
    + injection H as <- _. eexists [_]. split; [reflexivity|cbn; lia].
    + destruct (IH _ _ _ _ _ _ H) as (added & -> & L).
      eexists (_ :: _ :: added). rewrite <- app_assoc. split; [reflexivity|cbn; lia].
Qed.

(** A [return] from inside the loop hands back the final answer of the
    last reply, and the steps recorded so far. *)
Lemma loop_return_answer : forall n i messages steps s r msgs s',
  loop n i messages steps s = (Normal (Return r msgs), s') ->
  exists before raw,
    msgs = before ++ [mkMsg assistant raw]
    /\ truthy (finalAnswer (parseAgentResponse raw)) = true
    /\ res_finalAnswer r = orEmpty (finalAnswer (parseAgentResponse raw))
    /\ provider r = providerLabel agentModel providerCfg.
Proof.
  induction n as [|n IH]; intros i messages steps s r msgs s' H.
  - discriminate.
  - rewrite loop_step in H.
    destruct (iteration_cases _ oracle tools agentProviderKey agentApiKey providerCfg
                agentModel systemPrompt i messages steps s)
      as [(e & w & _ & E)|[(resp & w & _ & F & E)|(resp & w & u & ns & s1 & _ & _ & E & _)]];
      rewrite E in H.
    + discriminate.
    + injection H as <- <- _. exists messages, (text resp). now repeat split.
    + now apply IH in H.
Qed.

End LoopFacts.

(* ------------------------------------------------------------------------- *)
(** ** The claims on one loop iteration *)

Section IterationClaims.

Variable World : Type.
Variable oracle :
  jsstring -> jsstring -> jsstring -> list MultiTurnMessage -> option jsstring -> Z ->
  World -> (JsThrown + ApiCallResult) * World.

Variable tools : list (AgentTool World).
Variable agentProviderKey : jsstring.
Variable agentApiKey : option jsstring.
Variable providerCfg : ProviderConfig.
Variable agentModel : ModelDef.
Variable systemPrompt : jsstring.

Local Abbreviation iteration :=
  (runAgent_iteration oracle tools agentProviderKey agentApiKey providerCfg
     agentModel systemPrompt).
Local Abbreviation loop :=
  (runAgent_loop oracle tools agentProviderKey agentApiKey providerCfg
     agentModel systemPrompt).
Local Abbreviation ask messages w :=
  (oracle agentProviderKey (model_id agentModel) systemPrompt messages agentApiKey
     2048%Z w).

(** C1, as amended.  When some line of the reply begins, after trimming,
    with "Final Answer:" and the text after the first occurrence of the
    marker is not blank, the parser returns that text, trimmed, as the final
    answer, whatever action the lines before set; the loop returns with it,
    records no step, and the only call of the iteration is the completion
    call: no tool is run. *)
Theorem final_answer_takes_priority raw rest :
  existsb isFinalLine (splitLines raw) = true ->
  afterFirst FINAL_ANSWER raw = Some rest ->
  trim rest <> [] ->
  finalAnswer (parseAgentResponse raw) = Some (trim rest)
  /\ forall i messages steps s resp w,
       ask messages (world s) = (inr resp, w) -> text resp = raw ->
       iteration i messages steps s
       = (Normal (Return (mkResult steps (trim rest) (i + 1)
                            (providerLabel agentModel providerCfg))
                         (messages ++ [mkMsg assistant raw])),
          mkSys w (events s ++ [CompletionCall messages])).
Proof.
  intros L A N.
  assert (F : finalAnswer (parseAgentResponse raw) = Some (trim rest)).
  { change (finalAnswer (parseAgentResponse raw))
      with (orUndefined (v_finalAnswer (parseVars raw))).
    rewrite parseVars_finalAnswer, L, (finalText_afterFirst _ _ A).
    destruct (trim rest); [contradiction|reflexivity]. }
  split; [exact F|].
  intros i messages steps s resp w H <-.
  rewrite (iteration_final _ _ _ _ _ _ _ _ _ _ _ _ _ _ H); rewrite F.
  - destruct (trim rest); [contradiction|reflexivity].
  - destruct (trim rest); [contradiction|reflexivity].
Qed.

(** C10.  When the text after the first "Final Answer:" of the reply is
    blank, the parser returns no final answer and the loop goes on with what
    else the reply holds.  With a parsed action that names a tool of the
    registry, that tool is executed, once, on the parsed input: the call is
    in the call log after the completion call, what the tool returns (or
    "Tool error: <text>" when it throws) is the observation, the step is
    recorded and the observation appended.  With an action that names no
    tool, the step holds the "Unknown tool" text and nothing is executed.
    Without an action, the nudge is appended. *)
Theorem blank_final_answer_is_absent raw rest :
  afterFirst FINAL_ANSWER raw = Some rest ->
  trim rest = [] ->
  finalAnswer (parseAgentResponse raw) = None
  /\ forall i messages steps s resp w,
       ask messages (world s) = (inr resp, w) -> text resp = raw ->
       let parsed := parseAgentResponse raw in
       let input := orEmpty (actionInput parsed) in
       match action parsed with
       | Some act =>
           match find (fun t => Js.eqb (name t) act) tools with
           | Some tool =>
               name tool = act
               /\ forall r w',
                    execute tool input w = (r, w') ->
                    let observation :=
                      match r with
                      | inr value => value
                      | inl e => lit "Tool error: " ++ thrownText e
                      end in
                    iteration i messages steps s
                    = (Normal (Continue
                                 (messages ++ [mkMsg assistant raw;
                                               observationMessage observation])
                                 (steps ++ [mkStep (thought parsed) act input
                                              observation])),
                       mkSys w' (events s ++ [CompletionCall messages;
                                              ToolExecute act input]))
           | None =>
               let observation :=
                 lit "Unknown tool: " ++ act ++ lit ". Available: "
                 ++ join (lit ", ") (List.map name tools) in
               iteration i messages steps s
               = (Normal (Continue
                            (messages ++ [mkMsg assistant raw;
                                          observationMessage observation])
                            (steps ++ [mkStep (thought parsed) act input observation])),
                  mkSys w (events s ++ [CompletionCall messages]))
           end
       | None =>
           iteration i messages steps s
           = (Normal (Continue (messages ++ [mkMsg assistant raw; mkMsg user NUDGE])
                               steps),
              mkSys w (events s ++ [CompletionCall messages]))
       end.
Proof.
  intros A B.
  assert (F : finalAnswer (parseAgentResponse raw) = None).
  { change (finalAnswer (parseAgentResponse raw))
      with (orUndefined (v_finalAnswer (parseVars raw))).
    rewrite parseVars_finalAnswer.
    destruct (existsb isFinalLine (splitLines raw)); [|reflexivity].
    now rewrite (finalText_afterFirst _ _ A), B. }
  split; [exact F|].
  intros i messages steps s resp w H <- parsed input.
  assert (F' : truthy (finalAnswer (parseAgentResponse (text resp))) = false)
    by now rewrite F.
  destruct (action parsed) as [act|] eqn:Act.
  - assert (T : truthy (action (parseAgentResponse (text resp))) = true
                /\ orEmpty (action (parseAgentResponse (text resp))) = act).
    { revert Act. unfold parsed.
      change (action (parseAgentResponse (text resp)))
        with (orUndefined (v_action (parseVars (text resp)))).
      destruct (v_action (parseVars (text resp))); [discriminate|].
      now intros [= <-]. }
    destruct T as [T O].
    pose proof (iteration_action _ oracle tools agentProviderKey agentApiKey
                  providerCfg agentModel systemPrompt i messages steps s resp w
                  H F' T) as It.
    cbn zeta in It. rewrite O in It. fold parsed in It. fold input in It.
    destruct (find (fun t => Js.eqb (name t) act) tools) as [tool|] eqn:Ft.
    + assert (Nt : name tool = act).
      { apply find_some in Ft as [_ Ft]. now apply jseqb_eq in Ft. }
      split; [exact Nt|]. intros r w' X observation.
      rewrite It, (dispatch_found _ _ _ _ _ _ Ft).
      cbn [afterCall world events]. fold input. rewrite X, Nt.
      subst observation. now rewrite <- !app_assoc.
    + intros observation. rewrite It, (dispatch_unknown _ _ _ _ _ Ft).
      reflexivity.
  - rewrite (iteration_nudge _ _ _ _ _ _ _ _ _ _ _ _ _ _ H F'); [reflexivity|].
    fold parsed. now rewrite Act.
Qed.

(** C6.  An action that names no tool of the registry is recorded as a step
    whose observation is "Unknown tool: <action>. Available: <names>", the
    observation goes into the transcript, no tool is run, and the loop goes
    on to its next iteration. *)
Theorem unknown_tool_is_reported i messages steps s resp w act :
  ask messages (world s) = (inr resp, w) ->
  finalAnswer (parseAgentResponse (text resp)) = None ->
  action (parseAgentResponse (text resp)) = Some act ->
  find (fun t => Js.eqb (name t) act) tools = None ->
  let parsed := parseAgentResponse (text resp) in
  let observation :=
    lit "Unknown tool: " ++ act ++ lit ". Available: "
    ++ join (lit ", ") (List.map name tools) in
  let messages' :=
    messages ++ [mkMsg assistant (text resp); observationMessage observation] in
  let steps' :=
    steps ++ [mkStep (thought parsed) act (orEmpty (actionInput parsed)) observation] in
  iteration i messages steps s
  = (Normal (Continue messages' steps'), mkSys w (events s ++ [CompletionCall messages]))
  /\ includes (lit "Unknown tool: " ++ act) observation = true
  /\ (act = lit "frobnicate" ->
      includes (lit "Unknown tool: frobnicate") observation = true)
  /\ forall n,
       loop (S n) i messages steps s
       = loop n (i + 1)%Z messages' steps'
           (mkSys w (events s ++ [CompletionCall messages])).
Proof.
  intros H F A U parsed observation messages' steps'.
  assert (F' : truthy (finalAnswer (parseAgentResponse (text resp))) = false)
    by now rewrite F.
  assert (T : truthy (action (parseAgentResponse (text resp))) = true
              /\ orEmpty (action (parseAgentResponse (text resp))) = act).
  { revert A.
    change (action (parseAgentResponse (text resp)))
      with (orUndefined (v_action (parseVars (text resp)))).
    destruct (v_action (parseVars (text resp))); [discriminate|].
    now intros [= <-]. }
  destruct T as [T O].
  assert (I : iteration i messages steps s
              = (Normal (Continue messages' steps'),
                 mkSys w (events s ++ [CompletionCall messages]))).
  { rewrite (iteration_action _ _ _ _ _ _ _ _ _ _ _ _ _ _ H F' T), O.
    now rewrite (dispatch_unknown _ tools act _ _ U). }
  assert (P : includes (lit "Unknown tool: " ++ act) observation = true).
  { apply startsWith_includes. unfold observation.
    rewrite app_assoc. apply startsWith_app. }
  repeat split.
  - exact I.
  - exact P.
  - intros ->. exact P.
  - intros n. now rewrite loop_step, I.
Qed.

(** C9.  An iteration whose completion call replies appends the reply as an
    assistant message, and then either returns (the reply holds a final
    answer) or appends exactly one user message, the observation or the
    nudge; what was in the transcript stays as it was.  Over [n] iterations
    the transcript is extended by at most [2 * n] messages. *)
Theorem transcript_grows_by_one_or_two i messages steps s resp w :
  ask messages (world s) = (inr resp, w) ->
  (exists flow s',
     iteration i messages steps s = (Normal flow, s')
     /\ match flow with
        | Return _ msgs =>
            msgs = messages ++ [mkMsg assistant (text resp)]
            /\ truthy (finalAnswer (parseAgentResponse (text resp))) = true
        | Continue msgs _ =>
            truthy (finalAnswer (parseAgentResponse (text resp))) = false
            /\ exists u,
                 msgs = messages ++ [mkMsg assistant (text resp); mkMsg user u]
                 /\ (u = NUDGE \/ exists observation,
                                     mkMsg user u = observationMessage observation)
        end)
  /\ forall n flow s',
       loop n i messages steps s = (Normal flow, s') ->
       exists added,
         flowMessages flow = messages ++ added /\ List.length added <= 2 * n.
Proof.
  intros H. split.
  - destruct (iteration_cases _ oracle tools agentProviderKey agentApiKey providerCfg
                agentModel systemPrompt i messages steps s)
      as [(e & w0 & A & E)|[(r0 & w0 & A & F & E)|(r0 & w0 & u & ns & s1 & A & F & E & _ & U & _)]];
      rewrite H in A; try discriminate; injection A as <- <-; rewrite E.
    + eexists _, _. split; [reflexivity|]. now split.
    + eexists _, _. split; [reflexivity|]. split; [exact F|]. exists u.
      split; [reflexivity|].
      destruct U as [[-> _]|(st & _ & U)]; [now left|].
      right. exists (step_observation st). exact U.
  - intros n flow s'. apply loop_transcript.
Qed.

(** C7.  Of several "Action:" lines the last one the parser meets sets the
    action; the iteration then runs no tool, or runs once the tool of that
    name. *)
Theorem last_action_line_wins raw pre l post :
  splitLines raw = pre ++ l :: post ->
  existsb isFinalLine pre = false ->
  isActionLine l = true ->
  existsb isActionLine (beforeFinal post) = false ->
  v_action (parseVars raw) = trim (slice 7 (trim l))
  /\ action (parseAgentResponse raw) = orUndefined (trim (slice 7 (trim l)))
  /\ forall i messages steps s resp w,
       ask messages (world s) = (inr resp, w) -> text resp = raw ->
       exists flow s',
         iteration i messages steps s = (Normal flow, s')
         /\ (events s' = events s ++ [CompletionCall messages]
             \/ exists t,
                  find (fun t => Js.eqb (name t) (trim (slice 7 (trim l)))) tools = Some t
                  /\ name t = trim (slice 7 (trim l))
                  /\ events s'
                     = events s
                       ++ [CompletionCall messages;
                           ToolExecute (trim (slice 7 (trim l)))
                             (orEmpty (actionInput (parseAgentResponse raw)))]).
Proof.
  intros Hlines Hpre Hl Hpost.
  assert (V : v_action (parseVars raw) = trim (slice 7 (trim l))).
  { unfold parseVars. rewrite Hlines.
    destruct (scan_skip_prefix raw (l :: post) pre initialVars Hpre) as (st & ->).
    destruct (update_action l post st Hl) as (NF & U).
    rewrite scan_other_line by exact NF.
    now rewrite scan_tail_action by exact Hpost. }
  assert (P : action (parseAgentResponse raw) = orUndefined (trim (slice 7 (trim l)))).
  { change (action (parseAgentResponse raw)) with (orUndefined (v_action (parseVars raw))).
    now rewrite V. }
  split; [exact V|]. split; [exact P|].
  intros i messages steps s resp w H <-.
  destruct (iteration_tool_events _ oracle tools agentProviderKey agentApiKey
              providerCfg agentModel systemPrompt i messages steps s resp w H)
    as (flow & s' & E & Ev).
  exists flow, s'. split; [exact E|].
  destruct Ev as [Ev|(_ & t & Ft & Nt & Ev)]; [now left|].
  rewrite P, orEmpty_orUndefined in Ft, Nt.
  right. exists t. split; [exact Ft|]. split; [exact Nt|]. now rewrite <- Nt.
Qed.

End IterationClaims.

(* ------------------------------------------------------------------------- *)
(** ** The claims on a whole run *)

Section RunClaims.

Variable World : Type.
Variable oracle :
  jsstring -> jsstring -> jsstring -> list MultiTurnMessage -> option jsstring -> Z ->
  World -> (JsThrown + ApiCallResult) * World.

(** With a provider configured, a run is its loop followed by one of the
    two [return]s. *)
Lemma runAgent_traced_configured env (options : AgentOptions World) s :
  getAvailableProviders None env <> [] ->
  exists key cfg model,
    runAgent_traced oracle env options s
    = match runAgent_loop oracle (tools options) key (getApiKey key None env) cfg model
              (buildAgentSystemPrompt (tools options))
              (Z.to_nat (budgetOf options)) 0 [firstMessage options] [] s with
      | (Normal flow, s') =>
          (Normal (reportOf (budgetOf options) (providerLabel model cfg) flow), s')
      | (Abrupt e, s') => (Abrupt e, s')
      end.
Proof.
  intros C. unfold runAgent_traced.
  destruct (getAvailableProviders None env) as [|key others] eqn:G; [contradiction|].
  destruct (runAgent_catalog_total env key others G) as (cfg & model & ms & -> & ->).
  exists key, cfg, model. unfold bind, ret.
  destruct (runAgent_loop _ _ _ _ _ _ _ _ _ _ _ s) as [[flow|e] s']; reflexivity.
Qed.

Lemma runAgent_of_traced env (options : AgentOptions World) s :
  runAgent oracle env options s
  = match runAgent_traced oracle env options s with
    | (Normal report, s') => (Normal (result report), s')
    | (Abrupt e, s') => (Abrupt e, s')
    end.
Proof.
  unfold runAgent, bind, ret.
  destruct (runAgent_traced oracle env options s) as [[report|e] s']; reflexivity.
Qed.

(** C2.  With a provider configured and every completion call replying, a
    run returns a result, whatever its tools do, and [totalSteps] is at most
    the step budget.  A tool that throws gives the observation
    "Tool error: <message>", recorded in the step and in the transcript, and
    the loop goes on. *)
Theorem run_returns_within_budget env (options : AgentOptions World) s :
  getAvailableProviders None env <> [] ->
  (forall pk mid sp msgs key mt w,
      exists resp w', oracle pk mid sp msgs key mt w = (inr resp, w')) ->
  (exists report s',
      runAgent_traced oracle env options s = (Normal report, s')
      /\ runAgent oracle env options s = (Normal (result report), s')
      /\ (totalSteps (result report) <= budgetOf options)%Z)
  /\ forall tools pk key cfg model sp i messages steps s0 resp w t e w',
       oracle pk (model_id model) sp messages key 2048%Z (world s0) = (inr resp, w) ->
       truthy (finalAnswer (parseAgentResponse (text resp))) = false ->
       truthy (action (parseAgentResponse (text resp))) = true ->
       find (fun t => Js.eqb (name t) (orEmpty (action (parseAgentResponse (text resp)))))
            tools = Some t ->
       execute t (orEmpty (actionInput (parseAgentResponse (text resp)))) w = (inl e, w') ->
       let observation := lit "Tool error: " ++ thrownText e in
       runAgent_iteration oracle tools pk key cfg model sp i messages steps s0
       = (Normal (Continue
                    (messages ++ [mkMsg assistant (text resp);
                                  observationMessage observation])
                    (steps ++ [mkStep (thought (parseAgentResponse (text resp)))
                                 (orEmpty (action (parseAgentResponse (text resp))))
                                 (orEmpty (actionInput (parseAgentResponse (text resp))))
                                 observation])),
          mkSys w' (events s0
                    ++ [CompletionCall messages;
                        ToolExecute (name t)
                          (orEmpty (actionInput (parseAgentResponse (text resp))))])).
Proof.
  intros C R. split.
  - destruct (runAgent_traced_configured env options s C) as (key & cfg & model & E).
    rewrite runAgent_of_traced, E.
    destruct (loop_total _ oracle (tools options) key (getApiKey key None env) cfg model
                (buildAgentSystemPrompt (tools options))
                (fun m w => R _ _ _ m _ _ w)
                (Z.to_nat (budgetOf options)) 0%Z [firstMessage options] [] s)
      as (flow & s' & L).
    rewrite L. eexists _, s'. split; [reflexivity|]. split; [reflexivity|].
    destruct flow as [r msgs|msgs steps]; cbn.
    + apply loop_return_bound in L.
      destruct (budgetOf options); cbn in L; lia.
    + lia.
  - intros tools pk key cfg model sp i messages steps s0 resp w t e w' H F A Ft X obs.
    rewrite (iteration_action _ _ _ _ _ _ _ _ _ _ _ _ _ _ H F A).
    rewrite (dispatch_found _ _ _ _ _ _ Ft). cbn [afterCall world events].
    rewrite X. subst obs. now rewrite <- !app_assoc.
Qed.

(** C8, as amended.  Without a configured provider a run throws the
    configuration error at once, with no call made.  Otherwise a run throws
    only what a completion call threw, right after that call: a tool that
    throws never ends the run, a provider that throws does. *)
Theorem run_throws_only_config_or_provider env (options : AgentOptions World) s :
  (getAvailableProviders None env = [] ->
   runAgent oracle env options s = (Abrupt (ThrownError NO_PROVIDER_MESSAGE), s))
  /\ forall e s',
       runAgent oracle env options s = (Abrupt e, s') ->
       (getAvailableProviders None env = []
        /\ e = ThrownError NO_PROVIDER_MESSAGE /\ s' = s)
       \/ (getAvailableProviders None env <> []
           /\ exists pk mid sp msgs key mt w evs,
                oracle pk mid sp msgs key mt w = (inl e, world s')
                /\ events s' = events s ++ evs ++ [CompletionCall msgs]).
Proof.
  assert (N : getAvailableProviders None env = [] ->
              runAgent oracle env options s
              = (Abrupt (ThrownError NO_PROVIDER_MESSAGE), s)).
  { intros G. rewrite runAgent_of_traced. unfold runAgent_traced. now rewrite G. }
  split; [exact N|].
  intros e s' H.
  destruct (getAvailableProviders None env) as [|k o] eqn:G.
  - left. rewrite (N eq_refl) in H. injection H as <- <-. now repeat split.
  - right. split; [discriminate|].
    assert (C : getAvailableProviders None env <> []) by (rewrite G; discriminate).
    destruct (runAgent_traced_configured env options s C) as (key & cfg & model & E).
    rewrite runAgent_of_traced, E in H.
    destruct (runAgent_loop _ _ _ _ _ _ _ _ _ _ _ s) as [[flow|e0] s1] eqn:L;
      [discriminate|].
    injection H as <- <-.
    destruct (loop_abrupt _ _ _ _ _ _ _ _ _ _ _ _ _ _ _ L) as (msgs & w & evs & A & Ev).
    now exists key, (model_id model), (buildAgentSystemPrompt (tools options)), msgs,
      (getApiKey key None env), 2048%Z, w, evs.
Qed.

End RunClaims.

(* ------------------------------------------------------------------------- *)
(** ** The theorems at concrete replies and runs *)

Ltac by_evaluation :=
  first [ reflexivity
        | let H := fresh in intro H; vm_compute in H; discriminate H ].

Lemma final_answer_takes_priority_witness :
  existsb isFinalLine (splitLines Scenario.both_markers) = true
  /\ afterFirst FINAL_ANSWER Scenario.both_markers = Some (lit " done")
  /\ finalAnswer (parseAgentResponse Scenario.both_markers) = Some (lit "done")
  /\ forall i messages steps s resp w,
       Scenario.scripted (lit "anthropic") (model_id Scenario.model)
         (buildAgentSystemPrompt Scenario.toolset) messages (Some (lit "sk-test"))
         2048%Z (world s) = (inr resp, w) ->
       text resp = Scenario.both_markers ->
       Scenario.iteration i messages steps s
       = (Normal (Return (mkResult steps (lit "done") (i + 1) Scenario.HAIKU)
                         (messages ++ [mkMsg assistant Scenario.both_markers])),
          mkSys w (events s ++ [CompletionCall messages])).
Proof.
  split; [reflexivity|]. split; [reflexivity|].
  apply (final_answer_takes_priority Scenario.World Scenario.scripted Scenario.toolset
           (lit "anthropic") (Some (lit "sk-test")) Scenario.cfg Scenario.model
           (buildAgentSystemPrompt Scenario.toolset) Scenario.both_markers (lit " done"));
    by_evaluation.
Defined.

(** C1, as stated, fails: after an "Action:" line, a "Final Answer:" with
    nothing behind it, or one inside a line, leaves the action in force and
    the tool is run. *)
Lemma action_before_final_marker_still_dispatches :
  splitLines Scenario.empty_answer
  = [lit "Action: list_available_models"; lit "Final Answer:"]
  /\ isActionLine (lit "Action: list_available_models") = true
  /\ isFinalLine (lit "Final Answer:") = true
  /\ parseAgentResponse Scenario.empty_answer
     = mkParsed [] (Some (lit "list_available_models")) None None
  /\ Scenario.iteration 0 Scenario.seed [] (Scenario.start [Scenario.empty_answer])
     = (Normal (Continue
                  (Scenario.seed ++ [mkMsg assistant Scenario.empty_answer;
                                     observationMessage (lit "{}")])
                  [mkStep [] (lit "list_available_models") [] (lit "{}")]),
        mkSys [] [CompletionCall Scenario.seed;
                  ToolExecute (lit "list_available_models") []])
  /\ splitLines Scenario.inline_answer
     = [lit "Action: list_available_models"; lit "So the Final Answer: 42"]
  /\ includes FINAL_ANSWER (lit "So the Final Answer: 42") = true
  /\ parseAgentResponse Scenario.inline_answer
     = mkParsed [] (Some (lit "list_available_models")) None None
  /\ Scenario.iteration 0 Scenario.seed [] (Scenario.start [Scenario.inline_answer])
     = (Normal (Continue
                  (Scenario.seed ++ [mkMsg assistant Scenario.inline_answer;
                                     observationMessage (lit "{}")])
                  [mkStep [] (lit "list_available_models") [] (lit "{}")]),
        mkSys [] [CompletionCall Scenario.seed;
                  ToolExecute (lit "list_available_models") []]).
Proof. repeat split; vm_compute; reflexivity. Qed.

Lemma blank_final_answer_is_absent_witness :
  afterFirst FINAL_ANSWER Scenario.empty_answer = Some []
  /\ finalAnswer (parseAgentResponse Scenario.empty_answer) = None
  /\ Scenario.iteration 0 Scenario.seed [] (Scenario.start [Scenario.empty_answer])
     = (Normal (Continue
                  (Scenario.seed ++ [mkMsg assistant Scenario.empty_answer;
                                     observationMessage (lit "{}")])
                  [mkStep [] (lit "list_available_models") [] (lit "{}")]),
        mkSys [] [CompletionCall Scenario.seed;
                  ToolExecute (lit "list_available_models") []]).
Proof.
  split; [reflexivity|].
  destruct (blank_final_answer_is_absent Scenario.World Scenario.scripted
              Scenario.toolset (lit "anthropic") (Some (lit "sk-test")) Scenario.cfg
              Scenario.model (buildAgentSystemPrompt Scenario.toolset)
              Scenario.empty_answer [] eq_refl eq_refl) as (F & It).
  split; [exact F|].
  exact (proj2 (It 0%Z Scenario.seed [] (Scenario.start [Scenario.empty_answer])
                  (Scenario.reply Scenario.empty_answer) [] eq_refl eq_refl)
           (inr (lit "{}")) [] eq_refl).
Defined.

Example blank_final_answer_nudge :
  Scenario.iteration 0 Scenario.seed [] (Scenario.start [Scenario.blank_answer_no_action])
  = (Normal (Continue
               (Scenario.seed ++ [mkMsg assistant Scenario.blank_answer_no_action;
                                  mkMsg user NUDGE])
               []),
     mkSys [] [CompletionCall Scenario.seed]).
Proof. vm_compute. reflexivity. Qed.

Lemma unknown_tool_is_reported_witness :
  find (fun t => Js.eqb (name t) (lit "frobnicate")) Scenario.toolset = None
  /\ Scenario.iteration 0 Scenario.seed [] (Scenario.start [Scenario.frobnicate])
     = (Normal (Continue
                  (Scenario.seed
                   ++ [mkMsg assistant Scenario.frobnicate;
                       observationMessage
                         (lit "Unknown tool: frobnicate. Available: list_available_models, broken")])
                  [mkStep (lit "try") (lit "frobnicate") (lit "1")
                     (lit "Unknown tool: frobnicate. Available: list_available_models, broken")]),
        mkSys [] [CompletionCall Scenario.seed])
  /\ includes (lit "Unknown tool: frobnicate")
       (lit "Unknown tool: frobnicate. Available: list_available_models, broken") = true.
Proof.
  split; [reflexivity|].
  destruct (unknown_tool_is_reported Scenario.World Scenario.scripted Scenario.toolset
              (lit "anthropic") (Some (lit "sk-test")) Scenario.cfg Scenario.model
              (buildAgentSystemPrompt Scenario.toolset)
              0%Z Scenario.seed [] (Scenario.start [Scenario.frobnicate])
              (Scenario.reply Scenario.frobnicate) [] (lit "frobnicate")
              eq_refl eq_refl eq_refl eq_refl) as (I & _ & P & _).
  split; [exact I|exact (P eq_refl)].
Defined.

Lemma transcript_grows_by_one_or_two_witness :
  (exists flow s',
     Scenario.iteration 0 Scenario.seed [] (Scenario.start [Scenario.call_broken])
     = (Normal flow, s')
     /\ match flow with
        | Return _ msgs =>
            msgs = Scenario.seed ++ [mkMsg assistant Scenario.call_broken]
            /\ truthy (finalAnswer (parseAgentResponse Scenario.call_broken)) = true
        | Continue msgs _ =>
            truthy (finalAnswer (parseAgentResponse Scenario.call_broken)) = false
            /\ exists u,
                 msgs = Scenario.seed ++ [mkMsg assistant Scenario.call_broken;
                                          mkMsg user u]
                 /\ (u = NUDGE \/ exists observation,
                                     mkMsg user u = observationMessage observation)
        end)
  /\ forall n flow s',
       Scenario.loop n 0%Z Scenario.seed [] (Scenario.start [Scenario.call_broken])
       = (Normal flow, s') ->
       exists added,
         flowMessages flow = Scenario.seed ++ added /\ List.length added <= 2 * n.
Proof.
  apply (transcript_grows_by_one_or_two Scenario.World Scenario.scripted Scenario.toolset
           (lit "anthropic") (Some (lit "sk-test")) Scenario.cfg Scenario.model
           (buildAgentSystemPrompt Scenario.toolset)
           0%Z Scenario.seed [] (Scenario.start [Scenario.call_broken])
           (Scenario.reply Scenario.call_broken) []).
  reflexivity.
Defined.

Lemma last_action_line_wins_witness :
  splitLines Scenario.two_actions
  = [lit "Action: broken"] ++ lit "Action: list_available_models"
    :: [lit "Action Input: now"]
  /\ action (parseAgentResponse Scenario.two_actions) = Some (lit "list_available_models")
  /\ forall i messages steps s resp w,
       Scenario.scripted (lit "anthropic") (model_id Scenario.model)
         (buildAgentSystemPrompt Scenario.toolset) messages (Some (lit "sk-test"))
         2048%Z (world s) = (inr resp, w) ->
       text resp = Scenario.two_actions ->
       exists flow s',
         Scenario.iteration i messages steps s = (Normal flow, s')
         /\ (events s' = events s ++ [CompletionCall messages]
             \/ exists t,
                  find (fun t => Js.eqb (name t) (lit "list_available_models"))
                       Scenario.toolset = Some t
                  /\ name t = lit "list_available_models"
                  /\ events s'
                     = events s
                       ++ [CompletionCall messages;
                           ToolExecute (lit "list_available_models") (lit "now")]).
Proof.
  split; [reflexivity|].
  exact (proj2 (last_action_line_wins Scenario.World Scenario.scripted Scenario.toolset
                  (lit "anthropic") (Some (lit "sk-test")) Scenario.cfg Scenario.model
                  (buildAgentSystemPrompt Scenario.toolset) Scenario.two_actions
                  [lit "Action: broken"] (lit "Action: list_available_models")
                  [lit "Action Input: now"] eq_refl eq_refl eq_refl eq_refl)).
Defined.

Example two_actions_run_one_tool :
  Scenario.iteration 0 Scenario.seed [] (Scenario.start [Scenario.two_actions])
  = (Normal (Continue
               (Scenario.seed ++ [mkMsg assistant Scenario.two_actions;
                                  observationMessage (lit "{}")])
               [mkStep [] (lit "list_available_models") (lit "now") (lit "{}")]),
     mkSys [] [CompletionCall Scenario.seed;
               ToolExecute (lit "list_available_models") (lit "now")]).
Proof. vm_compute. reflexivity. Qed.

Lemma scripted_always_replies :
  forall pk mid sp msgs key mt w,
  exists resp w', Scenario.scripted pk mid sp msgs key mt w = (inr resp, w').
Proof. intros pk mid sp msgs key mt [|r rest]; eexists _, _; reflexivity. Defined.

Lemma run_returns_within_budget_witness :
  getAvailableProviders None Scenario.env1 <> []
  /\ exists report s',
       runAgent_traced Scenario.scripted Scenario.env1 (Scenario.opts 3)
         (Scenario.start [Scenario.call_broken]) = (Normal report, s')
       /\ runAgent Scenario.scripted Scenario.env1 (Scenario.opts 3)
            (Scenario.start [Scenario.call_broken]) = (Normal (result report), s')
       /\ (totalSteps (result report) <= 3)%Z.
Proof.
  split; [by_evaluation|].
  apply (run_returns_within_budget Scenario.World Scenario.scripted Scenario.env1
           (Scenario.opts 3) (Scenario.start [Scenario.call_broken])).
  - by_evaluation.
  - exact scripted_always_replies.
Defined.

(** A tool that throws: the error text becomes the observation, and the run
    goes on to use up its budget. *)
Example run_with_broken_tool :
  fst (runAgent Scenario.scripted Scenario.env1 (Scenario.opts 3)
         (Scenario.start [Scenario.call_broken]))
  = Normal (mkResult
              [mkStep (lit "go") (lit "broken") (lit "1") (lit "Tool error: boom")]
              (lit "Agent completed 1 steps. Tools used: broken.") 3 Scenario.HAIKU).
Proof. vm_compute. reflexivity. Qed.

Lemma run_throws_only_config_or_provider_witness :
  getAvailableProviders None Scenario.noEnv = []
  /\ runAgent Scenario.scripted Scenario.noEnv (Scenario.opts 8)
       (Scenario.start [Scenario.call_broken])
     = (Abrupt (ThrownError NO_PROVIDER_MESSAGE), Scenario.start [Scenario.call_broken]).
Proof.
  split; [reflexivity|].
  apply (proj1 (run_throws_only_config_or_provider Scenario.World Scenario.scripted
                  Scenario.noEnv (Scenario.opts 8)
                  (Scenario.start [Scenario.call_broken]))).
  reflexivity.
Defined.

(** C8, as stated, fails: a completion call that throws ends the run with
    that error. *)
Lemma provider_failure_ends_the_run :
  getAvailableProviders None Scenario.env1 = [lit "anthropic"]
  /\ runAgent Scenario.failing Scenario.env1 (Scenario.opts 8) (Scenario.start [])
     = (Abrupt (ThrownError (lit "Anthropic API 500: overloaded")),
        mkSys [] [CompletionCall [firstMessage (Scenario.opts 8)]]).
Proof. split; vm_compute; reflexivity. Qed.

(* ------------------------------------------------------------------------- *)
(** ** The provider catalog: discovery, keys, models, dispatch *)

Lemma lookupProvider_In k cfg : In (k, cfg) PROVIDERS -> lookupProvider k = Some cfg.
Proof.
  unfold PROVIDERS. intros [H|[H|[H|[]]]]; injection H as <- <-; vm_compute; reflexivity.
Qed.

Lemma catalog_key_entry key :
  In key (List.map fst PROVIDERS) -> exists cfg, In (key, cfg) PROVIDERS.
Proof.
  intros H. apply in_map_iff in H as ((k & cfg) & <- & Hin). now exists cfg.
Qed.

Lemma available_has_key apiKeys env key :
  In key (getAvailableProviders apiKeys env) ->
  In key (List.map fst PROVIDERS) /\ truthy (getApiKey key apiKeys env) = true.
Proof.
  unfold getAvailableProviders.
  intros H. apply in_map_iff in H as ((k & cfg) & <- & Hin).
  apply filter_In in Hin as [Hin Hf]. cbn [fst snd] in *.
  split; [apply in_map_iff; now exists (k, cfg)|].
  unfold getApiKey. destruct (truthy (explicitKey apiKeys k)) eqn:E; [exact E|].
  now rewrite (lookupProvider_In _ _ Hin).
Qed.

(** X1.  A provider is listed by [getAvailableProviders] exactly when it is
    in the catalog and [getApiKey] gives a non-empty key for it, with the
    same explicit keys and environment: the key of a listed provider is
    never missing. *)
Theorem available_iff_key apiKeys env key :
  In key (getAvailableProviders apiKeys env)
  <-> In key (List.map fst PROVIDERS) /\ truthy (getApiKey key apiKeys env) = true.
Proof.
  split; [apply available_has_key|].
  intros [Hk Ht]. destruct (catalog_key_entry key Hk) as (cfg & Hin).
  unfold getAvailableProviders.
  apply in_map_iff. exists (key, cfg). split; [reflexivity|].
  apply filter_In. split; [exact Hin|]. cbn [fst snd].
  unfold getApiKey in Ht. destruct (truthy (explicitKey apiKeys key)); [reflexivity|].
  now rewrite (lookupProvider_In _ _ Hin) in Ht.
Qed.

Lemma getAllModels_In filter m :
  In m (getAllModels filter)
  <-> exists key cfg model,
        In (key, cfg) PROVIDERS /\ In model (models cfg)
        /\ match filter with Some f => existsb (Js.eqb key) f = true | None => True end
        /\ m = mkListed (model_id model) (model_label model) key (cfg_name cfg).
Proof.
  unfold getAllModels. rewrite in_flat_map. split.
  - intros ((key & cfg) & Hin & Hm). cbn [fst snd] in Hm.
    destruct filter as [f|].
    + destruct (existsb (Js.eqb key) f) eqn:E; cbn [negb] in Hm; [|contradiction].
      apply in_map_iff in Hm as (model & <- & Hmodel). now exists key, cfg, model.
    + apply in_map_iff in Hm as (model & <- & Hmodel). now exists key, cfg, model.
  - intros (key & cfg & model & Hin & Hmodel & Hf & ->).
    exists (key, cfg). split; [exact Hin|]. cbn [fst snd].
    destruct filter as [f|]; [rewrite Hf; cbn [negb]|];
      apply in_map_iff; now exists model.
Qed.

Lemma existsb_eqb_In key f : existsb (Js.eqb key) f = true <-> In key f.
Proof.
  rewrite existsb_exists. split.
  - intros (x & Hx & E). apply jseqb_eq in E. now subst.
  - intros H. exists key. split; [exact H|]. now apply jseqb_eq.
Qed.

(** X2.  [getAllModels(filter)] lists exactly the models of [getAllModels()]
    whose provider key is in the filter, and in the same order; every listed
    model carries a key of the catalog. *)
Theorem getAllModels_filter f :
  getAllModels (Some f)
  = filter (fun m => existsb (Js.eqb (lm_provider m)) f) (getAllModels None)
  /\ forall m, In m (getAllModels None) -> In (lm_provider m) (List.map fst PROVIDERS).
Proof.
  split.
  - unfold getAllModels, PROVIDERS.
    cbn [flat_map fst snd models List.map app filter lm_provider].
    destruct (existsb (Js.eqb (lit "anthropic")) f);
      destruct (existsb (Js.eqb (lit "openai")) f);
      destruct (existsb (Js.eqb (lit "gemini")) f); reflexivity.
  - intros m H. apply getAllModels_In in H as (key & cfg & model & Hin & _ & _ & ->).
    apply in_map_iff. now exists (key, cfg).
Qed.

Section Dispatch.

Variable World : Type.
Variable callAnthropic callOpenAI callGemini :
  jsstring -> jsstring -> jsstring -> Z -> World -> (JsThrown + ApiCallResult) * World.

Local Abbreviation call := (callProvider callAnthropic callOpenAI callGemini).

Lemma callProvider_catalog providerKey modelId prompt apiKey maxTokens :
  In providerKey (List.map fst PROVIDERS) ->
  call providerKey modelId prompt apiKey maxTokens
  = (if Js.eqb providerKey (lit "anthropic") then callAnthropic
     else if Js.eqb providerKey (lit "openai") then callOpenAI
     else callGemini) modelId prompt apiKey maxTokens.
Proof. unfold callProvider. intros [<-|[<-|[<-|[]]]]; reflexivity. Qed.

(** X3.  [callProvider] hands every provider of the catalog to a vendor
    caller, and for any other key throws "Unknown provider: <key>" and
    leaves the world as it was. *)
Theorem callProvider_covers_catalog providerKey modelId prompt apiKey maxTokens :
  (In providerKey (List.map fst PROVIDERS) ->
   call providerKey modelId prompt apiKey maxTokens
   = (if Js.eqb providerKey (lit "anthropic") then callAnthropic
      else if Js.eqb providerKey (lit "openai") then callOpenAI
      else callGemini) modelId prompt apiKey maxTokens)
  /\ (~ In providerKey (List.map fst PROVIDERS) ->
      forall w,
        call providerKey modelId prompt apiKey maxTokens w
        = (inl (ThrownError (lit "Unknown provider: " ++ providerKey)), w)).
Proof.
  split; [apply callProvider_catalog|].
  intros H w. unfold callProvider.
  destruct (Js.eqb providerKey (lit "anthropic")) eqn:A.
  { apply jseqb_eq in A. subst. exfalso. apply H. vm_compute. auto. }
  destruct (Js.eqb providerKey (lit "openai")) eqn:O.
  { apply jseqb_eq in O. subst. exfalso. apply H. vm_compute. auto. }
  destruct (Js.eqb providerKey (lit "gemini")) eqn:G.
  { apply jseqb_eq in G. subst. exfalso. apply H. vm_compute. auto. }
  reflexivity.
Qed.

(** X4.  Provider discovery as [runBenchmark] does it: every model listed
    by [getAllModels] for the providers of [getAvailableProviders] has a
    non-empty key from [getApiKey], and [callProvider] does not answer
    "Unknown provider" for it. *)
Theorem listed_models_are_callable apiKeys env m modelId prompt apiKey maxTokens :
  In m (getAllModels (Some (getAvailableProviders apiKeys env))) ->
  truthy (getApiKey (lm_provider m) apiKeys env) = true
  /\ call (lm_provider m) modelId prompt apiKey maxTokens
     = (if Js.eqb (lm_provider m) (lit "anthropic") then callAnthropic
        else if Js.eqb (lm_provider m) (lit "openai") then callOpenAI
        else callGemini) modelId prompt apiKey maxTokens.
Proof.
  intros H. apply getAllModels_In in H as (key & cfg & model & Hin & _ & Hf & ->).
  cbn [lm_provider]. apply existsb_eqb_In in Hf.
  apply available_has_key in Hf as [Hk Ht]. split; [exact Ht|].
  now apply callProvider_catalog.
Qed.

End Dispatch.

(* ------------------------------------------------------------------------- *)
(** ** The tool factories *)

Lemma find_unique_name {World} (tools : list (AgentTool World)) :
  NoDup (List.map name tools) ->
  forall t, In t tools -> find (fun u => Js.eqb (name u) (name t)) tools = Some t.
Proof.
  induction tools as [|u tools IH]; intros N t H; [contradiction|].
  cbn [List.map] in N. apply NoDup_cons_iff in N as [Nu N].
  cbn [find]. destruct (Js.eqb (name u) (name t)) eqn:E.
  - apply jseqb_eq in E. destruct H as [->|H]; [reflexivity|].
    exfalso. apply Nu. rewrite E. now apply in_map.
  - destruct H as [->|H].
    + assert (T : Js.eqb (name t) (name t) = true) by now apply jseqb_eq.
      congruence.
    + now apply IH.
Qed.

Ltac distinct_names :=
  match goal with
  | |- NoDup ?l => let v := eval vm_compute in l in change (NoDup v)
  end;
  repeat (constructor;
          [ cbn [In]; intros H; repeat destruct H as [H|H];
            try discriminate H; try contradiction | ]);
  constructor.

Lemma compare_tools_list {World} (bodies : ToolBodies World) :
  allDefined (createCompareTools bodies)
  = Some (filter (fun t => negb (Js.eqb (name t) (lit "design_test_suite")))
                 (createBenchmarkTools bodies))
  /\ List.map name
       (filter (fun t => negb (Js.eqb (name t) (lit "design_test_suite")))
               (createBenchmarkTools bodies))
     = COMPARE_NAMES.
Proof. split; vm_compute; reflexivity. Qed.

(** X5.  Whatever the tools do, [createCompareTools] has no [undefined]
    entry: it is [createBenchmarkTools] without "design_test_suite", in the
    same order.  The names of the benchmark tools are pairwise distinct, so
    the lookup by name in [runAgent] reaches every tool of either list. *)
Theorem createCompareTools_defined {World} (bodies : ToolBodies World) :
  allDefined (createCompareTools bodies)
  = Some (filter (fun t => negb (Js.eqb (name t) (lit "design_test_suite")))
                 (createBenchmarkTools bodies))
  /\ NoDup (List.map name (createBenchmarkTools bodies))
  /\ (forall t, In t (createBenchmarkTools bodies) ->
      find (fun u => Js.eqb (name u) (name t)) (createBenchmarkTools bodies) = Some t)
  /\ forall tools t,
       allDefined (createCompareTools bodies) = Some tools -> In t tools ->
       find (fun u => Js.eqb (name u) (name t)) tools = Some t.
Proof.
  destruct (compare_tools_list bodies) as (A & _).
  assert (N : NoDup (List.map name (createBenchmarkTools bodies))) by distinct_names.
  split; [exact A|]. split; [exact N|]. split.
  - now apply find_unique_name.
  - intros tools t H Hin. rewrite A in H. injection H as <-.
    apply find_unique_name; [distinct_names|exact Hin].
Qed.

(* ------------------------------------------------------------------------- *)
(** ** Command-line helpers: [getArg], [formatAgentResult], [cmdCompare] *)

Lemma arrayIndexOfFrom_first x pre rest : forall pos,
  ~ In x pre ->
  arrayIndexOfFrom x (pre ++ x :: rest) pos = (pos + Z.of_nat (List.length pre))%Z.
Proof.
  induction pre as [|y pre IH]; intros pos H; cbn [app arrayIndexOfFrom List.length].
  - assert (E : Js.eqb x x = true) by now apply jseqb_eq. rewrite E. lia.
  - destruct (Js.eqb y x) eqn:E.
    + apply jseqb_eq in E. subst. exfalso. apply H. now left.
    + rewrite IH by (intros K; apply H; now right). lia.
Qed.

Lemma arrayIndexOfFrom_absent x xs : forall pos,
  ~ In x xs -> arrayIndexOfFrom x xs pos = (-1)%Z.
Proof.
  induction xs as [|y xs IH]; intros pos H; [reflexivity|]. cbn [arrayIndexOfFrom].
  destruct (Js.eqb y x) eqn:E.
  - apply jseqb_eq in E. subst. exfalso. apply H. now left.
  - apply IH. intros K. apply H. now right.
Qed.

Lemma first_occurrence (x : jsstring) xs :
  In x xs -> exists pre rest, xs = pre ++ x :: rest /\ ~ In x pre.
Proof.
  induction xs as [|y xs IH]; intros H; [contradiction|].
  destruct (list_eq_dec N.eq_dec y x) as [->|D].
  - exists [], xs. now split.
  - destruct H as [->|H]; [contradiction|].
    destruct (IH H) as (pre & rest & -> & N).
    exists (y :: pre), rest. split; [reflexivity|]. intros [K|K]; auto.
Qed.

Lemma arrayAt_after pre (x : jsstring) rest :
  arrayAt (pre ++ x :: rest) (0 + Z.of_nat (List.length pre) + 1) = hd_error rest.
Proof.
  unfold arrayAt.
  replace (0 + Z.of_nat (List.length pre) + 1 <? 0)%Z with false
    by (symmetry; apply Z.ltb_ge; lia).
  replace (Z.to_nat (0 + Z.of_nat (List.length pre) + 1)) with (List.length pre + 1) by lia.
  rewrite nth_error_app2 by lia.
  replace (List.length pre + 1 - List.length pre) with 1 by lia.
  now destruct rest.
Qed.

Lemma getArg_first pre flag rest :
  ~ In flag pre ->
  getArg (pre ++ flag :: rest) flag
  = match rest with
    | (c :: v) :: _ => Some (c :: v)
    | _ => None
    end.
Proof.
  intros H. unfold getArg, arrayIndexOf.
  rewrite arrayIndexOfFrom_first by exact H. rewrite arrayAt_after.
  replace (0 + Z.of_nat (List.length pre) =? -1)%Z with false
    by (symmetry; apply Z.eqb_neq; lia).
  destruct rest as [|[|c v] rest]; reflexivity.
Qed.

(** X6.  [getArg] gives the argument right after the first occurrence of
    the flag, and only when that argument is a non-empty string: a flag that
    is absent, last, or followed by "" gives [undefined], and a later
    occurrence of the flag is never looked at. *)
Theorem getArg_first_occurrence args flag v :
  getArg args flag = Some v
  <-> v <> [] /\ exists pre post, args = pre ++ flag :: v :: post /\ ~ In flag pre.
Proof.
  split.
  - intros H. destruct (in_dec (list_eq_dec N.eq_dec) flag args) as [I|I].
    + destruct (first_occurrence _ _ I) as (pre & rest & -> & N).
      rewrite (getArg_first _ _ _ N) in H.
      destruct rest as [|[|c w] rest]; try discriminate. injection H as <-.
      split; [discriminate|]. now exists pre, rest.
    + unfold getArg, arrayIndexOf in H.
      rewrite (arrayIndexOfFrom_absent _ _ _ I) in H. discriminate.
  - intros (Hv & pre & post & -> & N). rewrite (getArg_first _ _ _ N).
    destruct v; [contradiction|reflexivity].
Qed.

Lemma sliceRange_prefix (s : jsstring) n :
  (0 <= n <= Z.of_nat (List.length s))%Z ->
  sliceRange 0 n s = firstn (Z.to_nat n) s.
Proof.
  intros H. unfold sliceRange. cbn [Z.ltb Z.compare].
  replace (n <? 0)%Z with false by (symmetry; apply Z.ltb_ge; lia).
  rewrite !Z.min_l by lia. now rewrite Z.sub_0_r.
Qed.

(** X7.  The trace shows an observation of at most 300 code units as it is,
    and a longer one cut to its first 300 code units followed by "...": the
    text shown has at most 303 code units and agrees with the observation on
    the first 300. *)
Theorem preview_truncates observation :
  preview observation
  = (if (300 <? Z.of_nat (List.length observation))%Z
     then firstn 300 observation ++ lit "..."
     else observation)
  /\ List.length (preview observation) <= 303
  /\ firstn 300 (preview observation) = firstn 300 observation.
Proof.
  unfold preview. destruct (300 <? Z.of_nat (List.length observation))%Z eqn:E.
  - apply Z.ltb_lt in E.
    rewrite (sliceRange_prefix observation 300) by lia.
    change (Z.to_nat 300) with 300.
    split; [reflexivity|]. split.
    + rewrite length_app, length_firstn.
      change (List.length (lit "...")) with 3. lia.
    + rewrite firstn_app, length_firstn.
      replace (300 - Nat.min 300 (List.length observation)) with 0 by lia.
      rewrite firstn_firstn. cbn [firstn]. now rewrite app_nil_r.
  - apply Z.ltb_ge in E. split; [reflexivity|]. split; [lia|reflexivity].
Qed.

Lemma join_app sep x xs y ys :
  join sep ((x :: xs) ++ y :: ys) = join sep (x :: xs) ++ sep ++ join sep (y :: ys).
Proof.
  revert x. induction xs as [|z zs IH]; intros x.
  - reflexivity.
  - cbn [app]. rewrite !join_cons. cbn [app] in IH. rewrite IH.
    now rewrite <- !app_assoc.
Qed.

(** A count of steps, like every integer below 2^53 in absolute value, is
    printed in plain decimal digits. *)
Lemma ofZ_plain n :
  (Z.abs n < 2 ^ 53)%Z ->
  ofZ n = (if (n <? 0)%Z then lit "-" else [])
          ++ lit (NilZero.string_of_uint (N.to_uint (Z.to_N (Z.abs n)))).
Proof.
  intros H. unfold ofZ. destruct (n =? 0)%Z eqn:E.
  - apply Z.eqb_eq in E. now subst n.
  - unfold toNumber, shortestDecimal, showDecimal.
    assert (A : (Z.abs n <? 2 ^ 53)%Z = true) by now apply Z.ltb_lt.
    rewrite A, A.
    assert (B : (Z.abs n <? 10 ^ 21)%Z = true).
    { apply Z.ltb_lt. eapply Z.lt_trans; [exact H|]. reflexivity. }
    now rewrite B.
Qed.

(** X8.  The formatted result always ends with the final-answer block: the
    heading, the rule, the final answer in full, and the line with
    [totalSteps] and the provider.  Without steps nothing comes before it;
    with steps the trace comes first, headed by [totalSteps].  [totalSteps]
    is printed as the template literal prints a number: in plain decimal
    digits when it is below 2^53 in absolute value. *)
Theorem formatAgentResult_ends_with_answer result :
  let block :=
    lit "  Final Answer:" ++ [NL] ++ RULE ++ [NL] ++ res_finalAnswer result
    ++ [NL] ++ [NL] ++ lit "  ---" ++ [NL]
    ++ lit "  Agent: " ++ ofZ (totalSteps result) ++ lit " steps | Provider: "
    ++ provider result in
  (steps result = [] -> formatAgentResult result = block)
  /\ (steps result <> [] ->
      formatAgentResult result
      = join [NL]
          ([ [NL] ++ lit "  Agent Trace (" ++ ofZ (totalSteps result) ++ lit " steps):";
             RULE ] ++ traceLines 0 (steps result))
        ++ [NL] ++ block)
  /\ List.length (traceLines 0 (steps result)) = 4 * List.length (steps result)
  /\ ((Z.abs (totalSteps result) < 2 ^ 53)%Z ->
      ofZ (totalSteps result)
      = (if (totalSteps result <? 0)%Z then lit "-" else [])
        ++ lit (NilZero.string_of_uint
                  (N.to_uint (Z.to_N (Z.abs (totalSteps result)))))).
Proof.
  intros block. unfold formatAgentResult, formatLines. split; [|split; [|split]].
  4: apply ofZ_plain.
  - intros ->. cbn [app]. rewrite !join_cons. cbn [join]. subst block.
    now rewrite <- ?app_assoc.
  - intros H. destruct (steps result) as [|st sts] eqn:E; [contradiction|].
    set (head := [NL] ++ lit "  Agent Trace (" ++ ofZ (totalSteps result) ++ lit " steps):").
    change (([head; RULE] ++ traceLines 0 (st :: sts)))
      with (head :: (RULE :: traceLines 0 (st :: sts))).
    rewrite join_app. apply f_equal. apply f_equal.
    rewrite !join_cons. cbn [join]. subst block. now rewrite <- ?app_assoc.
  - generalize 0 at 1. induction (steps result) as [|st sts IH]; intros i; [reflexivity|].
    cbn [traceLines]. rewrite length_app, IH. cbn. lia.
Qed.

Lemma collectModelArgs_facts : forall n rest,
  List.length rest <= n ->
  Forall (fun a => startsWith (lit "--") a = false) (collectModelArgs rest)
  /\ incl (collectModelArgs rest) rest
  /\ List.length (collectModelArgs rest) <= List.length rest.
Proof.
  induction n as [|n IH]; intros rest L.
  - destruct rest; [|cbn in L; lia]. cbn. repeat split; auto. apply incl_nil_l.
  - destruct rest as [|a more]; [cbn; repeat split; auto; apply incl_nil_l|].
    cbn [collectModelArgs]. cbn [List.length] in L.
    destruct (startsWith (lit "--") a) eqn:E.
    + destruct more as [|v more'].
      * cbn. repeat split; auto. apply incl_nil_l.
      * cbn [List.length] in L.
        destruct (IH more' ltac:(lia)) as (F & I & Len).
        split; [exact F|]. split.
        -- intros x Hx. right. right. now apply I.
        -- cbn [List.length]. lia.
    + destruct (IH more ltac:(lia)) as (F & I & Len).
      split; [now constructor|]. split.
      * intros x [->|Hx]; [now left|right; now apply I].
      * cbn [List.length]. lia.
Qed.

(** X9.  The model names that [compare] collects are arguments after the
    command, none of them begins with "--", and the argument right after a
    flag is never among them unless it occurs elsewhere; without any flag
    they are all the arguments after the command. *)
Theorem collectModelArgs_skips_flags rest :
  Forall (fun a => startsWith (lit "--") a = false) (collectModelArgs rest)
  /\ incl (collectModelArgs rest) rest
  /\ List.length (collectModelArgs rest) <= List.length rest
  /\ (existsb (startsWith (lit "--")) rest = false -> collectModelArgs rest = rest)
  /\ forall flag value more,
       startsWith (lit "--") flag = true ->
       collectModelArgs (flag :: value :: more) = collectModelArgs more.
Proof.
  destruct (collectModelArgs_facts (List.length rest) rest (le_n _)) as (F & I & L).
  split; [exact F|]. split; [exact I|]. split; [exact L|]. split.
  - induction rest as [|a more IH]; [reflexivity|].
    cbn [existsb collectModelArgs]. intros H. apply orb_false_iff in H as [-> H].
    f_equal. apply IH; try assumption.
    + apply (collectModelArgs_facts (List.length more) more (le_n _)).
    + apply (collectModelArgs_facts (List.length more) more (le_n _)).
    + apply (collectModelArgs_facts (List.length more) more (le_n _)).
  - intros flag value more H. cbn [collectModelArgs]. now rewrite H.
Qed.

(* ------------------------------------------------------------------------- *)
(** ** More on [trim] *)

Lemma trimStart_blank s : isBlank s = true -> trimStart s = [].
Proof.
  induction s as [|c s IH]; [reflexivity|]. cbn. intros H.
  apply andb_true_iff in H as [-> H]. now apply IH.
Qed.

Lemma trimStart_app x y :
  trimStart (x ++ y) = if isBlank x then trimStart y else trimStart x ++ y.
Proof.
  induction x as [|c x IH]; [reflexivity|]. cbn.
  destruct (isWhiteSpace c); [exact IH|reflexivity].
Qed.

Lemma isBlank_app x y : isBlank (x ++ y) = isBlank x && isBlank y.
Proof. apply forallb_app. Qed.

Lemma isBlank_rev x : isBlank (rev x) = isBlank x.
Proof.
  induction x as [|c x IH]; [reflexivity|]. cbn [rev].
  rewrite isBlank_app, IH. cbn. rewrite andb_true_r. apply andb_comm.
Qed.

Lemma trimEnd_blank s : isBlank s = true -> trimEnd s = [].
Proof.
  intros H. unfold trimEnd. rewrite trimStart_blank; [reflexivity|].
  now rewrite isBlank_rev.
Qed.

Lemma trimEnd_app x y :
  trimEnd (x ++ y) = if isBlank y then trimEnd x else x ++ trimEnd y.
Proof.
  unfold trimEnd. rewrite rev_app_distr, trimStart_app, isBlank_rev.
  destruct (isBlank y); [reflexivity|].
  now rewrite rev_app_distr, rev_involutive.
Qed.

Lemma trimEnd_blank_suffix s : exists ws, s = trimEnd s ++ ws /\ isBlank ws = true.
Proof.
  unfold trimEnd. destruct (trimStart_blank_prefix (rev s)) as (ws & H & B).
  exists (rev ws). split.
  - rewrite <- rev_app_distr, <- H. now rewrite rev_involutive.
  - now rewrite isBlank_rev.
Qed.

Lemma trimStart_blank_iff s : isBlank s = true <-> trimStart s = [].
Proof.
  split; [apply trimStart_blank|].
  induction s as [|c s IH]; [reflexivity|]. cbn.
  destruct (isWhiteSpace c); [exact IH|discriminate].
Qed.

(** Trimming the end first does not change the trimmed string. *)
Lemma trim_trimEnd s : trim (trimEnd s) = trim s.
Proof.
  destruct (trimEnd_blank_suffix s) as (ws & H & B).
  rewrite H at 2. unfold trim. rewrite trimStart_app.
  destruct (isBlank (trimEnd s)) eqn:E.
  - rewrite (trimStart_blank _ B), (trimStart_blank _ E). reflexivity.
  - now rewrite trimEnd_app, B.
Qed.

(** A trimmed string does not begin with a blank. *)
Lemma trim_first s :
  trim s = [] \/ exists c r, trim s = c :: r /\ isWhiteSpace c = false.
Proof.
  unfold trim. destruct (trimStart s) as [|c r] eqn:E; [now left|].
  assert (C : isWhiteSpace c = false).
  { revert E. induction s as [|d s IH]; [discriminate|]. cbn.
    destruct (isWhiteSpace d) eqn:D; [exact IH|]. now intros [= <- _]. }
  right. change (c :: r) with ([c] ++ r). rewrite trimEnd_app.
  destruct (isBlank r).
  - exists c, []. split; [|exact C]. change [c] with ([] ++ [c]). now apply trimEnd_fixed.
  - now exists c, (trimEnd r).
Qed.

Lemma trim_idempotent s : trim (trim s) = trim s.
Proof.
  destruct (trim_first s) as [E|(c & r & E & C)]; [now rewrite E|].
  unfold trim at 1. rewrite E. cbn [trimStart]. rewrite C, <- E.
  unfold trim. destruct (trimEnd_last (trimStart s)) as [Z|(s' & d & Z & D)].
  - now rewrite Z.
  - rewrite Z. now apply trimEnd_fixed.
Qed.

Lemma trim_skips_blank ws s : isBlank ws = true -> trim (ws ++ s) = trim s.
Proof. intros B. unfold trim. now rewrite trimStart_app, B. Qed.

(* ------------------------------------------------------------------------- *)
(** ** More on the parser *)

Lemma thought_excludes t :
  startsWith THOUGHT t = true ->
  startsWith ACTION t = false /\ startsWith ACTION_INPUT t = false
  /\ startsWith FINAL_ANSWER t = false.
Proof. intros H. marker_split H. repeat split; reflexivity. Qed.

Lemma action_guard l : isActionLine l = startsWith ACTION (trim l).
Proof.
  unfold isActionLine. destruct (startsWith ACTION (trim l)) eqn:A; [|reflexivity].
  now destruct (action_excludes _ A) as (_ & -> & _).
Qed.

Lemma only_kind l :
  (isThoughtLine l = true ->
   isActionLine l = false /\ isActionInputLine l = false /\ isFinalLine l = false)
  /\ (isActionLine l = true ->
      isThoughtLine l = false /\ isActionInputLine l = false /\ isFinalLine l = false)
  /\ (isActionInputLine l = true ->
      isThoughtLine l = false /\ isActionLine l = false /\ isFinalLine l = false).
Proof.
  rewrite action_guard. unfold isThoughtLine, isActionInputLine, isFinalLine.
  split; [|split]; intros H.
  - now destruct (thought_excludes _ H) as (-> & -> & ->).
  - now destruct (action_excludes _ H) as (-> & -> & ->).
  - now destruct (action_input_excludes _ H) as (-> & -> & ->).
Qed.

(** X10.  A line is of at most one of the four kinds the parser acts on,
    so the order of its tests does not matter; in particular the test that
    an "Action:" line does not begin with "Action Input:" never fails. *)
Theorem line_kinds_exclusive l :
  Nat.b2n (isThoughtLine l) + Nat.b2n (isActionLine l)
  + Nat.b2n (isActionInputLine l) + Nat.b2n (isFinalLine l) <= 1
  /\ isActionLine l = startsWith ACTION (trim l).
Proof.
  split; [|apply action_guard].
  destruct (only_kind l) as (T & A & I).
  destruct (isThoughtLine l) eqn:ET.
  { destruct (T eq_refl) as (-> & -> & ->). cbn. lia. }
  destruct (isActionLine l) eqn:EA.
  { destruct (A eq_refl) as (_ & -> & ->). cbn. lia. }
  destruct (isActionInputLine l) eqn:EI.
  { destruct (I eq_refl) as (_ & _ & ->). cbn. lia. }
  destruct (isFinalLine l); cbn; lia.
Qed.

Lemma scan_trimmed text : forall ls st, trimmedVars st -> trimmedVars (scanLines text ls st).
Proof.
  induction ls as [|l ls IH]; intros st (T & A & I & F); [now repeat split|].
  destruct (isFinalLine l) eqn:E.
  - rewrite scan_final_line by exact E. unfold withFinal, finalText, trimmedVars.
    cbn [v_thought v_action v_actionInput v_finalAnswer].
    auto using trim_idempotent.
  - rewrite scan_other_line by exact E. apply IH. unfold updateVars, trimmedVars.
    destruct (isThoughtLine l), (isActionLine l), (isActionInputLine l);
      cbn [v_thought v_action v_actionInput v_finalAnswer];
      auto using trim_idempotent.
Qed.

(** X11.  Every string the parser returns is trimmed, and an action, an
    action input or a final answer that it returns is not empty. *)
Theorem parser_output_trimmed raw :
  trim (thought (parseAgentResponse raw)) = thought (parseAgentResponse raw)
  /\ (forall a, action (parseAgentResponse raw) = Some a -> a <> [] /\ trim a = a)
  /\ (forall i, actionInput (parseAgentResponse raw) = Some i -> i <> [] /\ trim i = i)
  /\ (forall f, finalAnswer (parseAgentResponse raw) = Some f -> f <> [] /\ trim f = f).
Proof.
  destruct (scan_trimmed raw (splitLines raw) initialVars) as (T & A & I & F);
    [now repeat split|].
  fold (parseVars raw) in T, A, I, F.
  change (thought (parseAgentResponse raw)) with (v_thought (parseVars raw)).
  change (action (parseAgentResponse raw)) with (orUndefined (v_action (parseVars raw))).
  change (actionInput (parseAgentResponse raw))
    with (orUndefined (v_actionInput (parseVars raw))).
  change (finalAnswer (parseAgentResponse raw))
    with (orUndefined (v_finalAnswer (parseVars raw))).
  split; [exact T|].
  split; [|split]; intros x H;
    match type of H with
    | orUndefined ?v = _ => destruct v eqn:V; [discriminate|]; injection H as <-
    end; (split; [discriminate|assumption]).
Qed.

Lemma scan_plain_lines text : forall ls st,
  existsb isMarkerLine ls = false -> scanLines text ls st = st.
Proof.
  induction ls as [|l ls IH]; intros st H; [reflexivity|].
  cbn [existsb] in H. apply orb_false_iff in H as [M H].
  unfold isMarkerLine in M.
  apply orb_false_iff in M as [M F]. apply orb_false_iff in M as [M I].
  apply orb_false_iff in M as [T A].
  rewrite scan_other_line by exact F. unfold updateVars. rewrite T, A, I.
  now apply IH.
Qed.

Lemma scan_keeps_thought text : forall ls st,
  existsb isFinalLine ls = false -> existsb isThoughtLine ls = false ->
  v_thought (scanLines text ls st) = v_thought st.
Proof.
  induction ls as [|x ls IH]; intros st F A; [reflexivity|].
  cbn [existsb] in F, A.
  apply orb_false_iff in F as [Fx F]. apply orb_false_iff in A as [Ax A].
  rewrite scan_other_line, IH by assumption.
  unfold updateVars. rewrite Ax.
  destruct (isActionLine x), (isActionInputLine x); reflexivity.
Qed.

(** X12.  Of several "Thought:" lines, the last one before the first
    "Final Answer:" line gives the thought: the text after the marker,
    trimmed. *)
Theorem last_thought_line_wins raw pre l post :
  splitLines raw = pre ++ l :: post ->
  existsb isFinalLine pre = false ->
  isThoughtLine l = true ->
  existsb isThoughtLine (beforeFinal post) = false ->
  thought (parseAgentResponse raw) = trim (slice 8 (trim l)).
Proof.
  intros Hlines Hpre Hl Hpost.
  change (thought (parseAgentResponse raw)) with (v_thought (parseVars raw)).
  unfold parseVars. rewrite Hlines.
  destruct (scan_skip_prefix raw (l :: post) pre initialVars Hpre) as (st & ->).
  assert (NF : isFinalLine l = false).
  { unfold isThoughtLine in Hl. unfold isFinalLine.
    now destruct (thought_excludes _ Hl) as (_ & _ & ->). }
  rewrite scan_other_line by exact NF.
  rewrite scan_stops_at_final. cbn zeta.
  assert (K : v_thought (scanLines [] (beforeFinal post) (updateVars l post st))
              = trim (slice 8 (trim l))).
  { rewrite scan_keeps_thought; auto using beforeFinal_no_final.
    unfold updateVars. now rewrite Hl. }
  destruct (existsb isFinalLine post); exact K.
Qed.

(* ------------------------------------------------------------------------- *)
(** ** Replies in the format of the system prompt *)

Lemma splitLines_line l s :
  noNewline l = true -> splitLines (l ++ NL :: s) = l :: splitLines s.
Proof.
  induction l as [|c l IH]; intros H.
  - reflexivity.
  - cbn in H. apply andb_true_iff in H as [C H]. cbn [app splitLines].
    apply negb_true_iff in C. rewrite C, (IH H). reflexivity.
Qed.

Lemma splitLines_prefix l s :
  noNewline l = true ->
  splitLines (l ++ s) = (l ++ hd [] (splitLines s)) :: tl (splitLines s).
Proof.
  induction l as [|c l IH]; intros H.
  - cbn [app]. now destruct (splitLines_cons s) as (x & xs & ->).
  - cbn in H. apply andb_true_iff in H as [C H]. cbn [app splitLines].
    apply negb_true_iff in C. rewrite C, (IH H). reflexivity.
Qed.

Lemma splitLines_single l : noNewline l = true -> splitLines l = [l].
Proof.
  intros H. rewrite <- (app_nil_r l) at 1. rewrite (splitLines_prefix l [] H).
  cbn. now rewrite app_nil_r.
Qed.

Lemma splitLines_join l ls :
  forallb noNewline (l :: ls) = true -> splitLines (join [NL] (l :: ls)) = l :: ls.
Proof.
  revert l. induction ls as [|x ls IH]; intros l H.
  - cbn in H. rewrite andb_true_r in H. now apply splitLines_single.
  - cbn [forallb] in H. apply andb_true_iff in H as [Hl H].
    rewrite join_cons. cbn [app]. rewrite (splitLines_line _ _ Hl). f_equal.
    apply IH. exact H.
Qed.

(** A line made of a marker and a remainder: how it trims, and the field it
    sets. *)
Lemma marker_line_field p c p' q d r :
  p = c :: p' -> p = q ++ [d] -> isWhiteSpace c = false -> isWhiteSpace d = false ->
  trim (p ++ r) = p ++ trimEnd r
  /\ trim (slice (Z.of_nat (List.length p)) (trim (p ++ r))) = trim r.
Proof.
  intros Hc Hd C D.
  assert (T : trim (p ++ r) = p ++ trimEnd r).
  { unfold trim. rewrite Hc at 1. cbn [app trimStart]. rewrite C.
    change (c :: p' ++ r) with ((c :: p') ++ r). rewrite <- Hc.
    rewrite trimEnd_app. destruct (isBlank r) eqn:B.
    - rewrite (trimEnd_blank _ B), app_nil_r, Hd. now apply trimEnd_fixed.
    - reflexivity. }
  split; [exact T|].
  now rewrite T, slice_past_prefix, trim_trimEnd.
Qed.

Lemma thought_line t :
  isThoughtLine (lit "Thought: " ++ t) = true
  /\ trim (slice 8 (trim (lit "Thought: " ++ t))) = trim t.
Proof.
  change (lit "Thought: " ++ t) with (THOUGHT ++ [32%N] ++ t).
  destruct (marker_line_field THOUGHT 84%N (tl THOUGHT) (removelast THOUGHT) 58%N
              ([32%N] ++ t) eq_refl eq_refl eq_refl eq_refl) as (T & F).
  split.
  - unfold isThoughtLine. rewrite T. apply startsWith_app.
  - change 8%Z with (Z.of_nat (List.length THOUGHT)). rewrite F.
    now apply trim_skips_blank.
Qed.

Lemma action_line a :
  isActionLine (lit "Action: " ++ a) = true
  /\ trim (slice 7 (trim (lit "Action: " ++ a))) = trim a.
Proof.
  change (lit "Action: " ++ a) with (ACTION ++ [32%N] ++ a).
  destruct (marker_line_field ACTION 65%N (tl ACTION) (removelast ACTION) 58%N
              ([32%N] ++ a) eq_refl eq_refl eq_refl eq_refl) as (T & F).
  split.
  - rewrite action_guard.
    rewrite T. apply startsWith_app.
  - change 7%Z with (Z.of_nat (List.length ACTION)). rewrite F.
    now apply trim_skips_blank.
Qed.

Lemma action_input_line i :
  isActionInputLine (lit "Action Input: " ++ i) = true
  /\ slice 13 (trim (lit "Action Input: " ++ i)) = trimEnd ([32%N] ++ i).
Proof.
  change (lit "Action Input: " ++ i) with (ACTION_INPUT ++ [32%N] ++ i).
  destruct (marker_line_field ACTION_INPUT 65%N (tl ACTION_INPUT)
              (removelast ACTION_INPUT) 58%N
              ([32%N] ++ i) eq_refl eq_refl eq_refl eq_refl) as (T & F).
  split.
  - unfold isActionInputLine. rewrite T. apply startsWith_app.
  - rewrite T. change 13%Z with (Z.of_nat (List.length ACTION_INPUT)).
    apply slice_past_prefix.
Qed.

Lemma final_line f :
  isFinalLine (lit "Final Answer: " ++ f) = true.
Proof.
  change (lit "Final Answer: " ++ f) with (FINAL_ANSWER ++ [32%N] ++ f).
  destruct (marker_line_field FINAL_ANSWER 70%N (tl FINAL_ANSWER)
              (removelast FINAL_ANSWER) 58%N
              ([32%N] ++ f) eq_refl eq_refl eq_refl eq_refl) as (T & F).
  unfold isFinalLine. rewrite T. apply startsWith_app.
Qed.

Lemma noNewline_app x y : noNewline (x ++ y) = noNewline x && noNewline y.
Proof. apply forallb_app. Qed.

Lemma marker_line_stops l :
  isMarkerLine l = true -> stopsCapture (trim l) || isActionInputLine l = true.
Proof.
  unfold isMarkerLine, stopsCapture, isThoughtLine, isActionLine, isActionInputLine,
    isFinalLine.
  destruct (startsWith THOUGHT (trim l)), (startsWith ACTION (trim l)),
    (startsWith ACTION_INPUT (trim l)), (startsWith FINAL_ANSWER (trim l));
    cbn; intros H; try reflexivity; try discriminate; now rewrite ?orb_true_r.
Qed.

Lemma plain_lines more :
  existsb (fun l => stopsCapture (trim l) || isActionInputLine l) more = false ->
  existsb isMarkerLine more = false /\ captureLines more = more.
Proof.
  induction more as [|l more IH]; intros H; [now split|].
  cbn [existsb] in H. apply orb_false_iff in H as [Hl H].
  destruct (IH H) as (M & C). split.
  - cbn [existsb]. rewrite M, orb_false_r.
    destruct (isMarkerLine l) eqn:E; [|reflexivity].
    apply marker_line_stops in E. congruence.
  - cbn [captureLines]. apply orb_false_iff in Hl as [-> _]. now rewrite C.
Qed.

Lemma trim_block_first_line i0 more :
  trim (join [NL] (trimEnd ([32%N] ++ i0) :: more))
  = trim (join [NL] (trimEnd i0 :: more)).
Proof.
  destruct (join_head [NL] more) as (tail & J). rewrite !J.
  rewrite trimEnd_app. destruct (isBlank i0) eqn:B.
  - rewrite (trimEnd_blank i0 B).
    change (trimEnd [32%N]) with (@nil N). reflexivity.
  - rewrite <- app_assoc. now apply trim_skips_blank.
Qed.

(** X13.  A reply in the tool-call format of the system prompt, with one
    line of thought, one of action and an input of one or more lines none
    of which begins with a marker, parses back to its parts: the thought and
    the action trimmed, and the input lines joined and trimmed, the first
    input line without its trailing blanks. *)
Theorem tool_call_reply_round_trip t a i0 more :
  noNewline t = true -> noNewline a = true -> noNewline i0 = true ->
  forallb noNewline more = true ->
  existsb (fun l => stopsCapture (trim l) || isActionInputLine l) more = false ->
  parseAgentResponse (toolCallReply t a i0 more)
  = mkParsed (trim t) (orUndefined (trim a))
      (orUndefined (trim (join [NL] (trimEnd i0 :: more)))) None.
Proof.
  intros Ht Ha Hi Hmore Hplain.
  destruct (plain_lines more Hplain) as (M & C).
  destruct (thought_line t) as (K1 & F1).
  destruct (action_line a) as (K2 & F2).
  destruct (action_input_line i0) as (K3 & F3).
  destruct (only_kind (lit "Thought: " ++ t)) as (O1 & _ & _).
  destruct (only_kind (lit "Action: " ++ a)) as (_ & O2 & _).
  destruct (only_kind (lit "Action Input: " ++ i0)) as (_ & _ & O3).
  destruct (O1 K1) as (_ & _ & N1). destruct (O2 K2) as (T2 & _ & N2).
  destruct (O3 K3) as (T3 & A3 & N3).
  unfold parseAgentResponse, toolCallReply.
  rewrite splitLines_join.
  2:{ cbn [forallb]. rewrite !noNewline_app, Ht, Ha, Hi, Hmore. reflexivity. }
  rewrite scan_other_line by exact N1.
  rewrite scan_other_line by exact N2.
  rewrite scan_other_line by exact N3.
  rewrite scan_plain_lines by exact M.
  unfold updateVars. rewrite K1, T2, K2, T3, A3, K3.
  cbn [v_thought v_action v_actionInput v_finalAnswer initialVars].
  rewrite F1, F2, C, trim_block_remainder, F3, trim_block_first_line.
  reflexivity.
Qed.

Lemma startsWith_past_char needle c : forall x y,
  existsb (N.eqb c) needle = false ->
  startsWith needle (x ++ c :: y) = startsWith needle x.
Proof.
  induction needle as [|n needle IH]; intros x y H; [now destruct x|].
  cbn [existsb] in H. apply orb_false_iff in H as [Hn H].
  destruct x as [|d x]; cbn [app startsWith].
  - rewrite N.eqb_sym, Hn. reflexivity.
  - now rewrite IH.
Qed.

(** The first occurrence of a needle does not reach over a code unit that
    the needle does not hold. *)
Lemma afterFirst_past_char needle c : forall x y,
  needle <> [] -> existsb (N.eqb c) needle = false ->
  afterFirst needle (x ++ c :: y)
  = match afterFirst needle x with
    | Some r => Some (r ++ c :: y)
    | None => afterFirst needle y
    end.
Proof.
  intros x y NE H. induction x as [|d x IH].
  - pose proof (startsWith_past_char needle c [] y H) as P. cbn [app] in P.
    cbn [app afterFirst]. rewrite P.
    destruct needle; [contradiction|]. reflexivity.
  - cbn [app afterFirst].
    change (d :: x ++ c :: y) with ((d :: x) ++ c :: y).
    rewrite (startsWith_past_char needle c (d :: x) y H).
    destruct (startsWith needle (d :: x)) eqn:S; [|exact IH].
    f_equal. apply startsWith_split in S.
    rewrite S at 1. rewrite <- app_assoc, skipn_app, skipn_all, Nat.sub_diag.
    reflexivity.
Qed.

(** X14.  A reply in the final-answer format of the system prompt, with one
    line of thought in which "Final Answer:" does not occur, parses back to
    the thought and the answer, both trimmed, whatever the answer holds
    (further lines, markers), and to no action. *)
Theorem final_reply_round_trip t f :
  noNewline t = true ->
  afterFirst FINAL_ANSWER t = None ->
  parseAgentResponse (finalReply t f)
  = mkParsed (trim t) None None (orUndefined (trim f)).
Proof.
  intros Ht Hocc.
  destruct (thought_line t) as (K1 & F1).
  destruct (only_kind (lit "Thought: " ++ t)) as (O1 & _ & _).
  destruct (O1 K1) as (A1 & I1 & N1).
  assert (S : splitLines (finalReply t f)
              = (lit "Thought: " ++ t)
                :: (lit "Final Answer: " ++ hd [] (splitLines f)) :: tl (splitLines f)).
  { unfold finalReply. rewrite app_assoc.
    change ((lit "Thought: " ++ t) ++ [NL] ++ lit "Final Answer: " ++ f)
      with ((lit "Thought: " ++ t) ++ NL :: (lit "Final Answer: " ++ f)).
    rewrite splitLines_line by (rewrite noNewline_app, Ht; reflexivity).
    now rewrite (splitLines_prefix (lit "Final Answer: ") f eq_refl). }
  assert (R : afterFirst FINAL_ANSWER (finalReply t f) = Some ([32%N] ++ f)).
  { unfold finalReply. rewrite app_assoc.
    change ((lit "Thought: " ++ t) ++ [NL] ++ lit "Final Answer: " ++ f)
      with ((lit "Thought: " ++ t) ++ NL :: (FINAL_ANSWER ++ [32%N] ++ f)).
    rewrite afterFirst_past_char by (try discriminate; reflexivity).
    change (afterFirst FINAL_ANSWER (lit "Thought: " ++ t))
      with (afterFirst FINAL_ANSWER t).
    rewrite Hocc.
    destruct (FINAL_ANSWER ++ [32%N] ++ f) eqn:E; [discriminate|].
    cbn [afterFirst]. rewrite <- E, startsWith_app.
    now rewrite skipn_app, skipn_all, Nat.sub_diag. }
  unfold parseAgentResponse. rewrite S.
  rewrite scan_other_line by exact N1.
  rewrite scan_final_line by apply final_line.
  unfold withFinal, updateVars. rewrite K1.
  cbn [v_thought v_action v_actionInput v_finalAnswer initialVars orUndefined].
  rewrite F1, (finalText_afterFirst _ _ R), trim_skips_blank by reflexivity.
  reflexivity.
Qed.

(* ------------------------------------------------------------------------- *)
(** ** The call log of a run *)

Lemma callsOf_app a b : callsOf (a ++ b) = callsOf a ++ callsOf b.
Proof.
  induction a as [|[m|t i] a IH]; cbn; [reflexivity| |]; now rewrite IH.
Qed.

Lemma toolRunsOf_app a b : toolRunsOf (a ++ b) = toolRunsOf a ++ toolRunsOf b.
Proof.
  induction a as [|[m|t i] a IH]; cbn; [reflexivity| |]; now rewrite IH.
Qed.

Lemma registeredSteps_app {World} (tools : list (AgentTool World)) a b :
  registeredSteps tools (a ++ b) = registeredSteps tools a ++ registeredSteps tools b.
Proof. unfold registeredSteps. now rewrite filter_app, map_app. Qed.

Lemma isRegistered_find {World} (tools : list (AgentTool World)) act :
  isRegistered tools act
  = match find (fun t => Js.eqb (name t) act) tools with
    | Some _ => true
    | None => false
    end.
Proof.
  unfold isRegistered. induction tools as [|t tools IH]; [reflexivity|].
  cbn. destruct (Js.eqb (name t) act); [reflexivity|exact IH].
Qed.

Lemma registered_names {World} (tools : list (AgentTool World)) steps n i :
  In (n, i) (registeredSteps tools steps) -> In n (List.map name tools).
Proof.
  unfold registeredSteps. intros H.
  apply in_map_iff in H as (st & [= <- <-] & Hin).
  apply filter_In in Hin as [_ R]. unfold isRegistered in R.
  apply existsb_exists in R as (t & Ht & E). apply jseqb_eq in E.
  rewrite <- E. now apply in_map.
Qed.

Section TraceFacts.

Variable World : Type.
Variable oracle :
  jsstring -> jsstring -> jsstring -> list MultiTurnMessage -> option jsstring -> Z ->
  World -> (JsThrown + ApiCallResult) * World.

Variable tools : list (AgentTool World).
Variable agentProviderKey : jsstring.
Variable agentApiKey : option jsstring.
Variable providerCfg : ProviderConfig.
Variable agentModel : ModelDef.
Variable systemPrompt : jsstring.

Local Abbreviation iteration :=
  (runAgent_iteration oracle tools agentProviderKey agentApiKey providerCfg
     agentModel systemPrompt).
Local Abbreviation loop :=
  (runAgent_loop oracle tools agentProviderKey agentApiKey providerCfg
     agentModel systemPrompt).
Local Abbreviation ask messages w :=
  (oracle agentProviderKey (model_id agentModel) systemPrompt messages agentApiKey
     2048%Z w).

(** One pass of the loop body: its calls, and what it leaves. *)
Lemma iteration_exact i messages steps s out s' :
  iteration i messages steps s = (out, s') ->
  exists toolEvs newSteps,
    events s' = events s ++ CompletionCall messages :: toolEvs
    /\ callsOf toolEvs = []
    /\ toolRunsOf toolEvs = registeredSteps tools newSteps
    /\ List.length newSteps <= 1
    /\ Forall (fun st => step_action st <> []) newSteps
    /\ match out with
       | Abrupt _ => newSteps = []
       | Normal (Return r m) =>
           newSteps = []
           /\ exists raw,
                m = messages ++ [mkMsg assistant raw]
                /\ truthy (finalAnswer (parseAgentResponse raw)) = true
                /\ r = mkResult steps (orEmpty (finalAnswer (parseAgentResponse raw)))
                         (i + 1) (providerLabel agentModel providerCfg)
       | Normal (Continue m st) =>
           st = steps ++ newSteps
           /\ exists raw u, m = messages ++ [mkMsg assistant raw; mkMsg user u]
       end.
Proof.
  intros H.
  destruct (ask messages (world s)) as [[e|resp] w] eqn:A.
  { rewrite (iteration_provider_throws _ _ _ _ _ _ _ _ _ _ _ _ _ _ A) in H.
    injection H as <- <-. exists [], []. cbn [afterCall events callsOf toolRunsOf].
    repeat split; auto; cbn; lia. }
  destruct (truthy (finalAnswer (parseAgentResponse (text resp)))) eqn:F.
  { rewrite (iteration_final _ _ _ _ _ _ _ _ _ _ _ _ _ _ A F) in H.
    injection H as <- <-. exists [], []. cbn [afterCall events callsOf toolRunsOf].
    repeat split; auto; try (cbn; lia). now exists (text resp). }
  destruct (truthy (action (parseAgentResponse (text resp)))) eqn:Act.
  - rewrite (iteration_action _ _ _ _ _ _ _ _ _ _ _ _ _ _ A F Act) in H.
    set (act := orEmpty (action (parseAgentResponse (text resp)))) in *.
    set (inp := orEmpty (actionInput (parseAgentResponse (text resp)))) in *.
    assert (NE : act <> []).
    { subst act. destruct (action (parseAgentResponse (text resp))) as [[|c r]|];
        cbn in Act |- *; congruence. }
    pose proof (isRegistered_find tools act) as R.
    destruct (find (fun t => Js.eqb (name t) act) tools) as [t|] eqn:Ft.
    + rewrite (dispatch_found _ _ _ _ _ _ Ft) in H. cbn [afterCall world events] in H.
      fold inp in H.
      destruct (execute t inp w) as [r w'].
      injection H as <- <-.
      apply find_some in Ft as [_ Ft]. apply jseqb_eq in Ft.
      eexists [ToolExecute (name t) inp], [mkStep _ act inp _]. cbn [events].
      split; [now rewrite <- app_assoc|]. split; [reflexivity|].
      split; [unfold registeredSteps;
              cbn [filter List.map step_action step_actionInput toolRunsOf];
              rewrite R; cbn [List.map step_action step_actionInput];
              now rewrite Ft|].
      split; [cbn; lia|]. split; [now repeat constructor|].
      split; [reflexivity|]. now eexists _, _.
    + rewrite (dispatch_unknown _ _ _ _ _ Ft) in H. injection H as <- <-.
      eexists [], [mkStep _ act inp _]. cbn [afterCall events].
      split; [reflexivity|]. split; [reflexivity|].
      split; [unfold registeredSteps;
              cbn [filter List.map step_action step_actionInput toolRunsOf];
              now rewrite R|].
      split; [cbn; lia|]. split; [now repeat constructor|].
      split; [reflexivity|]. now eexists _, _.
  - rewrite (iteration_nudge _ _ _ _ _ _ _ _ _ _ _ _ _ _ A F Act) in H.
    injection H as <- <-. exists [], []. cbn [afterCall events callsOf toolRunsOf].
    rewrite app_nil_r. repeat split; auto; try (cbn; lia). now eexists _, _.
Qed.

(** The whole loop: its calls, and what it leaves. *)
Lemma loop_trace : forall n i messages steps0 s out s',
  loop n i messages steps0 s = (out, s') ->
  exists evs newSteps,
    events s' = events s ++ evs
    /\ callsFrom messages (callsOf evs)
    /\ toolRunsOf evs = registeredSteps tools newSteps
    /\ Forall (fun st => step_action st <> []) newSteps
    /\ List.length (callsOf evs) <= n
    /\ match out with
       | Abrupt _ => 1 <= List.length (callsOf evs)
       | Normal (Return r m) =>
           steps r = steps0 ++ newSteps
           /\ totalSteps r = (i + Z.of_nat (List.length (callsOf evs)))%Z
           /\ List.length newSteps < List.length (callsOf evs)
           /\ res_finalAnswer r <> []
       | Normal (Continue m st) =>
           st = steps0 ++ newSteps
           /\ List.length (callsOf evs) = n
           /\ List.length newSteps <= n
       end.
Proof.
  induction n as [|n IH]; intros i messages steps0 s out s' H.
  - injection H as <- <-. exists [], []. rewrite !app_nil_r. cbn. now repeat split.
  - rewrite loop_step in H.
    destruct (iteration i messages steps0 s) as [out1 s1] eqn:It.
    destruct (iteration_exact _ _ _ _ _ _ It)
      as (tev & ns & Ev & Cs & Ts & Ln & Fa & Sh).
    destruct out1 as [[r m|m st]|e].
    + injection H as <- <-. destruct Sh as (-> & raw & -> & Tr & ->).
      exists (CompletionCall messages :: tev), [].
      rewrite app_nil_r. cbn [callsOf toolRunsOf]. rewrite Cs, Ts.
      cbn [List.length steps totalSteps res_finalAnswer callsFrom callsGrow].
      repeat split; auto; try lia.
      destruct (finalAnswer (parseAgentResponse raw)) as [[|c x]|]; cbn in Tr |- *;
        congruence.
    + destruct Sh as (-> & raw & u & ->).
      destruct (IH _ _ _ _ _ _ H) as (evs & ns' & Ev' & Cf & Ts' & Fa' & Le & Sh').
      exists (CompletionCall messages :: tev ++ evs), (ns ++ ns').
      split; [rewrite Ev', Ev; now rewrite <- app_assoc|].
      cbn [callsOf toolRunsOf]. rewrite callsOf_app, toolRunsOf_app, Cs, Ts, Ts'.
      cbn [app]. rewrite registeredSteps_app.
      split.
      { cbn [callsFrom]. split; [reflexivity|].
        destruct (callsOf evs) as [|c rest]; [exact I|].
        destruct Cf as (-> & G). cbn [callsGrow]. split; [now exists raw, u|exact G]. }
      split; [reflexivity|]. split; [now apply Forall_app|].
      cbn [List.length]. split; [lia|].
      destruct out as [[r m|m st]|e].
      * destruct Sh' as (-> & -> & L' & NE). rewrite app_assoc, length_app.
        repeat split; auto; lia.
      * destruct Sh' as (-> & L1 & L2). rewrite app_assoc, length_app.
        repeat split; auto; lia.
      * lia.
    + injection H as <- <-. subst ns.
      exists (CompletionCall messages :: tev), [].
      cbn [callsOf toolRunsOf]. rewrite Cs, Ts.
      cbn [List.length callsFrom callsGrow]. repeat split; auto; lia.
Qed.

End TraceFacts.

Lemma budgetAnswer_not_empty stps : budgetAnswer stps <> [].
Proof. destruct stps; discriminate. Qed.

Section RunTrace.

Variable World : Type.
Variable oracle :
  jsstring -> jsstring -> jsstring -> list MultiTurnMessage -> option jsstring -> Z ->
  World -> (JsThrown + ApiCallResult) * World.

Lemma runAgent_traced_on env (options : AgentOptions World) s key others cfg model ms :
  getAvailableProviders None env = key :: others ->
  lookupProvider key = Some cfg ->
  models cfg = model :: ms ->
  runAgent_traced oracle env options s
  = match runAgent_loop oracle (tools options) key (getApiKey key None env) cfg model
            (buildAgentSystemPrompt (tools options))
            (Z.to_nat (budgetOf options)) 0 [firstMessage options] [] s with
    | (Normal flow, s') =>
        (Normal (reportOf (budgetOf options) (providerLabel model cfg) flow), s')
    | (Abrupt e, s') => (Abrupt e, s')
    end.
Proof.
  intros G L M. unfold runAgent_traced. rewrite G, L, M. unfold bind, ret.
  destruct (runAgent_loop _ _ _ _ _ _ _ _ _ _ _ s) as [[flow|e] s']; reflexivity.
Qed.

(** The call log of a run, whatever its end. *)
Lemma run_trace env (options : AgentOptions World) s out s' :
  runAgent_traced oracle env options s = (out, s') ->
  exists evs,
    events s' = events s ++ evs
    /\ callsFrom [firstMessage options] (callsOf evs)
    /\ List.length (callsOf evs) <= Z.to_nat (budgetOf options)
    /\ (forall n i, In (n, i) (toolRunsOf evs) -> In n (List.map name (tools options)))
    /\ match out with
       | Abrupt _ => True
       | Normal report =>
           toolRunsOf evs = registeredSteps (tools options) (steps (result report))
           /\ Forall (fun st => step_action st <> []) (steps (result report))
           /\ res_finalAnswer (result report) <> []
           /\ match exit report with
              | Success =>
                  totalSteps (result report) = Z.of_nat (List.length (callsOf evs))
                  /\ List.length (steps (result report)) < List.length (callsOf evs)
              | BudgetExhausted =>
                  List.length (callsOf evs) = Z.to_nat (budgetOf options)
                  /\ List.length (steps (result report)) <= Z.to_nat (budgetOf options)
              end
       end.
Proof.
  intros H.
  destruct (getAvailableProviders None env) as [|key others] eqn:G.
  { unfold runAgent_traced in H. rewrite G in H. injection H as <- <-.
    exists []. rewrite app_nil_r. cbn [callsOf toolRunsOf callsFrom List.length].
    repeat split; auto; try lia; try contradiction. }
  destruct (runAgent_catalog_total env key others G) as (cfg & model & ms & L & M).
  rewrite (runAgent_traced_on _ _ _ _ _ _ _ _ G L M) in H.
  destruct (runAgent_loop _ _ _ _ _ _ _ _ _ _ _ s) as [out1 s1] eqn:Lp.
  destruct (loop_trace _ _ _ _ _ _ _ _ _ _ _ _ _ _ _ Lp)
    as (evs & ns & Ev & Cf & Ts & Fa & Le & Sh).
  assert (N : forall n i, In (n, i) (toolRunsOf evs) -> In n (List.map name (tools options))).
  { intros n i Hin. rewrite Ts in Hin. eapply registered_names. exact Hin. }
  destruct out1 as [[r m|m st]|e]; injection H as <- <-; exists evs;
    (split; [exact Ev|]); (split; [exact Cf|]); (split; [exact Le|]);
    (split; [exact N|]); cbn [reportOf result exit steps res_finalAnswer totalSteps].
  - destruct Sh as (S & T & Ln & NE). cbn [app] in S. rewrite S.
    repeat split; auto.
  - destruct Sh as (-> & Lc & Ln). cbn [app].
    repeat split; auto using budgetAnswer_not_empty.
  - exact I.
Qed.

(** X15.  Every completion call of a run is given the whole transcript so
    far: the first one the goal message alone, each later one the transcript
    of the call before followed by one assistant reply and one user message.
    A run makes at most as many completion calls as its step budget. *)
Theorem completion_calls_replay_transcript env (options : AgentOptions World) s :
  exists evs,
    events (snd (runAgent oracle env options s)) = events s ++ evs
    /\ callsFrom [firstMessage options] (callsOf evs)
    /\ List.length (callsOf evs) <= Z.to_nat (budgetOf options).
Proof.
  rewrite runAgent_of_traced.
  destruct (runAgent_traced oracle env options s) as [out s'] eqn:H.
  destruct (run_trace _ _ _ _ _ H) as (evs & Ev & Cf & Le & _).
  exists evs. destruct out; cbn [snd]; auto.
Qed.

(** X16.  [totalSteps] of a run that ends with a final answer is the number
    of completion calls it made, and more than the number of steps it
    recorded; a run that exhausts its budget made as many completion calls
    as the budget. *)
Theorem totalSteps_counts_completion_calls env (options : AgentOptions World) s report s' :
  runAgent_traced oracle env options s = (Normal report, s') ->
  exists evs,
    events s' = events s ++ evs
    /\ match exit report with
       | Success =>
           totalSteps (result report) = Z.of_nat (List.length (callsOf evs))
           /\ (Z.of_nat (List.length (steps (result report)))
               < totalSteps (result report))%Z
       | BudgetExhausted =>
           List.length (callsOf evs) = Z.to_nat (budgetOf options)
           /\ List.length (steps (result report)) <= List.length (callsOf evs)
       end.
Proof.
  intros H. destruct (run_trace _ _ _ _ _ H) as (evs & Ev & _ & _ & _ & _ & _ & _ & Sh).
  exists evs. split; [exact Ev|].
  destruct (exit report); destruct Sh as (A & B); split; auto; lia.
Qed.

(** X17.  The tools a run executes are exactly the recorded steps whose
    action names a tool of the registry, in order and with the recorded
    input; a step with another action ran nothing, and nothing outside the
    registry is ever run. *)
Theorem tool_runs_match_steps env (options : AgentOptions World) s report s' :
  runAgent_traced oracle env options s = (Normal report, s') ->
  exists evs,
    events s' = events s ++ evs
    /\ toolRunsOf evs = registeredSteps (tools options) (steps (result report))
    /\ forall n i, In (n, i) (toolRunsOf evs) -> In n (List.map name (tools options)).
Proof.
  intros H. destruct (run_trace _ _ _ _ _ H) as (evs & Ev & _ & _ & N & T & _).
  now exists evs.
Qed.

(** X18.  The result of a run never has an empty final answer, and every
    recorded step has a non-empty action.  When the run ends with a final
    answer, that answer is trimmed and [totalSteps] is between 1 and the
    budget. *)
Theorem result_is_well_formed env (options : AgentOptions World) s report s' :
  runAgent_traced oracle env options s = (Normal report, s') ->
  res_finalAnswer (result report) <> []
  /\ Forall (fun st => step_action st <> []) (steps (result report))
  /\ (exit report = Success ->
      trim (res_finalAnswer (result report)) = res_finalAnswer (result report)
      /\ (1 <= totalSteps (result report) <= budgetOf options)%Z).
Proof.
  intros H.
  destruct (run_trace _ _ _ _ _ H) as (evs & Ev & _ & Le & _ & _ & Fa & NE & Sh).
  split; [exact NE|]. split; [exact Fa|]. intros X. rewrite X in Sh.
  destruct Sh as (T & Ln). split; [|lia].
  destruct (getAvailableProviders None env) as [|key others] eqn:G.
  { unfold runAgent_traced in H. rewrite G in H. discriminate. }
  destruct (runAgent_catalog_total env key others G) as (cfg & model & ms & L & M).
  rewrite (runAgent_traced_on _ _ _ _ _ _ _ _ G L M) in H.
  destruct (runAgent_loop _ _ _ _ _ _ _ _ _ _ _ s) as [[[r m|m st]|e] s1] eqn:Lp;
    try discriminate; injection H as <- <-; [|discriminate].
  destruct (loop_return_answer _ _ _ _ _ _ _ _ _ _ _ _ _ _ _ _ Lp)
    as (before & raw & _ & _ & R & _).
  cbn [reportOf result]. rewrite R.
  change (finalAnswer (parseAgentResponse raw))
    with (orUndefined (v_finalAnswer (parseVars raw))).
  rewrite orEmpty_orUndefined.
  now destruct (scan_trimmed raw (splitLines raw) initialVars) as (_ & _ & _ & F);
    [repeat split|].
Qed.

(** X19.  The agent talks to the first model of the first catalog provider
    that has a key: Anthropic if its key is set, else OpenAI, else Google;
    the result names that model and provider. *)
Theorem agent_provider_priority env (options : AgentOptions World) s report s' :
  runAgent_traced oracle env options s = (Normal report, s') ->
  provider (result report)
  = if truthy (env (lit "ANTHROPIC_API_KEY")) then lit "Haiku 4.5 (Anthropic)"
    else if truthy (env (lit "OPENAI_API_KEY")) then lit "GPT-4o Mini (OpenAI)"
    else lit "Gemini 2.0 Flash (Google)".
Proof.
  intros H.
  assert (P : forall key others cfg model ms,
             getAvailableProviders None env = key :: others ->
             lookupProvider key = Some cfg -> models cfg = model :: ms ->
             provider (result report) = providerLabel model cfg).
  { intros key others cfg model ms G L M.
    rewrite (runAgent_traced_on _ _ _ _ _ _ _ _ G L M) in H.
    destruct (runAgent_loop _ _ _ _ _ _ _ _ _ _ _ s) as [[[r m|m st]|e] s1] eqn:Lp;
      try discriminate; injection H as <- <-; [|reflexivity].
    now destruct (loop_return_answer _ _ _ _ _ _ _ _ _ _ _ _ _ _ _ _ Lp)
      as (before & raw & _ & _ & _ & R). }
  assert (G : getAvailableProviders None env
              = (if truthy (env (lit "ANTHROPIC_API_KEY")) then [lit "anthropic"] else [])
                ++ (if truthy (env (lit "OPENAI_API_KEY")) then [lit "openai"] else [])
                ++ (if truthy (env (lit "GEMINI_API_KEY")) then [lit "gemini"] else [])).
  { unfold getAvailableProviders, PROVIDERS.
    cbn [filter List.map fst snd envKey explicitKey truthy].
    destruct (truthy (env (lit "ANTHROPIC_API_KEY")));
      destruct (truthy (env (lit "OPENAI_API_KEY")));
      destruct (truthy (env (lit "GEMINI_API_KEY"))); reflexivity. }
  destruct (truthy (env (lit "ANTHROPIC_API_KEY"))).
  { cbn [app] in G. now rewrite (P _ _ _ _ _ G eq_refl eq_refl). }
  destruct (truthy (env (lit "OPENAI_API_KEY"))).
  { cbn [app] in G. now rewrite (P _ _ _ _ _ G eq_refl eq_refl). }
  destruct (truthy (env (lit "GEMINI_API_KEY"))).
  { cbn [app] in G. now rewrite (P _ _ _ _ _ G eq_refl eq_refl). }
  cbn [app] in G. unfold runAgent_traced in H. rewrite G in H. discriminate.
Qed.

End RunTrace.

(* ------------------------------------------------------------------------- *)
(** ** Replies without markers, the fallback answer, the system prompt *)

Section MoreIterationFacts.

Variable World : Type.
Variable oracle :
  jsstring -> jsstring -> jsstring -> list MultiTurnMessage -> option jsstring -> Z ->
  World -> (JsThrown + ApiCallResult) * World.

Variable tools : list (AgentTool World).
Variable agentProviderKey : jsstring.
Variable agentApiKey : option jsstring.
Variable providerCfg : ProviderConfig.
Variable agentModel : ModelDef.
Variable systemPrompt : jsstring.

(** X20.  A reply none of whose lines begins, after trimming, with
    "Thought:", "Action:", "Action Input:" or "Final Answer:" parses to an
    empty thought and nothing else; the loop then appends the nudge, records
    no step and runs no tool. *)
Theorem reply_without_markers_is_nudged raw :
  existsb isMarkerLine (splitLines raw) = false ->
  parseAgentResponse raw = mkParsed [] None None None
  /\ forall i messages steps s resp w,
       oracle agentProviderKey (model_id agentModel) systemPrompt messages agentApiKey
         2048%Z (world s) = (inr resp, w) ->
       text resp = raw ->
       runAgent_iteration oracle tools agentProviderKey agentApiKey providerCfg
         agentModel systemPrompt i messages steps s
       = (Normal (Continue (messages ++ [mkMsg assistant raw; mkMsg user NUDGE]) steps),
          mkSys w (events s ++ [CompletionCall messages])).
Proof.
  intros H.
  assert (P : parseAgentResponse raw = mkParsed [] None None None).
  { unfold parseAgentResponse. now rewrite scan_plain_lines by exact H. }
  split; [exact P|].
  intros i messages steps s resp w A <-.
  rewrite (iteration_nudge _ _ _ _ _ _ _ _ _ _ _ _ _ _ A); rewrite ?P; reflexivity.
Qed.

End MoreIterationFacts.

Lemma distinctFrom_spec : forall xs seen,
  NoDup (distinctFrom seen xs)
  /\ forall x, In x (distinctFrom seen xs) <-> In x xs /\ ~ In x seen.
Proof.
  induction xs as [|y xs IH]; intros seen.
  - split; [constructor|]. cbn. tauto.
  - cbn [distinctFrom]. destruct (existsb (Js.eqb y) seen) eqn:E.
    + apply existsb_eqb_In in E. destruct (IH seen) as (N & S).
      split; [exact N|]. intros x. rewrite S. cbn [In]. split.
      * intros [I K]. split; [now right|exact K].
      * intros [[->|I] K]; [contradiction|now split].
    + assert (NI : ~ In y seen).
      { intros K. apply existsb_eqb_In in K. congruence. }
      destruct (IH (y :: seen)) as (N & S). split.
      * constructor; [|exact N]. rewrite S. cbn [In]. tauto.
      * intros x. cbn [In]. rewrite S. cbn [In].
        destruct (list_eq_dec N.eq_dec y x) as [->|D]; tauto.
Qed.

(** X21.  The tools named in the fallback answer are the actions of the
    recorded steps, each once, in the order in which they first occur. *)
Theorem distinct_keeps_first_occurrences xs :
  NoDup (distinct xs)
  /\ (forall x, In x (distinct xs) <-> In x xs)
  /\ hd_error (distinct xs) = hd_error xs
  /\ forall stps,
       stps <> [] ->
       budgetAnswer stps
       = lit "Agent completed " ++ ofNat (List.length stps) ++ lit " steps. Tools used: "
         ++ join (lit ", ") (distinct (List.map step_action stps)) ++ lit ".".
Proof.
  unfold distinct. destruct (distinctFrom_spec xs []) as (N & S).
  split; [exact N|]. split; [intros x; rewrite S; cbn; tauto|]. split.
  - destruct xs; reflexivity.
  - intros [|st stps] H; [contradiction|reflexivity].
Qed.

(** [distinctFrom] looks at [seen] only to ask what is in it. *)
Lemma distinctFrom_seen : forall xs seen seen',
  (forall x, In x seen <-> In x seen') ->
  distinctFrom seen xs = distinctFrom seen' xs.
Proof.
  induction xs as [|y xs IH]; intros seen seen' S; [reflexivity|].
  cbn [distinctFrom].
  assert (E : existsb (Js.eqb y) seen = existsb (Js.eqb y) seen').
  { destruct (existsb (Js.eqb y) seen) eqn:A; symmetry.
    - apply existsb_eqb_In. apply S. now apply existsb_eqb_In.
    - destruct (existsb (Js.eqb y) seen') eqn:B; [|reflexivity].
      apply existsb_eqb_In, S, existsb_eqb_In in B. congruence. }
  rewrite <- E. destruct (existsb (Js.eqb y) seen).
  - now apply IH.
  - f_equal. apply IH. intros x. cbn [In]. now rewrite S.
Qed.

Lemma distinctFrom_app : forall pre seen rest,
  distinctFrom seen (pre ++ rest)
  = distinctFrom seen pre ++ distinctFrom (pre ++ seen) rest.
Proof.
  induction pre as [|y pre IH]; intros seen rest; [reflexivity|].
  cbn [app distinctFrom]. destruct (existsb (Js.eqb y) seen) eqn:E.
  - rewrite IH. f_equal. apply distinctFrom_seen.
    apply existsb_eqb_In in E.
    intros x. cbn [In]. rewrite !in_app_iff. split; [tauto|].
    intros [->|H]; tauto.
  - cbn [app]. rewrite IH. f_equal. f_equal. apply distinctFrom_seen.
    intros x. cbn [In]. rewrite !in_app_iff. cbn [In]. tauto.
Qed.

(** [[...new Set(xs)]] keeps every element at the place of its first
    occurrence: what comes before it are the distinct elements of what came
    before it in [xs]. *)
Lemma distinct_first_occurrence xs pre a post :
  xs = pre ++ a :: post -> ~ In a pre ->
  exists before after,
    distinct xs = before ++ a :: after /\ forall x, In x before <-> In x pre.
Proof.
  intros -> NI. exists (distinct pre), (distinctFrom (a :: pre ++ []) post).
  split.
  - unfold distinct. rewrite distinctFrom_app. f_equal. cbn [distinctFrom].
    destruct (existsb (Js.eqb a) (pre ++ [])) eqn:E; [|reflexivity].
    apply existsb_eqb_In in E. rewrite app_nil_r in E. contradiction.
  - intros x. unfold distinct. destruct (distinctFrom_spec pre []) as (_ & S).
    rewrite S. cbn [In]. tauto.
Qed.

Lemma isRegistered_In {World} (tools : list (AgentTool World)) act :
  In act (List.map name tools) -> isRegistered tools act = true.
Proof.
  intros H. apply in_map_iff in H as (t & <- & Ht).
  unfold isRegistered. apply existsb_exists. exists t. split; [exact Ht|].
  now apply jseqb_eq.
Qed.

Lemma no_final_reply ms :
  forallb (fun m => negb (isAssistant m
                          && truthy (finalAnswer (parseAgentResponse (content m)))))
          ms = true ->
  Forall notFinal ms.
Proof.
  intros H. apply Forall_forall. intros m Hm.
  rewrite forallb_forall in H. specialize (H m Hm).
  unfold notFinal, isAssistant in *. intros R. rewrite R in H.
  now apply negb_true_iff in H.
Qed.

Lemma no_final_reply_check ms :
  Forall notFinal ms ->
  forallb (fun m => negb (isAssistant m
                          && truthy (finalAnswer (parseAgentResponse (content m)))))
          ms = true.
Proof.
  intros H. apply forallb_forall. intros m Hm.
  rewrite Forall_forall in H. specialize (H m Hm).
  unfold notFinal, isAssistant in *. destruct (role m); [reflexivity|].
  now rewrite (H eq_refl).
Qed.

(* ------------------------------------------------------------------------- *)
(** ** The claim on the end of the budget *)

Section BudgetClaim.

Variable World : Type.
Variable oracle :
  jsstring -> jsstring -> jsstring -> list MultiTurnMessage -> option jsstring -> Z ->
  World -> (JsThrown + ApiCallResult) * World.

(** A run none of whose replies held a final answer left through the
    [return] after the loop, after as many replies as its budget. *)
Lemma exhausted_run env (options : AgentOptions World) s report s' :
  runAgent_traced oracle env options s = (Normal report, s') ->
  Forall notFinal (transcript report) ->
  exists stps added label,
    report = mkReport (mkResult stps (budgetAnswer stps) (budgetOf options) label)
               (firstMessage options :: added) BudgetExhausted
    /\ List.length (filter isAssistant added) = Z.to_nat (budgetOf options).
Proof.
  intros H NF.
  destruct (getAvailableProviders None env) as [|key others] eqn:G.
  { unfold runAgent_traced in H. rewrite G in H. discriminate. }
  destruct (runAgent_catalog_total env key others G) as (cfg & model & ms & L & M).
  rewrite (runAgent_traced_on _ _ _ _ _ _ _ _ _ _ G L M) in H.
  destruct (runAgent_loop _ _ _ _ _ _ _ _ _ _ _ s) as [[[r m|m st]|e] s1] eqn:Lp;
    try discriminate; injection H as <- <-.
  - destruct (loop_return_answer _ _ _ _ _ _ _ _ _ _ _ _ _ _ _ _ Lp)
      as (before & raw & -> & T & _).
    cbn [reportOf transcript] in NF. apply Forall_app in NF as [_ NF].
    apply Forall_inv in NF. specialize (NF eq_refl). cbn [content] in NF. congruence.
  - destruct (loop_fall_through _ _ _ _ _ _ _ _ _ _ _ _ _ _ _ _ Lp)
      as (added & ns & -> & _ & _ & CA & _ & _).
    exists st, added, (providerLabel model cfg). now split.
Qed.

(** C3, as amended.  A run none of whose replies held a final answer: it
    received as many replies as its budget and returns the budget as
    [totalSteps]; with no step recorded its answer is the no-tools message,
    else "Agent completed <n> steps. Tools used: <names>." where the names
    are the actions of the recorded steps, each once, at the place of its
    first occurrence.  Every tool that was executed is among the names; a
    name that is not the name of a tool of the registry is listed all the
    same, though nothing was executed for it.  With budget 0 and a provider
    configured, the run returns at once, with no call made, no step, and the
    no-tools message.  The runs spoken of are those that leave through the
    [return] after the loop. *)
Theorem budget_exhaustion_answer env (options : AgentOptions World) s :
  (forall report s',
      runAgent_traced oracle env options s = (Normal report, s') ->
      forallb (fun m => negb (isAssistant m
                              && truthy (finalAnswer (parseAgentResponse (content m)))))
              (transcript report) = true ->
      let r := result report in
      let actions := List.map step_action (steps r) in
      runAgent oracle env options s = (Normal r, s')
      /\ exit report = BudgetExhausted
      /\ List.length (filter isAssistant (transcript report))
         = Z.to_nat (budgetOf options)
      /\ totalSteps r = budgetOf options
      /\ List.length (steps r) <= Z.to_nat (budgetOf options)
      /\ (steps r = [] ->
          res_finalAnswer r = lit "Agent reached maximum steps without executing tools.")
      /\ exists names evs,
           (steps r <> [] ->
            res_finalAnswer r
            = lit "Agent completed " ++ ofNat (List.length (steps r))
              ++ lit " steps. Tools used: " ++ join (lit ", ") names ++ lit ".")
           /\ NoDup names
           /\ (forall a, In a names <-> In a actions)
           /\ (forall pre a post,
                  actions = pre ++ a :: post -> ~ In a pre ->
                  exists before after,
                    names = before ++ a :: after
                    /\ forall x, In x before <-> In x pre)
           /\ events s' = events s ++ evs
           /\ List.length (callsOf evs) = Z.to_nat (budgetOf options)
           /\ (forall n i, In (n, i) (toolRunsOf evs) ->
                           In n names /\ In n (List.map name (tools options)))
           /\ (forall a, In a names -> In a (List.map name (tools options)) ->
                         exists i, In (a, i) (toolRunsOf evs))
           /\ (forall a, In a names -> ~ In a (List.map name (tools options)) ->
                         forall i, ~ In (a, i) (toolRunsOf evs)))
  /\ (getAvailableProviders None env <> [] ->
      budgetOf options = 0%Z ->
      exists label,
        runAgent_traced oracle env options s
        = (Normal (mkReport
                     (mkResult []
                        (lit "Agent reached maximum steps without executing tools.")
                        0 label)
                     [firstMessage options] BudgetExhausted),
           s)
        /\ runAgent oracle env options s
           = (Normal (mkResult []
                        (lit "Agent reached maximum steps without executing tools.")
                        0 label), s))
  /\ (forall report s',
        runAgent_traced oracle env options s = (Normal report, s') ->
        exit report = BudgetExhausted ->
        forallb (fun m => negb (isAssistant m
                                && truthy (finalAnswer
                                             (parseAgentResponse (content m)))))
                (transcript report) = true).
Proof.
  split; [|split].
  - intros report s' H NF r actions. apply no_final_reply in NF.
    destruct (exhausted_run _ _ _ _ _ H NF) as (stps & added & label & R & CA).
    destruct (run_trace _ _ _ _ _ _ _ H) as (evs & Ev & _ & _ & N & T & _ & _ & X).
    subst r actions. rewrite R in T, X |- *.
    cbn [result transcript exit steps res_finalAnswer totalSteps] in T, X |- *.
    destruct X as (Lc & Ls).
    split; [now rewrite runAgent_of_traced, H, R|]. split; [reflexivity|].
    split; [exact CA|]. split; [reflexivity|]. split; [exact Ls|].
    split; [now intros ->|].
    destruct (distinctFrom_spec (List.map step_action stps) []) as (ND & S).
    assert (Mem : forall a, In a (distinct (List.map step_action stps))
                            <-> In a (List.map step_action stps)).
    { intros a. unfold distinct. rewrite S. cbn [In]. tauto. }
    assert (Run : forall n i, In (n, i) (toolRunsOf evs) ->
                              In n (List.map step_action stps)).
    { intros n i Hin. rewrite T in Hin. unfold registeredSteps in Hin.
      apply in_map_iff in Hin as (st & [= <- <-] & Hst).
      apply filter_In in Hst as [Hst _]. now apply in_map. }
    exists (distinct (List.map step_action stps)), evs.
    split; [destruct stps; [contradiction|reflexivity]|].
    split; [exact ND|]. split; [exact Mem|].
    split; [intros pre a post; apply distinct_first_occurrence|].
    split; [exact Ev|]. split; [exact Lc|].
    split; [|split].
    + intros n i Hin. split; [apply Mem; eapply Run; exact Hin|eapply N; exact Hin].
    + intros a Ha Reg. apply Mem, in_map_iff in Ha as (st & <- & Hst).
      exists (step_actionInput st). rewrite T. unfold registeredSteps.
      apply in_map_iff. exists st. split; [reflexivity|].
      apply filter_In. split; [exact Hst|now apply isRegistered_In].
    + intros a _ NR i Hin. apply NR. eapply N. exact Hin.
  - intros C B.
    destruct (runAgent_traced_configured _ oracle env options s C)
      as (key & cfg & model & E).
    exists (providerLabel model cfg).
    rewrite runAgent_of_traced, E, B. cbn. now split.
  - intros report s' H X.
    destruct (getAvailableProviders None env) as [|k o] eqn:G.
    { unfold runAgent_traced in H. rewrite G in H. discriminate. }
    assert (C : getAvailableProviders None env <> []) by (rewrite G; discriminate).
    destruct (runAgent_traced_configured _ oracle env options s C)
      as (key & cfg & model & E).
    rewrite E in H.
    destruct (runAgent_loop _ _ _ _ _ _ _ _ _ _ _ s) as [[flow|e] s1] eqn:Lp;
      [|discriminate].
    injection H as <- <-. destruct flow as [r0 msgs|msgs stps]; [discriminate|].
    destruct (loop_fall_through _ _ _ _ _ _ _ _ _ _ _ _ _ _ _ _ Lp)
      as (added & ns & -> & _ & NF & _).
    cbn [reportOf transcript app]. apply no_final_reply_check.
    constructor; [discriminate|exact NF].
Qed.

End BudgetClaim.

Lemma includes_inside p a b : includes p (a ++ p ++ b) = true.
Proof.
  destruct (afterFirst_occurs p a b) as (rest & H).
  destruct (indexOfFrom_afterFirst p _ 0%Z rest H) as (k & E & _).
  unfold includes, indexOf. rewrite E. apply Z.leb_le. lia.
Qed.

(** X22.  The system prompt holds, for every tool handed to the agent, the
    line "  <name>: <description>". *)
Theorem system_prompt_lists_every_tool {World} (tools : list (AgentTool World)) t :
  In t tools ->
  includes (lit "  " ++ name t ++ lit ": " ++ description t)
           (buildAgentSystemPrompt tools) = true.
Proof.
  intros H. unfold buildAgentSystemPrompt.
  set (line := fun u : AgentTool World => lit "  " ++ name u ++ lit ": " ++ description u).
  set (descr := join [NL] (List.map line tools)).
  assert (D : exists a b, descr = a ++ line t ++ b).
  { apply join_inside. apply in_map_iff. now exists t. }
  destruct D as (a & b & D).
  match goal with
  | |- includes _ (join _ ?ls) = true =>
      destruct (join_inside [NL] descr ls) as (a' & b' & J)
  end.
  { cbn [In]. tauto. }
  cbn zeta. rewrite J, D. fold (line t).
  replace (a' ++ (a ++ line t ++ b) ++ b') with ((a' ++ a) ++ line t ++ (b ++ b'))
    by now rewrite <- !app_assoc.
  apply includes_inside.
Qed.

(* ------------------------------------------------------------------------- *)
(** ** The [compare] command *)

Section CompareCommand.

Variable World : Type.
Variable oracle :
  jsstring -> jsstring -> jsstring -> list MultiTurnMessage -> option jsstring -> Z ->
  World -> (JsThrown + ApiCallResult) * World.
Variable bodies : ToolBodies World.

(** X23.  [compare] with fewer than two model names writes the banner and
    the usage text and exits with code 1, without any call.  With two or
    more it runs the agent on the five comparison tools with the default
    budget: at most 8 completion calls, only comparison tools are run, and
    the command either prints the formatted result of the run or is
    rejected with what the run threw: without a configured provider the
    configuration error, thrown before any call, and with one what its last
    completion call threw. *)
Theorem cmdCompare_outcomes env args s :
  let modelArgs := collectModelArgs (tl args) in
  let compareTools :=
    filter (fun t => negb (Js.eqb (name t) (lit "design_test_suite")))
           (createBenchmarkTools bodies) in
  (List.length modelArgs < 2 ->
   cmdCompare oracle bodies env args s
   = (Exited 1, s, [ConsoleLog COMPARE_BANNER; ConsoleError COMPARE_USAGE]))
  /\ (2 <= List.length modelArgs ->
      forall ending s' console,
        cmdCompare oracle bodies env args s = (ending, s', console) ->
        exists evs,
          events s' = events s ++ evs
          /\ List.length (callsOf evs) <= 8
          /\ (forall n i, In (n, i) (toolRunsOf evs) -> In n COMPARE_NAMES)
          /\ match ending with
             | Returned =>
                 exists result,
                   runAgent oracle env
                     (mkOptions (compareGoal modelArgs (getArg args (lit "--prompt")))
                        compareTools None None) s = (Normal result, s')
                   /\ console = [ConsoleLog COMPARE_BANNER;
                                 ConsoleLog (formatAgentResult result)]
             | Exited _ => False
             | Rejected e =>
                 runAgent oracle env
                   (mkOptions (compareGoal modelArgs (getArg args (lit "--prompt")))
                      compareTools None None) s = (Abrupt e, s')
                 /\ console = [ConsoleLog COMPARE_BANNER]
                 /\ (getAvailableProviders None env = [] ->
                     e = ThrownError NO_PROVIDER_MESSAGE /\ s' = s)
                 /\ (getAvailableProviders None env <> [] ->
                     exists pk mid sp msgs key mt w before,
                       oracle pk mid sp msgs key mt w = (inl e, world s')
                       /\ evs = before ++ [CompletionCall msgs])
             end).
Proof.
  intros modelArgs compareTools. unfold cmdCompare. fold modelArgs.
  destruct (compare_tools_list bodies) as (A & Names). fold compareTools in A, Names.
  split.
  - intros L.
    replace (Z.of_nat (List.length modelArgs) <? 2)%Z with true
      by (symmetry; apply Z.ltb_lt; lia).
    reflexivity.
  - intros L ending s' console H.
    replace (Z.of_nat (List.length modelArgs) <? 2)%Z with false in H
      by (symmetry; apply Z.ltb_ge; lia).
    rewrite A in H. rewrite runAgent_of_traced in H |- *.
    set (options := mkOptions (compareGoal modelArgs (getArg args (lit "--prompt")))
                      compareTools None None) in *.
    destruct (runAgent_traced oracle env options s) as [out s1] eqn:R.
    destruct (run_trace _ _ _ _ _ _ _ R) as (evs & Ev & _ & Le & N & _).
    change (Z.to_nat (budgetOf options)) with 8 in Le.
    change (List.map name (tools options)) with (List.map name compareTools) in N.
    rewrite Names in N.
    destruct out as [report|e]; injection H as <- <- <-; exists evs;
      (split; [exact Ev|]); (split; [exact Le|]); (split; [exact N|]).
    + now exists (result report).
    + split; [reflexivity|]. split; [reflexivity|]. split.
      * intros G. unfold runAgent_traced in R. rewrite G in R.
        injection R as <- <-. now split.
      * intros C.
        destruct (runAgent_traced_configured _ oracle env options s C)
          as (key & cfg & model & E).
        rewrite E in R.
        destruct (runAgent_loop _ _ _ _ _ _ _ _ _ _ _ s) as [[flow|e0] s2] eqn:Lp;
          [discriminate|].
        injection R as <- <-.
        destruct (loop_abrupt _ _ _ _ _ _ _ _ _ _ _ _ _ _ _ Lp)
          as (msgs & w & before & Ask & Ev').
        exists key, (model_id model), (buildAgentSystemPrompt (tools options)), msgs,
          (getApiKey key None env), 2048%Z, w, before.
        split; [exact Ask|]. rewrite Ev in Ev'. now apply app_inv_head in Ev'.
Qed.

End CompareCommand.

(* ------------------------------------------------------------------------- *)
(** ** The further theorems at concrete inputs *)

Lemma budget_exhaustion_answer_witness :
  (exists report s',
     runAgent_traced Scenario.scripted Scenario.env1 (Scenario.opts 2)
       (Scenario.start [Scenario.call_broken; Scenario.frobnicate]) = (Normal report, s')
     /\ exit report = BudgetExhausted
     /\ List.length (filter isAssistant (transcript report)) = 2
     /\ totalSteps (result report) = 2%Z
     /\ List.length (steps (result report)) <= 2)
  /\ exists label,
       runAgent_traced Scenario.scripted Scenario.env1 (Scenario.opts 0)
         (Scenario.start [Scenario.call_broken])
       = (Normal (mkReport
                    (mkResult []
                       (lit "Agent reached maximum steps without executing tools.")
                       0 label)
                    [firstMessage (Scenario.opts 0)] BudgetExhausted),
          Scenario.start [Scenario.call_broken])
       /\ runAgent Scenario.scripted Scenario.env1 (Scenario.opts 0)
            (Scenario.start [Scenario.call_broken])
          = (Normal (mkResult []
                       (lit "Agent reached maximum steps without executing tools.")
                       0 label),
             Scenario.start [Scenario.call_broken]).
Proof.
  split.
  - eexists _, _. split; [vm_compute; reflexivity|]. split; [reflexivity|].
    destruct (proj1 (budget_exhaustion_answer Scenario.World Scenario.scripted
                       Scenario.env1 (Scenario.opts 2)
                       (Scenario.start [Scenario.call_broken; Scenario.frobnicate]))
                _ _ eq_refl eq_refl) as (_ & _ & A & T & L & _).
    split; [exact A|]. split; [exact T|exact L].
  - apply (proj1 (proj2 (budget_exhaustion_answer Scenario.World Scenario.scripted
                           Scenario.env1 (Scenario.opts 0)
                           (Scenario.start [Scenario.call_broken]))));
      by_evaluation.
Defined.

(** C3, as stated, fails: the names in the answer are the actions of the
    recorded steps, not the tools that were invoked.  Here "frobnicate" is
    listed, which is no tool of the registry; the one tool executed in the
    run is "broken". *)
Lemma fallback_answer_lists_unknown_action :
  fst (runAgent Scenario.scripted Scenario.env1 (Scenario.opts 2)
         (Scenario.start [Scenario.call_broken; Scenario.frobnicate]))
  = Normal (mkResult
              [mkStep (lit "go") (lit "broken") (lit "1") (lit "Tool error: boom");
               mkStep (lit "try") (lit "frobnicate") (lit "1")
                 (lit "Unknown tool: frobnicate. Available: list_available_models, broken")]
              (lit "Agent completed 2 steps. Tools used: broken, frobnicate.")
              2 Scenario.HAIKU)
  /\ List.map name Scenario.toolset = [lit "list_available_models"; lit "broken"]
  /\ toolRunsOf
       (events (snd (runAgent Scenario.scripted Scenario.env1 (Scenario.opts 2)
                       (Scenario.start [Scenario.call_broken; Scenario.frobnicate]))))
     = [(lit "broken", lit "1")].
Proof. repeat split; vm_compute; reflexivity. Qed.

Lemma listed_models_are_callable_witness :
  In Cases.haiku (getAllModels (Some (getAvailableProviders None Scenario.env1)))
  /\ truthy (getApiKey (lit "anthropic") None Scenario.env1) = true
  /\ callProvider Cases.vendor Cases.vendor Cases.vendor (lit "anthropic")
       (lit "claude-haiku-4-5-20251001") (lit "hi") (lit "sk-test") 1024
     = Cases.vendor (lit "claude-haiku-4-5-20251001") (lit "hi") (lit "sk-test") 1024.
Proof.
  split; [vm_compute; auto|].
  apply (listed_models_are_callable unit Cases.vendor Cases.vendor Cases.vendor
           None Scenario.env1 Cases.haiku).
  vm_compute. auto.
Defined.

Lemma last_thought_line_wins_witness :
  splitLines Cases.two_thoughts
  = [lit "Thought: a"] ++ lit "  Thought: b " :: [lit "Action: x"]
  /\ thought (parseAgentResponse Cases.two_thoughts) = lit "b".
Proof.
  split; [reflexivity|].
  apply (last_thought_line_wins Cases.two_thoughts [lit "Thought: a"]
           (lit "  Thought: b ") [lit "Action: x"]); reflexivity.
Defined.

Lemma tool_call_reply_round_trip_witness :
  parseAgentResponse
    (toolCallReply (lit "think ") (lit " run") (lit "{  ") [lit "  x: 1"; lit "}"])
  = mkParsed (lit "think") (Some (lit "run"))
      (Some (Scenario.lines [lit "{"; lit "  x: 1"; lit "}"])) None.
Proof.
  apply (tool_call_reply_round_trip (lit "think ") (lit " run") (lit "{  ")
           [lit "  x: 1"; lit "}"]); reflexivity.
Defined.

Lemma final_reply_round_trip_witness :
  parseAgentResponse
    (finalReply (lit "done") (lit " 42" ++ [NL] ++ lit "Action: x "))
  = mkParsed (lit "done") None None (Some (lit "42" ++ [NL] ++ lit "Action: x")).
Proof.
  apply (final_reply_round_trip (lit "done") (lit " 42" ++ [NL] ++ lit "Action: x "));
    reflexivity.
Defined.

Lemma cases_run : Cases.outcome = (Normal Cases.report, Cases.final).
Proof. vm_compute. reflexivity. Defined.

Lemma totalSteps_counts_completion_calls_witness :
  exit Cases.report = Success
  /\ totalSteps (result Cases.report) = 3%Z
  /\ exists evs,
       events Cases.final = events (Scenario.start Cases.script) ++ evs
       /\ match exit Cases.report with
          | Success =>
              totalSteps (result Cases.report) = Z.of_nat (List.length (callsOf evs))
              /\ (Z.of_nat (List.length (steps (result Cases.report)))
                  < totalSteps (result Cases.report))%Z
          | BudgetExhausted =>
              List.length (callsOf evs) = Z.to_nat (budgetOf (Scenario.opts 5))
              /\ List.length (steps (result Cases.report)) <= List.length (callsOf evs)
          end.
Proof.
  split; [reflexivity|]. split; [reflexivity|].
  exact (totalSteps_counts_completion_calls Scenario.World Scenario.scripted
           Scenario.env1 (Scenario.opts 5) (Scenario.start Cases.script)
           Cases.report Cases.final cases_run).
Defined.

Lemma tool_runs_match_steps_witness :
  List.map step_action (steps (result Cases.report)) = [lit "broken"; lit "frobnicate"]
  /\ exists evs,
       events Cases.final = events (Scenario.start Cases.script) ++ evs
       /\ toolRunsOf evs
          = registeredSteps Scenario.toolset (steps (result Cases.report))
       /\ forall n i, In (n, i) (toolRunsOf evs) -> In n (List.map name Scenario.toolset).
Proof.
  split; [reflexivity|].
  exact (tool_runs_match_steps Scenario.World Scenario.scripted
           Scenario.env1 (Scenario.opts 5) (Scenario.start Cases.script)
           Cases.report Cases.final cases_run).
Defined.

Example tool_runs_of_the_run :
  toolRunsOf (events Cases.final) = [(lit "broken", lit "1")].
Proof. vm_compute. reflexivity. Qed.

Lemma result_is_well_formed_witness :
  res_finalAnswer (result Cases.report) = lit "done"
  /\ res_finalAnswer (result Cases.report) <> []
  /\ Forall (fun st => step_action st <> []) (steps (result Cases.report))
  /\ (exit Cases.report = Success ->
      trim (res_finalAnswer (result Cases.report)) = res_finalAnswer (result Cases.report)
      /\ (1 <= totalSteps (result Cases.report) <= budgetOf (Scenario.opts 5))%Z).
Proof.
  split; [reflexivity|].
  exact (result_is_well_formed Scenario.World Scenario.scripted
           Scenario.env1 (Scenario.opts 5) (Scenario.start Cases.script)
           Cases.report Cases.final cases_run).
Defined.

Lemma agent_provider_priority_witness :
  provider (result Cases.report) = lit "Haiku 4.5 (Anthropic)".
Proof.
  exact (agent_provider_priority Scenario.World Scenario.scripted
           Scenario.env1 (Scenario.opts 5) (Scenario.start Cases.script)
           Cases.report Cases.final cases_run).
Defined.

Lemma reply_without_markers_is_nudged_witness :
  existsb isMarkerLine (splitLines (lit "no markers here")) = false
  /\ parseAgentResponse (lit "no markers here") = mkParsed [] None None None
  /\ forall i messages steps s resp w,
       Scenario.scripted (lit "anthropic") (model_id Scenario.model)
         (buildAgentSystemPrompt Scenario.toolset) messages (Some (lit "sk-test"))
         2048%Z (world s) = (inr resp, w) ->
       text resp = lit "no markers here" ->
       Scenario.iteration i messages steps s
       = (Normal (Continue
                    (messages ++ [mkMsg assistant (lit "no markers here");
                                  mkMsg user NUDGE])
                    steps),
          mkSys w (events s ++ [CompletionCall messages])).
Proof.
  split; [reflexivity|].
  apply (reply_without_markers_is_nudged Scenario.World Scenario.scripted
           Scenario.toolset (lit "anthropic") (Some (lit "sk-test")) Scenario.cfg
           Scenario.model (buildAgentSystemPrompt Scenario.toolset)
           (lit "no markers here")).
  reflexivity.
Defined.

Lemma system_prompt_lists_every_tool_witness :
  In Scenario.broken Scenario.toolset
  /\ includes (lit "  broken: Always fails.") (buildAgentSystemPrompt Scenario.toolset)
     = true.
Proof.
  split; [cbn; auto|].
  apply (system_prompt_lists_every_tool Scenario.toolset Scenario.broken).
  cbn. auto.
Defined.

(** [compare] with one model name, and with two: a reply that asks for
    "design_test_suite", which the comparison tools do not include. *)
Example cmdCompare_usage :
  cmdCompare Scenario.scripted Cases.bodies Scenario.env1
    [lit "compare"; lit "haiku"; lit "--prompt"; lit "gpt-4o"] (Scenario.start [])
  = (Exited 1, Scenario.start [],
     [ConsoleLog COMPARE_BANNER; ConsoleError COMPARE_USAGE]).
Proof. vm_compute. reflexivity. Qed.

Example cmdCompare_run :
  let '(ending, s', console) :=
    cmdCompare Scenario.scripted Cases.bodies Scenario.env1 Cases.compare_args
      (Scenario.start [Cases.compare_reply; Scenario.both_markers]) in
  ending = Returned
  /\ events s'
     = [CompletionCall
          [mkMsg user
             (lit "Goal: Compare these models side by side: haiku, gpt-4o. Run tests on each, compute statistics, compare response quality, and recommend a winner. Use this test prompt: "
              ++ [QUOTE] ++ lit "hi" ++ [QUOTE] ++ [NL; NL] ++ lit "Begin.")];
        CompletionCall
          [mkMsg user
             (lit "Goal: Compare these models side by side: haiku, gpt-4o. Run tests on each, compute statistics, compare response quality, and recommend a winner. Use this test prompt: "
              ++ [QUOTE] ++ lit "hi" ++ [QUOTE] ++ [NL; NL] ++ lit "Begin.");
           mkMsg assistant Cases.compare_reply;
           observationMessage
             (lit "Unknown tool: design_test_suite. Available: list_available_models, run_single_test, compare_responses, compute_statistics, analyze_results")]]
  /\ List.length console = 2.
Proof. vm_compute. repeat split; reflexivity. Qed.

(** Numbers in a template literal: exponent notation from 1e21 on, and
    above 2^53 the shortest digits that read back as the same float. *)
Example ofZ_cases :
  ofZ 8 = lit "8" /\ ofZ (-3) = lit "-3" /\ ofZ 0 = lit "0"
  /\ ofZ (2 ^ 53) = lit "9007199254740992"
  /\ ofZ (10 ^ 21 - 1) = lit "1e+21"
  /\ ofZ (- 10 ^ 21) = lit "-1e+21"
  /\ ofZ (2 ^ 60) = lit "1152921504606847000"
  /\ ofZ (15 * 10 ^ 21) = lit "1.5e+22".
Proof. repeat split; vm_compute; reflexivity. Qed.

Example formatAgentResult_exponent :
  formatAgentResult (mkResult [] (lit "a") (- 10 ^ 21) (lit "p"))
  = lit "  Final Answer:" ++ [NL] ++ RULE ++ [NL] ++ lit "a" ++ [NL] ++ [NL]
    ++ lit "  ---" ++ [NL] ++ lit "  Agent: -1e+21 steps | Provider: p".
Proof. vm_compute. reflexivity. Qed.

Example getArg_cases :
  getArg Cases.compare_args (lit "--prompt") = Some (lit "hi")
  /\ getArg Cases.compare_args (lit "--output") = None
  /\ getArg [lit "agent"; lit "--goal"] (lit "--goal") = None
  /\ getArg [lit "agent"; lit "--goal"; []; lit "--goal"; lit "x"] (lit "--goal") = None
  /\ getArg [lit "agent"; lit "--goal"; lit "--max-steps"; lit "3"] (lit "--goal")
     = Some (lit "--max-steps").
Proof. repeat split; reflexivity. Qed.

Example preview_of_301 :
  List.length (preview (repeat 97%N 301)) = 303
  /\ List.length (preview (repeat 97%N 300)) = 300.
Proof. split; vm_compute; reflexivity. Qed.
